(** * ai-convos-db: the ingestion and synchronisation engine of
    [src/ai_convos/cli.py], embedded in Rocq.

    Part I holds the embedding (definitions only), Part II the properties.
    Python [str] values are represented by [string]: the sequence of bytes of
    their UTF-8 encoding, so that [s.encode()] is the identity on the
    representation. *)

From Stdlib Require Import ZArith String Ascii List Lia Bool.
From stdpp Require Import gmap strings list fin_maps.
Import ListNotations.

#[local] Set Warnings "-register-all,-clear-no-such-hyp".

Local Open Scope Z_scope.
Local Open Scope string_scope.

(* ===================================================================== *)
(** * Part I. The embedding                                               *)
(* ===================================================================== *)

(** ** [hashlib.sha256]

    [gen_id] calls the SHA-256 of the Python standard library.  The function
    is written out here after FIPS 180-4 on 32-bit words held in [Z], so that
    identifiers can be evaluated. *)
Module Sha256.

Definition wrap (x : Z) : Z := x mod 2 ^ 32.
Definition add32 (x y : Z) : Z := wrap (x + y).
Definition rotr (n x : Z) : Z :=
  Z.lor (Z.shiftr x n) (wrap (Z.shiftl x (32 - n))).
Definition not32 (x : Z) : Z := Z.lxor x (2 ^ 32 - 1).

Definition ch (x y z : Z) : Z := Z.lxor (Z.land x y) (Z.land (not32 x) z).
Definition maj (x y z : Z) : Z :=
  Z.lxor (Z.lxor (Z.land x y) (Z.land x z)) (Z.land y z).
Definition bsig0 (x : Z) : Z := Z.lxor (Z.lxor (rotr 2 x) (rotr 13 x)) (rotr 22 x).
Definition bsig1 (x : Z) : Z := Z.lxor (Z.lxor (rotr 6 x) (rotr 11 x)) (rotr 25 x).
Definition ssig0 (x : Z) : Z := Z.lxor (Z.lxor (rotr 7 x) (rotr 18 x)) (Z.shiftr x 3).
Definition ssig1 (x : Z) : Z := Z.lxor (Z.lxor (rotr 17 x) (rotr 19 x)) (Z.shiftr x 10).

(** Round constants, in decimal: the first 32 bits of the fractional parts
    of the cube roots of the first 64 primes. *)
Definition round_constants : list Z :=
  [ 1116352408; 1899447441; 3049323471; 3921009573; 961987163; 1508970993;
    2453635748; 2870763221; 3624381080; 310598401; 607225278; 1426881987;
    1925078388; 2162078206; 2614888103; 3248222580; 3835390401; 4022224774;
    264347078; 604807628; 770255983; 1249150122; 1555081692; 1996064986;
    2554220882; 2821834349; 2952996808; 3210313671; 3336571891; 3584528711;
    113926993; 338241895; 666307205; 773529912; 1294757372; 1396182291;
    1695183700; 1986661051; 2177026350; 2456956037; 2730485921; 2820302411;
    3259730800; 3345764771; 3516065817; 3600352804; 4094571909; 275423344;
    430227734; 506948616; 659060556; 883997877; 958139571; 1322822218;
    1537002063; 1747873779; 1955562222; 2024104815; 2227730452; 2361852424;
    2428436474; 2756734187; 3204031479; 3329325298 ].

(** The chaining value: eight 32-bit words. *)
Record state := State { ha : Z; hb : Z; hc : Z; hd : Z; he : Z; hf : Z; hg : Z; hh : Z }.

Definition initial : state :=
  State 1779033703 3144134277 1013904242 2773480762
        1359893119 2600822924 528734635 1541459225.

(** Padding: a [0x80] byte, zero bytes up to 56 modulo 64, and the bit
    length on 8 bytes, most significant first. *)
Definition be_bytes (n : nat) (x : Z) : list Z :=
  List.map (fun i => Z.land (Z.shiftr x (8 * Z.of_nat i)) 255) (rev (seq 0 n)).

Definition pad (msg : list Z) : list Z :=
  let len := Z.of_nat (length msg) in
  let zeros := Z.to_nat ((55 - len) mod 64) in
  msg ++ 128 :: repeat 0 zeros ++ be_bytes 8 (8 * len).

Definition be_word (bs : list Z) : Z :=
  fold_left (fun acc b => Z.lor (Z.shiftl acc 8) b) bs 0.

Fixpoint chunks {A} (size count : nat) (l : list A) : list (list A) :=
  match count with
  | O => []
  | S count' => firstn size l :: chunks size count' (skipn size l)
  end.

Definition words_of_block (block : list Z) : list Z :=
  List.map be_word (chunks 4 16 block).

(** Message schedule: [win] holds the sixteen most recent words, oldest
    first; each step emits the oldest and appends the next one. *)
Fixpoint schedule (n : nat) (win : list Z) : list Z :=
  match n with
  | O => []
  | S n' =>
      let next := add32 (add32 (ssig1 (nth 14 win 0)) (nth 9 win 0))
                        (add32 (ssig0 (nth 1 win 0)) (nth 0 win 0)) in
      nth 0 win 0 :: schedule n' (tl win ++ [next])
  end.

Definition round (s : state) (kw : Z * Z) : state :=
  let t1 := add32 (add32 (add32 (hh s) (bsig1 (he s)))
                         (add32 (ch (he s) (hf s) (hg s)) (fst kw))) (snd kw) in
  let t2 := add32 (bsig0 (ha s)) (maj (ha s) (hb s) (hc s)) in
  State (add32 t1 t2) (ha s) (hb s) (hc s) (add32 (hd s) t1) (he s) (hf s) (hg s).

Definition compress (s : state) (block : list Z) : state :=
  let ws := schedule 64 (words_of_block block) in
  let r := fold_left round (combine round_constants ws) s in
  State (add32 (ha s) (ha r)) (add32 (hb s) (hb r)) (add32 (hc s) (hc r))
        (add32 (hd s) (hd r)) (add32 (he s) (he r)) (add32 (hf s) (hf r))
        (add32 (hg s) (hg r)) (add32 (hh s) (hh r)).

Definition digest_words (msg : list Z) : state :=
  let padded := pad msg in
  fold_left compress (chunks 64 (length padded / 64) padded) initial.

(** [hexdigest]: lower-case hexadecimal, eight digits per word. *)
Definition hex_digit (d : Z) : ascii :=
  nth (Z.to_nat d) (list_ascii_of_string "0123456789abcdef") "0"%char.

Definition hex_word (x : Z) : string :=
  string_of_list_ascii
    (List.map (fun i => hex_digit (Z.land (Z.shiftr x (4 * Z.of_nat i)) 15))
              (rev (seq 0 8))).

Definition bytes_of_string (s : string) : list Z :=
  List.map (fun c => Z.of_N (N_of_ascii c)) (list_ascii_of_string s).

Definition hexdigest (s : string) : string :=
  let d := digest_words (bytes_of_string s) in
  hex_word (ha d) ++ hex_word (hb d) ++ hex_word (hc d) ++ hex_word (hd d) ++
  hex_word (he d) ++ hex_word (hf d) ++ hex_word (hg d) ++ hex_word (hh d).

End Sha256.

(** ** Identity scheme *)

(** [s[:n]] on strings. *)
Fixpoint str_take (n : nat) (s : string) : string :=
  match n, s with
  | S n', String c s' => String c (str_take n' s')
  | _, _ => EmptyString
  end.

(** [gen_id(source, oid) = hashlib.sha256(f"{source}:{oid}".encode()).hexdigest()[:16]] *)
Definition gen_id (source oid : string) : string :=
  str_take 16 (Sha256.hexdigest (source ++ ":" ++ oid)).
Arguments gen_id : simpl never.

(** ** Python values and primitives used by the source *)

(** Values produced by [json.loads].  [JNull] is Python's [None]; [JDict]
    lists the items of a [dict] in insertion order, keys distinct.  Numbers
    are only ever tested for truth and for their type by the code modelled
    here, so that an integer stands for any number. *)
Inductive json : Type :=
| JNull
| JBool (b : bool)
| JNum (n : Z)
| JStr (s : string)
| JList (l : list json)
| JDict (d : list (string * json)).

(** Exceptions raised by the modelled code. *)
Inductive exn : Type :=
| KeyError (key : string)
| TypeError
| AttributeError
| ValueError
| JobError (msg : string).

(** A computation that returns or raises. *)
Inductive result (A : Type) : Type :=
| Ok (a : A)
| Raise (e : exn).
Arguments Ok {A} a.
Arguments Raise {A} e.

#[global] Instance result_ret : MRet result := fun A a => Ok a.
#[global] Instance result_bind : MBind result := fun A B k r =>
  match r with
  | Ok a => k a
  | Raise e => Raise e
  end.

(** A [for] loop or comprehension whose body may raise: left to right, the
    first exception ends it. *)
Fixpoint mapM {A B} (f : A -> result B) (l : list A) : result (list B) :=
  match l with
  | [] => Ok []
  | a :: l' => b ← f a; bs ← mapM f l'; Ok (b :: bs)
  end.

(** A comprehension [[f(x) for x in l if p(x)]] whose filter and body may
    raise. *)
Fixpoint filter_mapM {A B} (p : A -> result bool) (f : A -> result B) (l : list A)
    : result (list B) :=
  match l with
  | [] => Ok []
  | a :: l' =>
      keep ← p a;
      if keep : bool
      then b ← f a; bs ← filter_mapM p f l'; Ok (b :: bs)
      else filter_mapM p f l'
  end.

Definition concatM {A B} (f : A -> result (list B)) (l : list A) : result (list B) :=
  bs ← mapM f l; Ok (concat bs).

Definition is_ok {A} (r : result A) : bool :=
  match r with Ok _ => true | Raise _ => false end.

Module Py.

Definition nl : string := String (ascii_of_nat 10) EmptyString.

Definition byte_of (c : ascii) : nat := nat_of_ascii c.

(** One white-space character of [str.isspace] at the head of [s], in its
    UTF-8 encoding; the rest of the string when there is one. *)
Definition ws_prefix (s : string) : option string :=
  match s with
  | String c1 r1 =>
      let b1 := byte_of c1 in
      if ((9 <=? b1) && (b1 <=? 13) || (28 <=? b1) && (b1 <=? 32))%nat then Some r1
      else match r1 with
           | String c2 r2 =>
               let b2 := byte_of c2 in
               if ((b1 =? 194) && ((b2 =? 133) || (b2 =? 160)))%nat then Some r2
               else match r2 with
                    | String c3 r3 =>
                        let b3 := byte_of c3 in
                        if ((b1 =? 225) && (b2 =? 154) && (b3 =? 128)
                            || (b1 =? 226) && (b2 =? 128)
                               && ((128 <=? b3) && (b3 <=? 138) || (b3 =? 168)
                                   || (b3 =? 169) || (b3 =? 175))
                            || (b1 =? 226) && (b2 =? 129) && (b3 =? 159)
                            || (b1 =? 227) && (b2 =? 128) && (b3 =? 128))%nat
                        then Some r3 else None
                    | EmptyString => None
                    end
           | EmptyString => None
           end
  | EmptyString => None
  end.

(** The same, read from the end of the string: [s] is reversed. *)
Definition ws_suffix_rev (s : string) : option string :=
  match s with
  | String c1 r1 =>
      let b1 := byte_of c1 in
      if ((9 <=? b1) && (b1 <=? 13) || (28 <=? b1) && (b1 <=? 32))%nat then Some r1
      else match r1 with
           | String c2 r2 =>
               let b2 := byte_of c2 in
               if ((b2 =? 194) && ((b1 =? 133) || (b1 =? 160)))%nat then Some r2
               else match r2 with
                    | String c3 r3 =>
                        let b3 := byte_of c3 in
                        if ((b3 =? 225) && (b2 =? 154) && (b1 =? 128)
                            || (b3 =? 226) && (b2 =? 128)
                               && ((128 <=? b1) && (b1 <=? 138) || (b1 =? 168)
                                   || (b1 =? 169) || (b1 =? 175))
                            || (b3 =? 226) && (b2 =? 129) && (b1 =? 159)
                            || (b3 =? 227) && (b2 =? 128) && (b1 =? 128))%nat
                        then Some r3 else None
                    | EmptyString => None
                    end
           | EmptyString => None
           end
  | EmptyString => None
  end.

Fixpoint drop_while (step : string -> option string) (fuel : nat) (s : string) : string :=
  match fuel with
  | O => s
  | S fuel' =>
      match step s with
      | Some r => drop_while step fuel' r
      | None => s
      end
  end.

Definition str_rev (s : string) : string :=
  string_of_list_ascii (rev (list_ascii_of_string s)).

Definition lstrip (s : string) : string := drop_while ws_prefix (String.length s) s.
Definition rstrip (s : string) : string :=
  str_rev (drop_while ws_suffix_rev (String.length s) (str_rev s)).

(** [s.strip()] *)
Definition strip (s : string) : string := rstrip (lstrip s).

(** [sep.join(parts)] on a list of [str]. *)
Fixpoint join (sep : string) (parts : list string) : string :=
  match parts with
  | [] => ""
  | [p] => p
  | p :: rest => p ++ sep ++ join sep rest
  end.

(** [s.lower()] on ASCII letters; its one call site, in [make_edits], only
    ever passes one of three ASCII tool names. *)
Definition lower_char (c : ascii) : ascii :=
  let b := byte_of c in
  if ((65 <=? b) && (b <=? 90))%nat then ascii_of_nat (b + 32) else c.

Fixpoint lower (s : string) : string :=
  match s with
  | EmptyString => EmptyString
  | String c r => String (lower_char c) (lower r)
  end.

(** [s.title()] on ASCII text: a letter is upper-cased after a character
    that is not a letter and lower-cased after a letter. *)
Definition is_letter (c : ascii) : bool :=
  let b := byte_of c in
  ((65 <=? b) && (b <=? 90) || (97 <=? b) && (b <=? 122))%nat.

Definition upper_char (c : ascii) : ascii :=
  let b := byte_of c in
  if ((97 <=? b) && (b <=? 122))%nat then ascii_of_nat (b - 32) else c.

Fixpoint title_go (after_letter : bool) (s : string) : string :=
  match s with
  | EmptyString => EmptyString
  | String c r =>
      String (if after_letter then lower_char c else upper_char c)
             (title_go (is_letter c) r)
  end.
Definition title (s : string) : string := title_go false s.

(** [s.replace(old, new)], [old] not empty. *)
Fixpoint replace_go (old new : string) (skip : nat) (s : string) : string :=
  match s with
  | EmptyString => EmptyString
  | String c r =>
      match skip with
      | S k => replace_go old new k r
      | O => if String.prefix old s
             then new ++ replace_go old new (String.length old - 1) r
             else String c (replace_go old new 0 r)
      end
  end.
Definition replace (old new s : string) : string := replace_go old new 0 s.

(** Decimal [str(n)] of a non-negative [int]. *)
Fixpoint digits (fuel : nat) (n : nat) (acc : string) : string :=
  match fuel with
  | O => acc
  | S fuel' =>
      let acc' := String (ascii_of_nat (48 + n mod 10)) acc in
      if (n <? 10)%nat then acc' else digits fuel' (n / 10) acc'
  end.
Definition str_of_nat (n : nat) : string := digits (S n) n "".

(** Truth value of a JSON value: [bool(v)]. *)
Definition truthy (v : json) : bool :=
  match v with
  | JNull => false
  | JBool b => b
  | JNum n => negb (Z.eqb n 0)
  | JStr s => negb (String.eqb s "")
  | JList l => match l with [] => false | _ => true end
  | JDict d => match d with [] => false | _ => true end
  end.

(** [x or y] *)
Definition or_else (x y : json) : json := if truthy x then x else y.

Fixpoint assoc (k : string) (d : list (string * json)) : option json :=
  match d with
  | [] => None
  | (k', v) :: d' => if String.eqb k k' then Some v else assoc k d'
  end.

(** [d.get(k, default)] on a [dict]. *)
Definition get (d : list (string * json)) (k : string) (default : json) : json :=
  match assoc k d with Some v => v | None => default end.

(** [d.get(k)] *)
Definition get_none (d : list (string * json)) (k : string) : json := get d k JNull.

(** [k in d] *)
Definition has (d : list (string * json)) (k : string) : bool :=
  match assoc k d with Some _ => true | None => false end.

(** [d[k]] on a [dict] *)
Definition item (d : list (string * json)) (k : string) : result json :=
  match assoc k d with Some v => Ok v | None => Raise (KeyError k) end.

(** [v == s] for a string literal [s]. *)
Definition eq_str (v : json) (s : string) : bool :=
  match v with JStr s' => String.eqb s' s | _ => false end.

(** [v in (s1, ..., sn)] for string literals. *)
Definition in_strs (v : json) (l : list string) : bool :=
  existsb (eq_str v) l.

Definition is_none (v : json) : bool :=
  match v with JNull => true | _ => false end.

(** [sep.join(values)]: [TypeError] unless every value is a [str]. *)
Definition as_str (v : json) : result string :=
  match v with JStr s => Ok s | _ => Raise TypeError end.

Definition join_values (sep : string) (vs : list json) : result string :=
  parts ← mapM as_str vs; Ok (join sep parts).

(** [v.get] exists on a [dict] only: [AttributeError] on a string, a
    list, a number or [None]. *)
Definition as_dict (v : json) : result (list (string * json)) :=
  match v with JDict d => Ok d | _ => Raise AttributeError end.


(** [sub in s] on strings. *)
Fixpoint is_infix (sub s : string) : bool :=
  String.prefix sub s
  || match s with
     | EmptyString => false
     | String _ r => is_infix sub r
     end.

(** [k in v] for a string [k]: key test on a [dict], element test on a
    list, substring test on a [str]; [TypeError] on a value that is not a
    container. *)
Definition contains (v : json) (k : string) : result bool :=
  match v with
  | JDict d => Ok (has d k)
  | JList l => Ok (existsb (fun x => eq_str x k) l)
  | JStr s => Ok (is_infix k s)
  | _ => Raise TypeError
  end.

(** [v[k]] for a string [k]: only a [dict] can be subscripted by a string. *)
Definition subscript (v : json) (k : string) : result json :=
  match v with
  | JDict d => item d k
  | _ => Raise TypeError
  end.

(** [v.get(k, default)] on an arbitrary value. *)
Definition dot_get (v : json) (k : string) (default : json) : result json :=
  d ← as_dict v; Ok (get d k default).

(** The characters of a [str]: each lead byte of the UTF-8 encoding with
    the continuation bytes ([0x80] to [0xBF]) that follow it. *)
Definition is_continuation (c : ascii) : bool :=
  let b := byte_of c in ((128 <=? b) && (b <? 192))%nat.

Fixpoint chars_go (s : string) : string * list string :=
  match s with
  | EmptyString => (EmptyString, [])
  | String c r =>
      let '(pending, done) := chars_go r in
      if is_continuation c then (String c pending, done)
      else (EmptyString, String c pending :: done)
  end.

Definition chars (s : string) : list string :=
  let '(pending, done) := chars_go s in
  match pending with
  | EmptyString => done
  | _ => pending :: done
  end.

(** [for x in v]: the elements of a list, the keys of a [dict], the
    characters of a [str]; [TypeError] on a value that is not iterable. *)
Definition iter (v : json) : result (list json) :=
  match v with
  | JList l => Ok l
  | JDict d => Ok (List.map (fun kv => JStr (fst kv)) d)
  | JStr s => Ok (List.map JStr (chars s))
  | _ => Raise TypeError
  end.

(** [enumerate(l)] *)
Definition enumerate {A} (l : list A) : list (nat * A) :=
  combine (seq 0 (length l)) l.

End Py.

(** ** Content-union extractor *)

(** The [dict] returned by [extract_content]; [tools] and [attachments] hold
    the dicts the code builds. *)
Record content := Content {
  text : string;
  thinking : option string;
  tools : list json;
  attachments : list json
}.

Definition dict_blocks (items : list json) : list (list (string * json)) :=
  omap (fun b => match b with JDict d => Some d | _ => None end) items.

Definition str_items (items : list json) : list string :=
  omap (fun b => match b with JStr s => Some s | _ => None end) items.

(** The element a block contributes to the text join. *)
Definition text_part (b : list (string * json)) : json :=
  let ty := Py.get_none b "type" in
  if Py.eq_str ty "text" || Py.is_none ty
  then Py.or_else (Py.get b "text" (JStr "")) (Py.get b "thinking" (JStr ""))
  else JStr "".

Definition is_thinking_block (b : list (string * json)) : bool :=
  Py.eq_str (Py.get_none b "type") "thinking" && Py.truthy (Py.get_none b "thinking").

Definition tool_use (b : list (string * json)) : result json :=
  name ← Py.item b "name";
  Ok (JDict [("name", name); ("input", Py.get b "input" (JDict [])); ("id", Py.get_none b "id")]).

Definition tool_result (b : list (string * json)) : json :=
  JDict [("id", Py.get_none b "tool_use_id"); ("output", Py.get b "content" (JStr ""))].

Definition is_attachment_block (b : list (string * json)) : bool :=
  Py.in_strs (Py.get_none b "type") ["image_asset_pointer"; "file"]
  || Py.in_strs (Py.get_none b "content_type") ["image_asset_pointer"; "file"].

Definition attachment_of (b : list (string * json)) : json :=
  JDict [("filename", Py.get b "name" (Py.get_none b "file_name"));
         ("mime_type", Py.get b "content_type" (Py.get_none b "file_type"));
         ("size", Py.get b "size" (Py.get_none b "file_size"));
         ("url", Py.get b "asset_pointer" (Py.get_none b "url"))].

Definition extract_content (c : json) : result content :=
  match c with
  | JStr s => Ok (Content s None [] [])
  | JList items =>
      let blocks := dict_blocks items in
      joined ← Py.join_values Py.nl (List.map text_part blocks);
      let txt :=
        let t := Py.strip joined in
        if negb (String.eqb t "") then t
        else Py.strip (Py.join Py.nl (str_items items)) in
      thoughts ← mapM (fun b => Py.item b "thinking") (List.filter is_thinking_block blocks);
      think ← Py.join_values Py.nl thoughts;
      let th := let t := Py.strip think in if negb (String.eqb t "") then Some t else None in
      uses ← mapM tool_use
                (List.filter (fun b => Py.eq_str (Py.get_none b "type") "tool_use") blocks);
      let results :=
        List.map tool_result
          (List.filter (fun b => Py.eq_str (Py.get_none b "type") "tool_result") blocks) in
      Ok (Content txt th (uses ++ results)
            (List.map attachment_of (List.filter is_attachment_block blocks)))
  | _ => Ok (Content "" None [] [])
  end.

(** ** Library functions the source calls

    The standard-library calls whose results the source only passes on are
    kept abstract.  [None] stands for the call raising. *)
Class Library := {
  (** [datetime.datetime] *)
  datetime : Type;
  (** [datetime.fromisoformat(s)]; [None] when it raises [ValueError]. *)
  fromisoformat : string -> option datetime;
  (** [datetime.fromtimestamp(float(t))]; [None] when either call raises. *)
  fromtimestamp : json -> option datetime;
  (** [json.dumps(v)] *)
  dumps : json -> string;
  (** [json.loads(s)]; [None] when it raises [ValueError]. *)
  loads : string -> option json;
  (** [str(v)], as an f-string formats a value that is not a [str]. *)
  str_of : json -> string;
  (** [re.search(pattern, s)]: the text of group 1 of the match, if any. *)
  re_search : string -> string -> option string
}.

(** ** Canonical data model: one record per table of [init_schema], fields
    in column order, as the [dict(...)] literals of the normalizers build
    them. *)
Section Model.
Context `{Library}.

Record conversation := Conversation {
  c_id : string; c_source : string; c_title : json;
  c_created_at : option datetime; c_updated_at : option datetime;
  c_model : json; c_cwd : json; c_git_branch : json; c_project_id : json;
  c_metadata : string
}.

Record message := Message {
  m_id : string; m_conversation_id : string; m_role : json; m_content : string;
  m_thinking : option string; m_created_at : option datetime; m_model : json;
  m_metadata : string
}.

Record tool_call := ToolCall {
  t_id : string; t_message_id : string; t_tool_name : json; t_input : string;
  t_output : string; t_status : string; t_duration_ms : json;
  t_created_at : option datetime
}.

Record attachment := Attachment {
  a_id : string; a_message_id : string; a_filename : json; a_mime_type : json;
  a_size : json; a_path : json; a_url : json; a_created_at : option datetime
}.

Record artifact := Artifact {
  r_id : string; r_conversation_id : string; r_artifact_type : json; r_title : json;
  r_content : json; r_language : json; r_created_at : option datetime; r_version : json
}.

Record file_edit := FileEdit {
  e_id : string; e_message_id : string; e_file_path : json; e_edit_type : string;
  e_content : json; e_created_at : option datetime
}.

(** [class ParseResult] *)
Record ParseResult := mkParseResult {
  convs : list conversation; msgs : list message; tools_ : list tool_call;
  attachs : list attachment; artifacts : list artifact; edits : list file_edit
}.

Definition empty_result : ParseResult := mkParseResult [] [] [] [] [] [].

(** ** Storage and merge

    The storage engine is an external collaborator: a table with a primary
    key is a finite map from the key to the row, and
    [INSERT OR REPLACE INTO t VALUES (...)] replaces the whole row under
    that key. *)
Record store := Store {
  conversations : gmap string conversation;
  messages : gmap string message;
  tool_calls : gmap string tool_call;
  attachments_ : gmap string attachment;
  artifacts_ : gmap string artifact;
  file_edits : gmap string file_edit
}.

Definition empty_store : store := Store ∅ ∅ ∅ ∅ ∅ ∅.

(** [for r in rows: conn.execute("INSERT OR REPLACE INTO t ...", list(r.values()))] *)
Definition insert_or_replace {R} (key : R -> string) (rows : list R)
    (table : gmap string R) : gmap string R :=
  fold_left (fun t r => <[key r := r]> t) rows table.

(** [SELECT id FROM t WHERE id IN (ids)] as a set. *)
Definition select_ids {R} (ids : list string) (table : gmap string R) : gset string :=
  list_to_set (List.filter (fun i => bool_decide (is_Some (table !! i))) ids).

(** The tuple [upsert] returns. *)
Record merge_counts := MergeCounts {
  n_convs : nat; n_msgs : nat; n_tools : nat; n_attachs : nat; n_edits : nat;
  n_new_convs : nat; n_updated : nat
}.

Definition upsert (s : store) (r : ParseResult) : store * merge_counts :=
  let cids := List.map c_id (convs r) in
  let mids := List.map m_id (msgs r) in
  let existing := select_ids cids (conversations s) in
  let existing_msgs := select_ids mids (messages s) in
  let new_convs : gset string := list_to_set cids ∖ existing in
  let new_msgs : gset string := list_to_set mids ∖ existing_msgs in
  let updated : gset string :=
    list_to_set (List.map m_conversation_id
                   (List.filter (fun m => bool_decide (m_id m ∈ new_msgs)) (msgs r)))
    ∖ new_convs in
  (Store (insert_or_replace c_id (convs r) (conversations s))
         (insert_or_replace m_id (msgs r) (messages s))
         (insert_or_replace t_id (tools_ r) (tool_calls s))
         (insert_or_replace a_id (attachs r) (attachments_ s))
         (insert_or_replace r_id (artifacts r) (artifacts_ s))
         (insert_or_replace e_id (edits r) (file_edits s)),
   MergeCounts (length (convs r)) (length (msgs r)) (length (tools_ r))
               (length (attachs r)) (length (edits r))
               (size new_convs) (size updated)).

(** Row counts of the six tables, [SELECT COUNT( * ) FROM t]. *)
Definition row_counts (s : store) : list nat :=
  [size (conversations s); size (messages s); size (tool_calls s);
   size (attachments_ s); size (artifacts_ s); size (file_edits s)].

(** [SELECT COUNT( * ) FROM conversations WHERE id = cid] *)
Definition count_conversations_with (cid : string) (s : store) : nat :=
  size (filter (fun kv => kv.1 = cid) (conversations s)).

(** [SELECT COUNT( * ) FROM messages WHERE conversation_id = cid] *)
Definition count_messages_of (cid : string) (s : store) : nat :=
  size (filter (fun kv => m_conversation_id kv.2 = cid) (messages s)).

End Model.

(** ** Source normalizers: session logs *)

(** A session-log file as the normalizers see it: [str(path)],
    [path.parent.name], [path.stem], and for each line of the text the value
    [json.loads] returns, [None] where it raises. *)
Record session_file := SessionFile {
  f_path : string;
  f_parent_name : string;
  f_stem : string;
  f_lines : list (option json)
}.

(** [load_jsonl]: lines that fail to parse (blank lines among them) and
    lines whose value is falsy are left out. *)
Definition load_jsonl (f : session_file) : list json :=
  omap (fun line => match line with
                    | Some e => if Py.truthy e then Some e else None
                    | None => None
                    end) (f_lines f).

Section Sessions.
Context `{Library}.

(** [ts_from_iso(t)]: a falsy [t] gives [None]; [t.replace] exists on a
    [str] only. *)
Definition ts_from_iso (t : json) : result (option datetime) :=
  if Py.truthy t then
    match t with
    | JStr s =>
        match fromisoformat (Py.replace "Z" "+00:00" s) with
        | Some d => Ok (Some d)
        | None => Raise ValueError
        end
    | _ => Raise AttributeError
    end
  else Ok None.

(** [ts_from_epoch(t)] *)
Definition ts_from_epoch (t : json) : option datetime :=
  if Py.is_none t || Py.eq_str t "" then None else fromtimestamp t.

(** How an f-string formats a value. *)
Definition fmt (v : json) : string :=
  match v with JStr s => s | _ => str_of v end.

(** [[ts_from_iso(e["timestamp"]) for e in events if "timestamp" in e]] *)
Definition timestamps_of (events : list json) : result (list (option datetime)) :=
  filter_mapM (fun e => Py.contains e "timestamp")
              (fun e => t ← Py.subscript e "timestamp"; ts_from_iso t) events.

(** [next((f(e) for e in events if e.get("type") == ty), {})]: the scan
    stops at the first event of that type. *)
Fixpoint first_of_type (ty : string) (f : json -> result json) (events : list json)
    : result json :=
  match events with
  | [] => Ok (JDict [])
  | e :: rest =>
      t ← Py.dot_get e "type" JNull;
      if Py.eq_str t ty then f e else first_of_type ty f rest
  end.

(** [timestamps[0] if timestamps else None], [timestamps[-1] if ...] *)
Definition first_ts (ts : list (option datetime)) : option datetime :=
  match ts with [] => None | t :: _ => t end.
Definition last_ts (ts : list (option datetime)) : option datetime :=
  List.last ts None.

(** What a session normalizer returns for one file. *)
Record session := Session {
  s_conv : conversation;
  s_msgs : list message;
  s_tools : list tool_call;
  s_edits : list file_edit
}.

(** *** Claude Code *)
Section ClaudeCode.
Variable cid : string.
Let src : string := "claude-code".

(** [e["message"].get(k, default)] *)
Definition message_get (e : json) (k : string) (default : json) : result json :=
  m ← Py.subscript e "message"; Py.dot_get m k default.

Definition make_msg (idx : nat) (e : json) : result message :=
  fallback ← message_get e "text" (JStr "");
  body ← message_get e "content" fallback;
  c ← extract_content body;
  role ← Py.subscript e "type";
  stamp ← Py.dot_get e "timestamp" JNull;
  ts ← ts_from_iso stamp;
  ty ← Py.subscript e "type";
  Ok (Message (gen_id src (cid ++ ":" ++ Py.str_of_nat idx)) cid role
              (text c) (thinking c) ts
              (if Py.eq_str ty "assistant" then JStr "claude" else JNull) "{}").

Definition make_tool (idx : nat) (mid : string) (ts : option datetime)
    (jt : nat * json) : result tool_call :=
  let '(j, t) := jt in
  id_ ← Py.dot_get t "id" JNull;
  name ← Py.dot_get t "name" id_;
  input ← Py.dot_get t "input" (JDict []);
  has_output ← Py.contains t "output";
  output ← (if has_output : bool
            then o ← Py.dot_get t "output" (JStr ""); Ok (dumps o)
            else Ok "{}");
  has_output' ← Py.contains t "output";
  Ok (ToolCall (gen_id src ("tool:" ++ cid ++ ":" ++ Py.str_of_nat idx ++ ":" ++ Py.str_of_nat j))
               mid name (dumps input) output
               (if has_output' : bool then "complete" else "pending") JNull ts).

Definition make_tools (idx : nat) (e : json) : result (list tool_call) :=
  body ← message_get e "content" (JList []);
  c ← extract_content body;
  stamp ← Py.dot_get e "timestamp" JNull;
  ts ← ts_from_iso stamp;
  let mid := gen_id src (cid ++ ":" ++ Py.str_of_nat idx) in
  mapM (make_tool idx mid ts) (Py.enumerate (tools c)).

(** The filter of [make_edits]:
    [t.get("name") in ("Write", "Edit", "MultiEdit") and t.get("input", {}).get("file_path")] *)
Definition is_file_edit (t : json) : result bool :=
  name ← Py.dot_get t "name" JNull;
  if Py.in_strs name ["Write"; "Edit"; "MultiEdit"] then
    input ← Py.dot_get t "input" (JDict []);
    fp ← Py.dot_get input "file_path" JNull;
    Ok (Py.truthy fp)
  else Ok false.

Definition make_edit (idx : nat) (mid : string) (ts : option datetime)
    (jt : nat * json) : result file_edit :=
  let '(j, t) := jt in
  input ← Py.subscript t "input";
  fp ← Py.subscript input "file_path";
  name ← Py.subscript t "name";
  kind ← (match name with JStr s => Ok (Py.lower s) | _ => Raise AttributeError end);
  input' ← Py.subscript t "input";
  body ← Py.dot_get input' "content" JNull;
  input'' ← Py.subscript t "input";
  new_string ← Py.dot_get input'' "new_string" (JStr "");
  Ok (FileEdit (gen_id src ("edit:" ++ cid ++ ":" ++ Py.str_of_nat idx ++ ":" ++ Py.str_of_nat j))
               mid fp kind (Py.or_else body new_string) ts).

Definition make_edits (idx : nat) (e : json) : result (list file_edit) :=
  body ← message_get e "content" (JList []);
  c ← extract_content body;
  stamp ← Py.dot_get e "timestamp" JNull;
  ts ← ts_from_iso stamp;
  let mid := gen_id src (cid ++ ":" ++ Py.str_of_nat idx) in
  filter_mapM (fun jt => is_file_edit (snd jt)) (make_edit idx mid ts)
              (Py.enumerate (tools c)).

(** The filter of the [msgs] comprehension:
    [extract_content(e["message"].get("content", ""))["text"]] *)
Definition has_text (e : json) : result bool :=
  body ← message_get e "content" (JStr "");
  c ← extract_content body;
  Ok (negb (String.eqb (text c) "")).

End ClaudeCode.

Definition claude_code_title (f : session_file) : string :=
  Py.replace "-" "/" (Py.replace "-Users-" "~/" (f_parent_name f))
  ++ " (" ++ str_take 8 (f_stem f) ++ ")".

Definition parse_claude_code_session (jsonl : session_file) : result (option session) :=
  let events := load_jsonl jsonl in
  match events with
  | [] => Ok None
  | _ =>
      let cid := gen_id "claude-code" (f_path jsonl) in
      timestamps ← timestamps_of events;
      system ← first_of_type "system" Ok events;
      with_message ← filter_mapM (fun e => Py.contains e "message") Ok events;
      let msg_events := Py.enumerate with_message in
      msgs ← filter_mapM (fun ie => has_text (snd ie))
                         (fun ie => make_msg cid (fst ie) (snd ie)) msg_events;
      match msgs with
      | [] => Ok None
      | _ =>
          cwd ← Py.dot_get system "cwd" JNull;
          branch ← Py.dot_get system "gitBranch" JNull;
          let conv :=
            Conversation cid "claude-code" (JStr (claude_code_title jsonl))
              (first_ts timestamps) (last_ts timestamps) (JStr "claude")
              cwd branch JNull (dumps (JDict [("session_id", JStr (f_stem jsonl))])) in
          tools ← concatM (fun ie => make_tools cid (fst ie) (snd ie)) msg_events;
          edits ← concatM (fun ie => make_edits cid (fst ie) (snd ie)) msg_events;
          Ok (Some (Session conv msgs tools edits))
      end
  end.

(** [files or projects_dir.rglob("*.jsonl")] *)
Definition files_or (files : option (list session_file)) (found : list session_file)
    : list session_file :=
  match files with
  | Some ((_ :: _) as fs) => fs
  | _ => found
  end.

Definition collect (sessions : list session) : ParseResult :=
  mkParseResult (List.map s_conv sessions) (List.concat (List.map s_msgs sessions))
                (List.concat (List.map s_tools sessions)) [] []
                (List.concat (List.map s_edits sessions)).

(** [parse_claude_code(projects_dir, files)]; [found] lists the files under
    [projects_dir]. *)
Definition parse_claude_code (found : list session_file)
    (files : option (list session_file)) : result ParseResult :=
  parsed ← mapM parse_claude_code_session (files_or files found);
  Ok (collect (omap id parsed)).

End Sessions.

Section Codex.
Context `{Library}.

(** [timestamps[i] if i < len(timestamps) else None] *)
Definition ts_at (timestamps : list (option datetime)) (i : nat) : option datetime :=
  match timestamps !! i with Some t => t | None => None end.

(** [extract_msg_text(p)] *)
Definition is_text_block (b : json) : bool :=
  match b with
  | JDict d =>
      Py.in_strs (Py.get_none d "type") ["input_text"; "output_text"; "text"]
      && Py.truthy (Py.get_none d "text")
  | _ => false
  end.

Definition extract_msg_text (p : json) : result string :=
  body ← Py.dot_get p "content" (JList []);
  blocks ← Py.iter body;
  parts ← mapM (fun b => Py.subscript b "text") (List.filter is_text_block blocks);
  Py.join_values Py.nl parts.

(** [norm_args(p)] *)
Definition norm_args (p : json) : result json :=
  a ← Py.dot_get p "arguments" (JDict []);
  match a with
  | JStr s => match loads s with Some v => Ok v | None => Raise ValueError end
  | _ => Ok a
  end.

Section Session.
Variable cid : string.
Variable timestamps : list (option datetime).
Let src : string := "codex".

(** The filter and the row of the [msgs] comprehension. *)
Definition codex_msg (ip : nat * json) : result (option message) :=
  let '(i, p) := ip in
  ty ← Py.dot_get p "type" JNull;
  if Py.eq_str ty "message" then
    role ← Py.dot_get p "role" JNull;
    if negb (Py.in_strs role ["developer"; "system"]) then
      txt ← extract_msg_text p;
      if negb (String.eqb txt "") then
        role' ← Py.subscript p "role";
        Ok (Some (Message (gen_id src (cid ++ ":" ++ Py.str_of_nat i)) cid role'
                          (Py.strip txt) None (ts_at timestamps i) JNull "{}"))
      else Ok None
    else Ok None
  else Ok None.

Definition codex_call (ip : nat * json) : result (option tool_call) :=
  let '(i, p) := ip in
  ty ← Py.dot_get p "type" JNull;
  if Py.eq_str ty "function_call" then
    args ← norm_args p;
    if Py.truthy args then
      name ← Py.subscript p "name";
      Ok (Some (ToolCall (gen_id src ("tool:" ++ cid ++ ":" ++ Py.str_of_nat i))
                         (gen_id src (cid ++ ":" ++ Py.str_of_nat i)) name
                         (dumps args) "{}" "pending" JNull (ts_at timestamps i)))
    else Ok None
  else Ok None.

Definition codex_output (ip : nat * json) : result (option tool_call) :=
  let '(i, p) := ip in
  ty ← Py.dot_get p "type" JNull;
  if Py.eq_str ty "function_call_output" then
    call_id ← Py.dot_get p "call_id" JNull;
    out ← Py.dot_get p "output" (JStr "");
    Ok (Some (ToolCall (gen_id src ("toolout:" ++ cid ++ ":" ++ Py.str_of_nat i))
                       (gen_id src (cid ++ ":" ++ Py.str_of_nat i)) call_id
                       "{}" (dumps out) "complete" JNull (ts_at timestamps i)))
  else Ok None.

(** The two patterns of the [edits] comprehension, in order. *)
Definition edit_patterns : list string :=
  ["(?:cat|echo).*[>].*?([^\s>]+)"; "(?:sed|awk).*?([^\s]+)$"].

(** The command text of a shell call, when the filter of the [edits]
    comprehension lets the item through:
    [p.get("type") == "function_call" and p.get("name") == "shell"
     and (args := norm_args(p)) and (c := args.get("command"))
     and (cmd := " ".join(c) if isinstance(c, list) else c)] *)
Definition shell_command (p : json) : result (option json) :=
  ty ← Py.dot_get p "type" JNull;
  if Py.eq_str ty "function_call" then
    name ← Py.dot_get p "name" JNull;
    if Py.eq_str name "shell" then
      args ← norm_args p;
      if Py.truthy args then
        c ← Py.dot_get args "command" JNull;
        if Py.truthy c then
          cmd ← (match c with
                 | JList parts => s ← Py.join_values " " parts; Ok (JStr s)
                 | _ => Ok c
                 end);
          Ok (if Py.truthy cmd then Some cmd else None)
        else Ok None
      else Ok None
    else Ok None
  else Ok None.

(** [re.search(pat, cmd)] needs a [str]. *)
Definition search (pat : string) (cmd : json) : result (option string) :=
  match cmd with
  | JStr s => Ok (re_search pat s)
  | _ => Raise TypeError
  end.

Definition codex_edits_of (ip : nat * json) : result (list file_edit) :=
  let '(i, p) := ip in
  sc ← shell_command p;
  match sc with
  | None => Ok []
  | Some cmd =>
      found ← mapM (fun jpat : nat * string =>
                      m ← search (snd jpat) cmd;
                      Ok (match m with
                          | Some path =>
                              [FileEdit (gen_id src ("edit:" ++ cid ++ ":" ++ Py.str_of_nat i
                                                     ++ ":" ++ Py.str_of_nat (fst jpat)))
                                        (gen_id src (cid ++ ":" ++ Py.str_of_nat i))
                                        (JStr path) "shell" cmd (ts_at timestamps i)]
                          | None => []
                          end))
                   (Py.enumerate edit_patterns);
      Ok (concat found)
  end.

(** The [edits] comprehension over the response items. *)
Definition codex_edits (items : list (nat * json)) : result (list file_edit) :=
  concatM codex_edits_of items.

End Session.

(** [[(i, e["payload"]) for i, e in enumerate(events)
      if e.get("type") == "response_item" and "payload" in e]] *)
Definition response_items (events : list json) : result (list (nat * json)) :=
  filter_mapM (fun ie : nat * json =>
                 ty ← Py.dot_get (snd ie) "type" JNull;
                 if Py.eq_str ty "response_item" then Py.contains (snd ie) "payload"
                 else Ok false)
              (fun ie => p ← Py.subscript (snd ie) "payload"; Ok (fst ie, p))
              (Py.enumerate events).

Definition parse_codex_session (jsonl : session_file) : result (option session) :=
  let events := load_jsonl jsonl in
  match events with
  | [] => Ok None
  | _ =>
      let cid := gen_id "codex" (f_path jsonl) in
      timestamps ← timestamps_of events;
      meta ← first_of_type "session_meta" (fun e => Py.subscript e "payload") events;
      items ← response_items events;
      found ← mapM (codex_msg cid timestamps) items;
      let msgs := omap id found in
      match msgs with
      | [] => Ok None
      | _ =>
          calls ← mapM (codex_call cid timestamps) items;
          outputs ← mapM (codex_output cid timestamps) items;
          edits ← codex_edits cid timestamps items;
          cwd ← Py.dot_get meta "cwd" JNull;
          provider ← Py.dot_get meta "model_provider" (JStr "openai");
          version ← Py.dot_get meta "cli_version" JNull;
          let conv :=
            Conversation cid "codex" (Py.or_else cwd (JStr (f_stem jsonl)))
              (first_ts timestamps) (last_ts timestamps) provider cwd JNull JNull
              (dumps (JDict [("cli_version", version); ("session_id", JStr (f_stem jsonl))])) in
          Ok (Some (Session conv msgs (omap id calls ++ omap id outputs) edits))
      end
  end.

(** [parse_codex(codex_dir, files)]: [sessions_exists] tells whether
    [codex_dir / "sessions"] exists, [found] lists the files under it. *)
Definition parse_codex (sessions_exists : bool) (found : list session_file)
    (files : option (list session_file)) : result ParseResult :=
  if sessions_exists then
    parsed ← mapM parse_codex_session (files_or files found);
    Ok (collect (omap id parsed))
  else Ok empty_result.

End Codex.

(** ** Source normalizers: export files *)

Section Exports.
Context `{Library}.

(** Rows a normalizer has appended so far. *)
Definition add_conv (c : conversation) (r : ParseResult) : ParseResult :=
  mkParseResult (convs r ++ [c]) (msgs r) (tools_ r) (attachs r) (artifacts r) (edits r).
Definition add_msg (m : message) (r : ParseResult) : ParseResult :=
  mkParseResult (convs r) (msgs r ++ [m]) (tools_ r) (attachs r) (artifacts r) (edits r).
Definition add_tool (t : tool_call) (r : ParseResult) : ParseResult :=
  mkParseResult (convs r) (msgs r) (tools_ r ++ [t]) (attachs r) (artifacts r) (edits r).
Definition add_attach (a : attachment) (r : ParseResult) : ParseResult :=
  mkParseResult (convs r) (msgs r) (tools_ r) (attachs r ++ [a]) (artifacts r) (edits r).

(** A [for] loop that threads the result being built. *)
Fixpoint foldM {A S} (f : S -> A -> result S) (l : list A) (s : S) : result S :=
  match l with
  | [] => Ok s
  | a :: l' => s' ← f s a; foldM f l' s'
  end.

(** [d.items()] of a value: only a [dict] has it. *)
Definition items_of (v : json) : result (list (string * json)) := Py.as_dict v.

(** *** ChatGPT export *)

(** The body of the loop over [msg.get("content", {}).get("parts", [])]. *)
Definition chatgpt_part (cid mid : string) (role : json) (ts : option datetime)
    (model : json) (meta : json) (r : ParseResult) (ipart : nat * json) : result ParseResult :=
  let '(i, part) := ipart in
  match part with
  | JDict d =>
      if Py.in_strs (Py.get_none d "content_type") ["image_asset_pointer"; "file"] then
        Ok (add_attach
              (Attachment (gen_id "chatgpt" ("attach:" ++ mid ++ ":" ++ Py.str_of_nat i)) mid
                          (Py.get d "name" (JStr "")) (Py.get_none d "content_type")
                          (Py.get_none d "size") JNull (Py.get_none d "asset_pointer") ts) r)
      else Ok r
  | JStr s =>
      if negb (String.eqb (Py.strip s) "") then
        Ok (add_msg (Message mid cid role (Py.strip s) None ts model (dumps meta)) r)
      else Ok r
  | _ => Ok r
  end.

(** The body of the loop over [c.get("mapping", {}).items()]. *)
Definition chatgpt_node (cid : string) (r : ParseResult) (entry : string * json)
    : result ParseResult :=
  let '(nid, node) := entry in
  msg ← Py.dot_get node "message" JNull;
  if negb (Py.truthy msg) then Ok r
  else
    let mid := gen_id "chatgpt" (cid ++ ":" ++ nid) in
    author ← Py.dot_get msg "author" (JDict []);
    role ← Py.dot_get author "role" (JStr "unknown");
    meta ← Py.dot_get msg "metadata" (JDict []);
    stamp ← Py.dot_get msg "create_time" JNull;
    let ts := ts_from_epoch stamp in
    model ← Py.dot_get meta "model_slug" JNull;
    plugin ← Py.dot_get meta "invoked_plugin" JNull;
    r1 ← (if Py.eq_str role "tool" || Py.truthy plugin then
            plugin' ← Py.dot_get meta "invoked_plugin" (JDict []);
            name ← Py.dot_get plugin' "namespace" role;
            args ← Py.dot_get meta "args" (JDict []);
            out ← Py.dot_get msg "content" (JDict []);
            Ok (add_tool (ToolCall (gen_id "chatgpt" ("tool:" ++ mid)) mid name
                                   (dumps args) (dumps out) "complete" JNull ts) r)
          else Ok r);
    body ← Py.dot_get msg "content" JNull;
    parts ← (if Py.truthy body then
               body' ← Py.dot_get msg "content" (JDict []);
               ps ← Py.dot_get body' "parts" (JList []);
               Py.iter ps
             else Ok []);
    foldM (chatgpt_part cid mid role ts model meta) (Py.enumerate parts) r1.

(** The body of the loop over the conversations of the document. *)
Definition chatgpt_conv (r : ParseResult) (c : json) : result ParseResult :=
  oid ← Py.dot_get c "id" (JStr "");
  let cid := gen_id "chatgpt" (fmt oid) in
  gizmo ← Py.dot_get c "gizmo_id" JNull;
  title ← Py.dot_get c "title" JNull;
  created ← Py.dot_get c "create_time" JNull;
  updated ← Py.dot_get c "update_time" JNull;
  model ← Py.dot_get c "default_model_slug" JNull;
  let conv :=
    Conversation cid "chatgpt" title (ts_from_epoch created) (ts_from_epoch updated)
                 model JNull JNull gizmo
                 (if Py.truthy gizmo then dumps (JDict [("gizmo_id", gizmo)]) else "{}") in
  mapping ← Py.dot_get c "mapping" (JDict []);
  nodes ← items_of mapping;
  foldM (chatgpt_node cid) nodes (add_conv conv r).

(** [parse_chatgpt(path)] on the parsed document [data]. *)
Definition parse_chatgpt (data : json) : result ParseResult :=
  cs ← Py.iter data;
  foldM chatgpt_conv cs empty_result.

(** *** Claude export *)

(** [c["uuid"] if "uuid" in c else c["id"]] *)
Definition uuid_or_id (c : json) : result json :=
  b ← Py.contains c "uuid";
  if b : bool then Py.subscript c "uuid" else Py.subscript c "id".

(** What [parse_conv] returns for one conversation. *)
Record parsed_conv := ParsedConv {
  p_conv : conversation;
  p_msgs : list message;
  p_attachs : list attachment
}.

(** [extract_content(m.get("text") or m.get("content", ""))] *)
Definition claude_content (m : json) : result content :=
  t ← Py.dot_get m "text" JNull;
  body ← (if Py.truthy t then Ok t else Py.dot_get m "content" (JStr ""));
  extract_content body.

Definition claude_msg (cid : string) (m : json) : result (option message) :=
  ec ← claude_content m;
  if negb (String.eqb (text ec) "") then
    key ← uuid_or_id m;
    let mid := gen_id "claude" (cid ++ ":" ++ fmt key) in
    sender ← Py.dot_get m "sender" (JStr "unknown");
    stamp ← Py.dot_get m "created_at" JNull;
    ts ← ts_from_iso stamp;
    Ok (Some (Message mid cid sender (text ec) (thinking ec) ts JNull "{}"))
  else Ok None.

Definition claude_attachments (cid : string) (m : json) : result (list attachment) :=
  atts ← Py.dot_get m "attachments" (JList []);
  elems ← Py.iter atts;
  mapM (fun ia : nat * json =>
          let '(i, a) := ia in
          key ← uuid_or_id m;
          key' ← uuid_or_id m;
          let mid := gen_id "claude" (cid ++ ":" ++ fmt key') in
          name ← Py.dot_get a "file_name" JNull;
          type ← Py.dot_get a "file_type" JNull;
          size ← Py.dot_get a "file_size" JNull;
          url ← Py.dot_get a "url" JNull;
          stamp ← Py.dot_get m "created_at" JNull;
          ts ← ts_from_iso stamp;
          Ok (Attachment
                (gen_id "claude" ("attach:" ++ gen_id "claude" (cid ++ ":" ++ fmt key)
                                  ++ ":" ++ Py.str_of_nat i))
                mid name type size JNull url ts))
       (Py.enumerate elems).

Definition parse_conv (c : json) : result parsed_conv :=
  key ← uuid_or_id c;
  let cid := gen_id "claude" (fmt key) in
  msgs_data ← Py.dot_get c "chat_messages" (JList []);
  name ← Py.dot_get c "name" JNull;
  title ← (if Py.truthy name then Ok name else Py.dot_get c "title" JNull);
  created ← Py.dot_get c "created_at" JNull;
  created_ts ← ts_from_iso created;
  updated ← Py.dot_get c "updated_at" JNull;
  updated_ts ← ts_from_iso updated;
  model ← Py.dot_get c "model" JNull;
  let conv := Conversation cid "claude" title created_ts updated_ts model
                           JNull JNull JNull "{}" in
  ms ← Py.iter msgs_data;
  found ← mapM (claude_msg cid) ms;
  atts ← concatM (claude_attachments cid) ms;
  Ok (ParsedConv conv (omap id found) atts).

(** [parse_claude(path)] on the parsed document [data]. *)
Definition parse_claude (data : json) : result ParseResult :=
  cs ← Py.iter data;
  parsed ← mapM parse_conv cs;
  Ok (mkParseResult (List.map p_conv parsed) (List.concat (List.map p_msgs parsed)) []
                    (List.concat (List.map p_attachs parsed)) [] []).

End Exports.

(** ** Change detector and sync planner (the closures of [sync])

    Modification times are [st_mtime] values; the planner only compares
    them, so they are held in [Z]. *)

(** The value stored under one key of the watermark state document. *)
Inductive watermark : Type :=
| WFiles (files : gmap string Z)   (* [{"files": {path: mtime}}] *)
| WMtime (mtime : Z)               (* [{"mtime": mtime}] *)
| WWeb (browser : string) (head : option string) (last_updated : option string).

#[global] Instance watermark_eq_dec : EqDecision watermark.
Proof. solve_decision. Defined.

(** One namespace of the state document ([local], [web] or [imports]) and
    the whole document. *)
Abbreviation section_doc := (gmap string watermark).
Abbreviation state_doc := (gmap string (gmap string watermark)).

(** [sec.get(key, {}).get("files", {})] and [sec.get(key, {}).get("mtime", 0)] *)
Definition stored_files (sec : section_doc) (key : string) : gmap string Z :=
  match sec !! key with Some (WFiles m) => m | _ => ∅ end.
Definition stored_mtime (sec : section_doc) (key : string) : Z :=
  match sec !! key with Some (WMtime m) => m | _ => 0 end.

(** What the planner sees at a path: nothing, a regular file with its
    [st_mtime], or a directory with the files [rglob("*.jsonl")] finds under
    it ([str(p)] and [st_mtime] of each). *)
Inductive fs_node : Type :=
| Missing
| RegularFile (mtime : Z)
| Directory (jsonl : list (string * Z)).

Definition path_exists (n : fs_node) : bool :=
  match n with Missing => false | _ => true end.
Definition rglob (n : fs_node) : list (string * Z) :=
  match n with Directory l => l | _ => [] end.

(** [latest_mtime(path)]: [max(..., default=0)] *)
Definition latest_mtime (n : fs_node) : Z :=
  match List.map snd (rglob n) with
  | [] => 0
  | t :: ts => fold_left Z.max ts t
  end.

(** [{str(p): p.stat().st_mtime for p in files}] *)
Definition mtime_map (files : list (string * Z)) : gmap string Z :=
  fold_left (fun m pt => <[fst pt := snd pt]> m) files ∅.

(** [m.get(p, 0)] *)
Definition get0 (m : gmap string Z) (p : string) : Z :=
  match m !! p with Some t => t | None => 0 end.

(** The [func] of a job, as the call it makes when it runs. *)
Inductive job_func : Type :=
| ParseLocal (parser : string) (files : option (list string))
    (* [parser(p, fs)] with the changed files, or [parser(p)] *)
| ParseSource (path : string)
    (* [parse_source(p)] *)
| FetchWeb (name : string) (browser : string) (since : option string).

(** A planned job: the [dict] the planners return. *)
Record job := Job {
  j_name : string;
  j_label : string;
  j_source : option string;
  j_func : job_func;
  j_state : option (string * string * watermark)
}.

Definition is_session_log (name : string) : bool :=
  String.eqb name "codex" || String.eqb name "claude-code".

(** [[p for p in files if mt.get(str(p), 0) > prev.get(str(p), 0)]] *)
Definition changed_files (prev : gmap string Z) (files : list (string * Z)) : list string :=
  let mt := mtime_map files in
  List.filter (fun p => Z.ltb (get0 prev p) (get0 mt p)) (List.map fst files).

Definition plan_local (local : section_doc) (name : string) (path : fs_node) : option job :=
  if negb (path_exists path) then None
  else if is_session_log name then
    let files := rglob path in
    let prev := stored_files local name in
    let mt := mtime_map files in
    match changed_files prev files with
    | [] => None
    | chg =>
        Some (Job name (Py.title (Py.replace "-" " " name)) (Some name)
                  (ParseLocal name (Some chg)) (Some ("local", name, WFiles mt)))
    end
  else
    let mtime := latest_mtime path in
    if Z.leb mtime (stored_mtime local name) then None
    else Some (Job name (Py.title (Py.replace "-" " " name)) (Some name)
                   (ParseLocal name None) (Some ("local", name, WMtime mtime))).

(** [plan_import(path)]; [p] is [str(path)]. *)
Definition import_mtime (path : fs_node) : Z :=
  match path with
  | RegularFile t => t
  | _ => latest_mtime path
  end.

Definition plan_import (imports : section_doc) (p : string) (path : fs_node) : option job :=
  if negb (path_exists path) then None
  else
    let mtime := import_mtime path in
    if Z.leb mtime (stored_mtime imports p) then None
    else Some (Job ("import:" ++ p) ("import:" ++ p) None (ParseSource p)
                   (Some ("imports", p, WMtime mtime))).

(** ** Executor: the job loop of [do_sync] *)

(** [state.setdefault(section, {}).get(key)] *)
Definition state_get (state : state_doc) (section key : string) : option watermark :=
  match state !! section with Some sec => sec !! key | None => None end.

Section Executor.
Context `{Library}.

(** What [typer.echo] prints in the loop. *)
Inductive echo : Type :=
| Failed (name : string) (e : exn)           (* [f"{j['name']} failed: {e}"] *)
| Updated (label : string) (c : merge_counts).

(** The variables the loop reads and writes. *)
Record sync_run := SyncRun {
  db : store;
  state : state_doc;
  dirty : bool;
  total : list nat;
  newc : nat;
  updc : nat;
  changed : bool;
  out : list echo
}.

(** [set_state(section, key, val)] *)
Definition set_state (section key : string) (val : watermark) (r : sync_run) : sync_run :=
  let sec := match state r !! section with Some s => s | None => ∅ end in
  if decide (sec !! key = Some val)
  then SyncRun (db r) (<[section := sec]> (state r)) (dirty r) (total r) (newc r) (updc r)
               (changed r) (out r)
  else SyncRun (db r) (<[section := <[key := val]> sec]> (state r)) true (total r) (newc r)
               (updc r) (changed r) (out r).

Definition counts5 (c : merge_counts) : list nat :=
  [n_convs c; n_msgs c; n_tools c; n_attachs c; n_edits c].

(** The body of [for fut in as_completed(futs)] for a job whose future
    holds [outcome]. *)
Definition complete (r : sync_run) (jo : job * result ParseResult) : sync_run :=
  let '(j, outcome) := jo in
  match outcome with
  | Raise e =>
      SyncRun (db r) (state r) (dirty r) (total r) (newc r) (updc r) (changed r)
              (out r ++ [Failed (j_name j) e])
  | Ok pr =>
      let '(db', c) := upsert (db r) pr in
      let r1 := SyncRun db' (state r) (dirty r)
                        (List.map (fun tv => (fst tv + snd tv)%nat) (combine (total r) (counts5 c)))
                        (newc r + n_new_convs c) (updc r + n_updated c)
                        (changed r || existsb (fun n => negb (Nat.eqb n 0)) (counts5 c))
                        (out r) in
      let r2 := match j_state j with
                | Some (section, key, val) => set_state section key val r1
                | None => r1
                end in
      match j_source j with
      | Some src =>
          if String.eqb src "" then r2
          else SyncRun (db r2) (state r2) (dirty r2) (total r2) (newc r2) (updc r2)
                       (changed r2) (out r2 ++ [Updated (j_label j) c])
      | None => r2
      end
  end.

(** The loop, over the futures in their order of completion. *)
Definition run_jobs (completed : list (job * result ParseResult)) (r : sync_run) : sync_run :=
  fold_left complete completed r.


End Executor.

(** ** Vocabulary of the properties *)

Definition is_hex_char (c : ascii) : bool :=
  existsb (Ascii.eqb c) (list_ascii_of_string "0123456789abcdef").

Fixpoint all_chars (p : ascii -> bool) (s : string) : bool :=
  match s with
  | EmptyString => true
  | String c r => p c && all_chars p r
  end.

(** The row a batch leaves under key [k] of a table: the last one carrying
    it. *)
Definition latest {R} (key : R -> string) (k : string) (rows : list R) : option R :=
  fold_left (fun acc r => if decide (key r = k) then Some r else acc) rows None.




(** The session of the tool-to-edit example: a user turn and an assistant
    turn that calls [Write] on ["/a.py"]. *)
Definition write_event : json :=
  JDict [("type", JStr "assistant");
         ("message",
          JDict [("content",
                  JList [JDict [("type", JStr "tool_use"); ("name", JStr "Write");
                                ("input", JDict [("file_path", JStr "/a.py");
                                                 ("content", JStr "print(1)")])];
                         JDict [("type", JStr "text"); ("text", JStr "Created file.")]])])].

Definition write_session : session_file :=
  SessionFile "/home/u/.claude/projects/-Users-u-app/0a1b2c3d4e.jsonl" "-Users-u-app"
              "0a1b2c3d4e"
              [Some (JDict [("type", JStr "user"); ("message", JDict [("content", JStr "Create a.py")])]);
               Some write_event].

(** A stand-in for the library calls, to evaluate the normalizers on
    examples: timestamps are kept as their ISO text, [json.dumps] and [str]
    print a placeholder, [json.loads] fails, and the only search that
    succeeds is the redirect pattern on a command that holds [">"], with the
    text after the last [">"] as its group. *)
Fixpoint after_last_gt (s : string) (acc : option string) : option string :=
  match s with
  | EmptyString => acc
  | String c r => after_last_gt r (if Ascii.eqb c ">" then Some r else acc)
  end.

Definition example_library : Library := {|
  datetime := string;
  fromisoformat := fun s => Some s;
  fromtimestamp := fun _ => None;
  dumps := fun _ => "<json>";
  loads := fun _ => None;
  str_of := fun _ => "<str>";
  re_search := fun pat s =>
    if String.eqb pat "(?:cat|echo).*[>].*?([^\s>]+)"
    then after_last_gt s None
    else None
|}.

(** Export documents with one conversation whose every message has an empty
    extracted text. *)
Definition claude_export_blank : json :=
  JList [JDict [("uuid", JStr "conv-1"); ("name", JStr "Blank");
                ("chat_messages",
                 JList [JDict [("uuid", JStr "m1"); ("sender", JStr "human"); ("text", JStr "")];
                        JDict [("uuid", JStr "m2"); ("sender", JStr "assistant");
                               ("content", JList [JDict [("type", JStr "text");
                                                         ("text", JStr "  ")]])]])]].

Definition chatgpt_export_blank : json :=
  JList [JDict [("id", JStr "conv-1"); ("title", JStr "Blank");
                ("mapping",
                 JDict [("n1", JDict [("message", JNull)]);
                        ("n2", JDict [("message",
                                       JDict [("author", JDict [("role", JStr "user")]);
                                              ("content", JDict [("parts", JList [JStr "  "])])])])])]].

Section ExecutorVocabulary.
Context `{Library}.





End ExecutorVocabulary.

(** *** Inputs of the worked examples *)

(** The continuation test: one conversation, message [i] keyed by
    [f"{cid}:{i}"]. *)
Definition test_cid : string := gen_id "claude-code" "/path/to/session.jsonl".

Definition test_conv : @conversation example_library :=
  Conversation test_cid "claude-code" (JStr "Session") None None (JStr "claude")
               (JStr "/test") (JStr "main") JNull "{}".

Definition test_msg (i : nat) : @message example_library :=
  Message (gen_id "claude-code" (test_cid ++ ":" ++ Py.str_of_nat i)) test_cid
          (JStr (if Nat.even i then "user" else "assistant"))
          ("Message " ++ Py.str_of_nat i) None None JNull "{}".

Definition test_batch (n : nat) : @ParseResult example_library :=
  mkParseResult [test_conv] (List.map test_msg (seq 0 n)) [] [] [] [].

(** A Claude Code session with a system event and an assistant turn that
    only thinks, and a Codex session with a developer message only. *)
Definition silent_claude_code_session : session_file :=
  SessionFile "/home/u/.claude/projects/-Users-u-app/silent.jsonl" "-Users-u-app" "silent"
    [Some (JDict [("type", JStr "system"); ("timestamp", JStr "2024-01-01T00:00:00Z")]);
     None;
     Some (JDict [("type", JStr "assistant");
                  ("message", JDict [("content",
                     JList [JDict [("type", JStr "thinking"); ("thinking", JStr "hm")]])])])].



(** A sessions directory with one file above its watermark and one at it. *)
Definition watched_dir : fs_node :=
  Directory [("/s/a.jsonl", 10); ("/s/b.jsonl", 5)].

Definition watched_state : section_doc :=
  {[ "claude-code" := WFiles {[ "/s/a.jsonl" := 10; "/s/b.jsonl" := 3 ]};
     "archive" := WMtime 7 ]}.

(** Two jobs of one cycle: the first raises, the second returns nothing new. *)
Definition failing_job : job :=
  Job "chatgpt" "Chatgpt" (Some "chatgpt") (FetchWeb "chatgpt" "safari" None)
      (Some ("web", "chatgpt", WWeb "safari" (Some "id:1") None)).

Definition quiet_job : job :=
  Job "claude-code" "Claude Code" (Some "claude-code")
      (ParseLocal "claude-code" (Some ["/s/b.jsonl"]))
      (Some ("local", "claude-code", WFiles {[ "/s/a.jsonl" := 10; "/s/b.jsonl" := 5 ]})).

Definition two_jobs : list (job * result (@ParseResult example_library)) :=
  [(failing_job, Raise (JobError "No ChatGPT cookies found in safari"));
   (quiet_job, Ok empty_result)].

Definition fresh_run : @sync_run example_library :=
  SyncRun empty_store ∅ false [0; 0; 0; 0; 0]%nat 0 0 false [].

(** ** The namespaces of the state document

    [local, web, imports = state.setdefault("local", {}), ...]: the planners
    read the dict stored under the namespace, the one [set_state] writes
    into. *)
Definition namespace (st : state_doc) (section : string) : section_doc :=
  match st !! section with Some sec => sec | None => ∅ end.

(** ** Web planner (the closure [plan_web] of [sync])

    [probe(b)] asks the service, through the cookies of browser [b], for the
    head of the conversation list: it returns a [str], or [None] (no
    conversation), or raises.  The planner calls it once for each browser it
    tries. *)

(** [pref.get("browser")], [pref.get("head")] and [pref.get("last_updated")]
    of [pref = web.get(name, {})]. *)
Definition pref_browser (pref : option watermark) : option string :=
  match pref with Some (WWeb b _ _) => Some b | _ => None end.
Definition pref_head (pref : option watermark) : option string :=
  match pref with Some (WWeb _ h _) => h | _ => None end.
Definition pref_last_updated (pref : option watermark) : option string :=
  match pref with Some (WWeb _ _ lu) => lu | _ => None end.

(** [x] if it is truthy: a [str] that is not empty. *)
Definition nonempty (x : option string) : option string :=
  match x with
  | Some s => if String.eqb s "" then None else Some s
  | None => None
  end.

(** [[pref.get("browser")] + [b for b in ("safari", "chrome") if b != pref.get("browser")]]
    without its falsy entries. *)
Definition browser_order (pref : option watermark) : list string :=
  let first := pref_browser pref in
  match nonempty first with Some b => [b] | None => [] end
  ++ List.filter (fun b => negb (bool_decide (Some b = first))) ["safari"; "chrome"].

(** [s.split(":", 1)[1]] when [":" in s]. *)
Fixpoint after_colon (s : string) : option string :=
  match s with
  | EmptyString => None
  | String c r => if Ascii.eqb c ":" then Some r else after_colon r
  end.

(** [lu = head.split(":", 1)[1] if (name == "claude" and head and ":" in head) else None] *)
Definition last_updated_of (name : string) (head : option string) : option string :=
  if String.eqb name "claude" then
    match nonempty head with
    | Some h => after_colon h
    | None => None
    end
  else None.

(** [{"browser": b, "head": head, **({"last_updated": lu} if lu else {})}] *)
Definition web_state (name b : string) (head : option string) : watermark :=
  WWeb b head (nonempty (last_updated_of name head)).

Section WebPlanner.
Context `{Library}.

(** What one turn of the loop over the browsers comes to. *)
Inductive attempt : Type :=
| Unchanged (st : watermark)     (* [set_state("web", name, st); return None] *)
| Planned (j : job)              (* [return dict(...)] *)
| Errored (e : exn).             (* [errors.append(f"{b}: {e}")] *)

(** The body of the [try]. *)
Definition try_browser (name : string) (pref : option watermark)
    (probe : string -> result (option string)) (b : string) : attempt :=
  match probe b with
  | Raise e => Errored e
  | Ok head =>
      let st := web_state name b head in
      if bool_decide (is_Some head) && bool_decide (head = pref_head pref) then Unchanged st
      else
        let last := pref_last_updated pref in
        match nonempty last with
        | Some l =>
            if String.eqb name "claude" then
              match ts_from_iso (JStr l) with
              | Ok _ =>
                  Planned (Job name (Py.title name) (Some name) (FetchWeb name b (Some l))
                               (Some ("web", name, st)))
              | Raise e => Errored e
              end
            else
              Planned (Job name (Py.title name) (Some name) (FetchWeb name b None)
                           (Some ("web", name, st)))
        | None =>
            Planned (Job name (Py.title name) (Some name) (FetchWeb name b None)
                         (Some ("web", name, st)))
        end
  end.

(** What [plan_web] returns and leaves behind: the job, the variables of the
    cycle, and the errors it prints as [f"{name} sync failed: ..."] when it
    prints them. *)
Record web_plan := WebPlan {
  w_job : option job;
  w_run : sync_run;
  w_failed : option (list (string * exn))
}.

Fixpoint plan_web_loop (name : string) (pref : option watermark)
    (probe : string -> result (option string)) (order : list string)
    (errors : list (string * exn)) (r : sync_run) : web_plan :=
  match order with
  | [] => WebPlan None r (match errors with [] => None | _ => Some errors end)
  | b :: rest =>
      match try_browser name pref probe b with
      | Unchanged st => WebPlan None (set_state "web" name st r) None
      | Planned j => WebPlan (Some j) r None
      | Errored e => plan_web_loop name pref probe rest (errors ++ [(b, e)]) r
      end
  end.

Definition plan_web (name : string) (probe : string -> result (option string))
    (r : sync_run) : web_plan :=
  let pref := namespace (state r) "web" !! name in
  plan_web_loop name pref probe (browser_order pref) [] r.

End WebPlanner.

(** ** HTTP helper: the retry loop of [fetch_json]

    [attempt i] is what the [i]-th pass through the body of the [try]
    (open the request, read the response, [json.loads] it) comes to: the
    parsed document, or the exception raised.  The loop records the
    requests made and the seconds slept. *)
Record fetched := Fetched {
  f_result : result (option json);   (* [None]: the loop ended without [return] *)
  f_requests : nat;
  f_sleeps : list Z
}.

(** [for i in range(retries+1)], from pass [i] on, [todo] passes left. *)
Fixpoint fetch_loop (attempt : nat -> result json) (retries : Z) (todo : nat) (i : nat)
    (sleeps : list Z) : fetched :=
  match todo with
  | O => Fetched (Ok None) i sleeps
  | S todo' =>
      match attempt i with
      | Ok v => Fetched (Ok (Some v)) (S i) sleeps
      | Raise e =>
          if Z.eqb (Z.of_nat i) retries then Fetched (Raise e) (S i) sleeps
          else fetch_loop attempt retries todo' (S i) (sleeps ++ [1 + Z.of_nat i])
      end
  end.

Definition fetch_json (attempt : nat -> result json) (retries : Z) : fetched :=
  fetch_loop attempt retries (Z.to_nat (retries + 1)) 0 [].

(** ** Ad-hoc import: [detect_source] and [parse_source] *)

(** What the import code can raise: the exceptions of the normalizers and
    of reading the document, and those of the dispatch itself. *)
Inductive import_exn : Type :=
| Inner (e : exn)
| IndexError                       (* [data[0]] on an empty list or [str] *)
| KeyError0                        (* [data[0]] on a [dict]: [KeyError(0)] *)
| UnknownSource (src : string).    (* [ValueError(f"Unknown source: {src}")] *)

Inductive outcome (A : Type) : Type :=
| Returns (a : A)
| Fails (e : import_exn).
Arguments Returns {A} a.
Arguments Fails {A} e.

#[global] Instance outcome_ret : MRet outcome := fun A a => Returns a.
#[global] Instance outcome_bind : MBind outcome := fun A B k r =>
  match r with
  | Returns a => k a
  | Fails e => Fails e
  end.

Definition lift {A} (r : result A) : outcome A :=
  match r with Ok a => Returns a | Raise e => Fails (Inner e) end.

(** A path as the import code sees it. *)
Record source_path := SourcePath {
  sp_is_dir : bool;                        (* [path.is_dir()] *)
  sp_sessions_exists : bool;               (* [(path / "sessions").exists()] *)
  sp_suffix : string;                      (* [path.suffix] *)
  sp_name : string;                        (* [path.name] *)
  sp_document : result json;               (* [json.loads(path.read_text())] *)
  sp_zip_document : result json;
      (* [json.load(zipfile.ZipFile(path).open('conversations.json'))] *)
  sp_jsonl : list session_file;            (* [path.rglob("*.jsonl")] *)
  sp_sessions_jsonl : list session_file    (* [(path / "sessions").rglob("*.jsonl")] *)
}.

(** [data[0]] *)
Definition first_item (data : json) : outcome json :=
  match data with
  | JList (x :: _) => Returns x
  | JList [] => Fails IndexError
  | JStr s => match Py.chars s with c :: _ => Returns (JStr c) | [] => Fails IndexError end
  | JDict _ => Fails KeyError0
  | _ => Fails (Inner TypeError)
  end.

(** [detect_source(path)].  ["chatgpt" in path.name.lower()]: the letters
    of ["chatgpt"] are lower-case forms of ASCII letters only, and
    lower-casing removes no character, so that the test on the ASCII
    lower-casing of the name gives the same answer. *)
Definition detect_source (p : source_path) : outcome string :=
  if sp_is_dir p then Returns (if sp_sessions_exists p then "codex" else "claude-code")
  else if String.eqb (sp_suffix p) ".zip" || Py.is_infix "chatgpt" (Py.lower (sp_name p))
  then Returns "chatgpt"
  else
    data ← lift (sp_document p);
    x ← first_item data;
    has_mapping ← lift (Py.contains x "mapping");
    if has_mapping : bool then Returns "chatgpt"
    else
      y ← first_item data;
      has_messages ← lift (Py.contains y "chat_messages");
      Returns (if has_messages : bool then "claude" else "chatgpt").

Section ImportModel.
Context `{Library}.

(** The keys of [parsers], and [parsers[src](path)]. *)
Definition known_sources : list string := ["chatgpt"; "claude"; "claude-code"; "codex"].

Definition run_parser (src : string) (p : source_path) : result ParseResult :=
  if String.eqb src "chatgpt" then
    data ← (if String.eqb (sp_suffix p) ".zip" then sp_zip_document p else sp_document p);
    parse_chatgpt data
  else if String.eqb src "claude" then
    data ← sp_document p; parse_claude data
  else if String.eqb src "claude-code" then
    parse_claude_code (sp_jsonl p) None
  else
    parse_codex (sp_sessions_exists p) (sp_sessions_jsonl p) None.

(** [parse_source(path, source)] *)
Definition parse_source (p : source_path) (source : option string) : outcome ParseResult :=
  src ← (match nonempty source with
         | Some s => Returns s
         | None => detect_source p
         end);
  if negb (bool_decide (src ∈ known_sources)) then Fails (UnknownSource src)
  else lift (run_parser src p).

End ImportModel.

(** ** Web fetcher of ChatGPT: [parse_item], the closure of [fetch_chatgpt]
    that normalizes one conversation of the listing

    [fetch url] is what [fetch_json(url, cookies, headers, timeout=60)]
    comes to for the cookies and headers of the fetcher. *)
Section WebItem.
Context `{Library}.

(** The three lists [msgs, tools, attachs] the closure appends to. *)
Record item_rows := ItemRows {
  i_msgs : list message;
  i_tools : list tool_call;
  i_attachs : list attachment
}.

(** What [parse_item] returns. *)
Record parsed_item := ParsedItem {
  pi_conv : conversation;
  pi_rows : item_rows
}.

(** [f"{base}/backend-api/conversation/{item['id']}"] *)
Definition conversation_url (base : string) (oid : json) : string :=
  base ++ "/backend-api/conversation/" ++ fmt oid.

(** The body of the loop over the parts of a message. *)
Definition item_part (cid mid : string) (role : json) (ts : option datetime)
    (model : json) (meta : json) (a : item_rows) (ipart : nat * json) : result item_rows :=
  let '(i, part) := ipart in
  match part with
  | JDict d =>
      if Py.in_strs (Py.get_none d "content_type") ["image_asset_pointer"; "file"] then
        Ok (ItemRows (i_msgs a) (i_tools a)
              (i_attachs a ++
               [Attachment (gen_id "chatgpt" ("attach:" ++ mid ++ ":" ++ Py.str_of_nat i)) mid
                           (Py.get d "name" (JStr "")) (Py.get_none d "content_type")
                           (Py.get_none d "size") JNull (Py.get_none d "asset_pointer") ts]))
      else Ok a
  | JStr s =>
      if negb (String.eqb (Py.strip s) "") then
        Ok (ItemRows (i_msgs a ++ [Message mid cid role (Py.strip s) None ts model (dumps meta)])
                     (i_tools a) (i_attachs a))
      else Ok a
  | _ => Ok a
  end.

(** The body of the loop over [conv.get("mapping", {}).items()]. *)
Definition item_node (cid : string) (a : item_rows) (entry : string * json)
    : result item_rows :=
  let '(nid, node) := entry in
  msg ← Py.dot_get node "message" JNull;
  if negb (Py.truthy msg) then Ok a
  else
    let mid := gen_id "chatgpt" (cid ++ ":" ++ nid) in
    author ← Py.dot_get msg "author" (JDict []);
    role ← Py.dot_get author "role" (JStr "unknown");
    meta ← Py.dot_get msg "metadata" (JDict []);
    stamp ← Py.dot_get msg "create_time" JNull;
    let ts := ts_from_epoch stamp in
    model ← Py.dot_get meta "model_slug" JNull;
    plugin ← Py.dot_get meta "invoked_plugin" JNull;
    a1 ← (if Py.eq_str role "tool" || Py.truthy plugin then
            plugin' ← Py.dot_get meta "invoked_plugin" (JDict []);
            name ← Py.dot_get plugin' "namespace" role;
            args ← Py.dot_get meta "args" (JDict []);
            out ← Py.dot_get msg "content" (JDict []);
            Ok (ItemRows (i_msgs a)
                         (i_tools a ++ [ToolCall (gen_id "chatgpt" ("tool:" ++ mid)) mid name
                                                 (dumps args) (dumps out) "complete" JNull ts])
                         (i_attachs a))
          else Ok a);
    body ← Py.dot_get msg "content" JNull;
    parts ← (if Py.truthy body then
               body' ← Py.dot_get msg "content" (JDict []);
               ps ← Py.dot_get body' "parts" (JList []);
               Py.iter ps
             else Ok []);
    foldM (item_part cid mid role ts model meta) (Py.enumerate parts) a1.

(** [parse_item(item)] *)
Definition parse_item (base : string) (fetch : string -> result json) (item : json)
    : result parsed_item :=
  oid ← Py.subscript item "id";
  let cid := gen_id "chatgpt" (fmt oid) in
  gizmo ← Py.dot_get item "gizmo_id" JNull;
  oid' ← Py.subscript item "id";
  conv ← fetch (conversation_url base oid');
  mapping ← Py.dot_get conv "mapping" (JDict []);
  nodes ← items_of mapping;
  rows ← foldM (item_node cid) nodes (ItemRows [] [] []);
  title ← Py.dot_get item "title" JNull;
  created ← Py.dot_get item "create_time" JNull;
  updated ← Py.dot_get item "update_time" JNull;
  model ← Py.dot_get item "model" JNull;
  Ok (ParsedItem
        (Conversation cid "chatgpt" title (ts_from_epoch created) (ts_from_epoch updated)
                      model JNull JNull gizmo
                      (if Py.truthy gizmo then dumps (JDict [("gizmo_id", gizmo)]) else "{}"))
        rows).

End WebItem.

(** ** Vocabulary of the further properties *)

Section MergeVocabulary.
Context `{Library}.

(** Two batches that share no primary key in any of the six tables. *)
Definition no_common_key (ks1 ks2 : list string) : Prop :=
  forall k, k ∈ ks1 -> k ∉ ks2.

Definition disjoint_ids (r1 r2 : ParseResult) : Prop :=
  no_common_key (List.map c_id (convs r1)) (List.map c_id (convs r2))
  /\ no_common_key (List.map m_id (msgs r1)) (List.map m_id (msgs r2))
  /\ no_common_key (List.map t_id (tools_ r1)) (List.map t_id (tools_ r2))
  /\ no_common_key (List.map a_id (attachs r1)) (List.map a_id (attachs r2))
  /\ no_common_key (List.map r_id (artifacts r1)) (List.map r_id (artifacts r2))
  /\ no_common_key (List.map e_id (edits r1)) (List.map e_id (edits r2)).

(** Every message of a batch names a conversation of the same batch. *)
Definition messages_owned_in (r : ParseResult) : Prop :=
  forall m, m ∈ msgs r -> m_conversation_id m ∈ List.map c_id (convs r).

(** Every stored message names a stored conversation: what the joins of
    [search], [counts_by_source] and [export] rely on to see a message. *)
Definition messages_owned (s : store) : Prop :=
  forall k m, messages s !! k = Some m -> is_Some (conversations s !! m_conversation_id m).

End MergeVocabulary.

Section ParserVocabulary.
Context `{Library}.

(** Two batches one after the other, table by table. *)
Definition append_results (r1 r2 : ParseResult) : ParseResult :=
  mkParseResult (convs r1 ++ convs r2) (msgs r1 ++ msgs r2) (tools_ r1 ++ tools_ r2)
                (attachs r1 ++ attachs r2) (artifacts r1 ++ artifacts r2)
                (edits r1 ++ edits r2).

(** The rows of a session hang together: every message, and nothing else,
    is filed under the session's conversation. *)
Definition session_owned (s : session) : Prop :=
  Forall (fun m => m_conversation_id m = c_id (s_conv s)) (s_msgs s).

(** Two message rows that differ at most in a creation time the first one
    lacks. *)
Definition same_but_time (m m' : message) : Prop :=
  m_id m' = m_id m /\ m_conversation_id m' = m_conversation_id m
  /\ m_role m' = m_role m /\ m_content m' = m_content m
  /\ m_thinking m' = m_thinking m /\ m_model m' = m_model m
  /\ m_metadata m' = m_metadata m
  /\ (m_created_at m = None \/ m_created_at m' = m_created_at m).

End ParserVocabulary.

(** *** Further inputs of worked examples *)

(** A Codex session with one user turn. *)
Definition chat_codex_session : session_file :=
  SessionFile "/home/u/.codex/sessions/2024/01/chat.jsonl" "01" "chat"
    [Some (JDict [("type", JStr "session_meta"); ("payload", JDict [("cwd", JStr "/test")])]);
     Some (JDict [("type", JStr "response_item");
                  ("payload", JDict [("type", JStr "message"); ("role", JStr "user");
                                     ("content", JList [JDict [("type", JStr "input_text");
                                                               ("text", JStr "Hello")]])])])].

(** The sessions of [write_session] and [chat_codex_session] after a
    broken line and one more user turn were appended to their files. *)
Definition thanks_lines : list (option json) :=
  [None;
   Some (JDict [("type", JStr "user"); ("message", JDict [("content", JStr "Thanks")])])].

Definition longer_write_session : session_file :=
  SessionFile (f_path write_session) (f_parent_name write_session) (f_stem write_session)
              (f_lines write_session ++ thanks_lines).

Definition again_lines : list (option json) :=
  [None;
   Some (JDict [("type", JStr "response_item"); ("timestamp", JStr "2024-01-01T00:00:00");
                ("payload", JDict [("type", JStr "message"); ("role", JStr "user");
                                   ("content", JList [JDict [("type", JStr "input_text");
                                                             ("text", JStr "Again")]])])])].

Definition longer_codex_session : session_file :=
  SessionFile (f_path chat_codex_session) (f_parent_name chat_codex_session)
              (f_stem chat_codex_session) (f_lines chat_codex_session ++ again_lines).

(** Export documents with one conversation of one message. *)
Definition claude_export_hello : json :=
  JList [JDict [("uuid", JStr "conv-1"); ("name", JStr "Hi");
                ("chat_messages",
                 JList [JDict [("uuid", JStr "m1"); ("sender", JStr "human");
                               ("text", JStr "Hello")]])]].

Definition chatgpt_export_hello : json :=
  JList [JDict [("id", JStr "conv-1"); ("title", JStr "Hi");
                ("mapping",
                 JDict [("n1", JDict [("message",
                                       JDict [("author", JDict [("role", JStr "user")]);
                                              ("content", JDict [("parts", JList [JStr "Hello"])])])])])]].



(** Two batches with no key in common. *)
Definition batch_a : @ParseResult example_library :=
  mkParseResult [Conversation "a" "claude" (JStr "A") None None JNull JNull JNull JNull "{}"]
                [Message "a1" "a" (JStr "human") "Hello" None None JNull "{}"] [] [] [] [].

Definition batch_b : @ParseResult example_library :=
  mkParseResult [Conversation "b" "chatgpt" (JStr "B") None None JNull JNull JNull JNull "{}"]
                [Message "b1" "b" (JStr "user") "Hi" None None JNull "{}"] [] [] [] [].

(** The variables of a cycle that starts from the watched state. *)
Definition watched_run : @sync_run example_library :=
  SyncRun empty_store {[ "local" := watched_state ]} false [0; 0; 0; 0; 0]%nat 0 0 false [].

(** Probes: safari has no cookies and chrome answers; no browser answers. *)
Definition chrome_probe (b : string) : result (option string) :=
  if String.eqb b "chrome" then Ok (Some "id-1:2024-01-01") else Raise (JobError "no cookies").

Definition failing_probe (b : string) : result (option string) :=
  Raise (JobError ("no cookies in " ++ b)).

(** A service that answers on the third request. *)
Definition third_time (n : nat) : result json :=
  if (n <? 2)%nat then Raise (JobError "timed out") else Ok (JDict [("items", JList [])]).

Definition never (n : nat) : result json := Raise (JobError "timed out").

(** A Claude export saved as [export.json]. *)
Definition claude_export_path : source_path :=
  SourcePath false false ".json" "export.json" (Ok claude_export_hello)
             (Raise ValueError) [] [].

Section WebVocabulary.
Context `{Library}.

(** The three lists of the web fetcher hold the rows of a batch. *)
Definition same_rows (a : item_rows) (r : ParseResult) : Prop :=
  i_msgs a = msgs r /\ i_tools a = tools_ r /\ i_attachs a = attachs r.

End WebVocabulary.

(** The listing entry and the conversation document of the web service for
    the conversation of [chatgpt_export_hello]. *)
Definition hello_item : json :=
  JDict [("id", JStr "conv-1"); ("title", JStr "Hi")].

Definition hello_service (url : string) : result json :=
  if String.eqb url "https://chatgpt.com/backend-api/conversation/conv-1"
  then Ok (JDict [("mapping",
                   JDict [("n1", JDict [("message",
                                         JDict [("author", JDict [("role", JStr "user")]);
                                                ("content",
                                                 JDict [("parts", JList [JStr "Hello"])])])])])])
  else Raise (JobError "HTTP Error 404").

Definition hello_export_conv : json :=
  JDict [("id", JStr "conv-1"); ("title", JStr "Hi");
         ("mapping",
          JDict [("n1", JDict [("message",
                                JDict [("author", JDict [("role", JStr "user")]);
                                       ("content", JDict [("parts", JList [JStr "Hello"])])])])])].

(* ===================================================================== *)
(** * Part II. Properties                                                 *)
(* ===================================================================== *)

Local Open Scope list_scope.

(** ** SHA-256 test vectors (FIPS 180-4 and one two-block message) *)

Example sha256_empty :
  Sha256.hexdigest "" = "e3b0c44298fc1c149afbf4c8996fb92427ae41e4649b934ca495991b7852b855".
Proof. vm_compute. reflexivity. Qed.

Example sha256_abc :
  Sha256.hexdigest "abc" = "ba7816bf8f01cfea414140de5dae2223b00361a396177a9cb410ff61f20015ad".
Proof. vm_compute. reflexivity. Qed.

Example sha256_two_blocks :
  Sha256.hexdigest "abcdbcdecdefdefgefghfghighijhijkijkljklmklmnlmnomnopnopq"
  = "248d6a61d20638b8e5c026930c3e6039a33ce45964ff2167f6ecedd419db06c1".
Proof. vm_compute. reflexivity. Qed.

(** ** Strings *)

Lemma length_string_of_list_ascii (l : list ascii) :
  String.length (string_of_list_ascii l) = length l.
Proof. induction l as [|c l IH]; simpl; [reflexivity | now rewrite IH]. Qed.

Lemma str_length_app (s t : string) :
  String.length (s +:+ t) = (String.length s + String.length t)%nat.
Proof. induction s as [|c s IH]; simpl; [reflexivity | now rewrite IH]. Qed.

Lemma str_take_length (n : nat) (s : string) :
  String.length (str_take n s) = min n (String.length s).
Proof.
  revert s; induction n as [|n IH]; intros [|c s]; simpl; try reflexivity.
  now rewrite IH.
Qed.

Lemma str_take_prefix (n : nat) (s : string) :
  String.prefix (str_take n s) s = true.
Proof.
  revert s; induction n as [|n IH]; intros [|c s]; simpl; try reflexivity.
  destruct (ascii_dec c c) as [_|Hne]; [apply IH | now elim Hne].
Qed.

Lemma all_chars_app p (s t : string) :
  all_chars p (s +:+ t) = all_chars p s && all_chars p t.
Proof. induction s as [|c s IH]; simpl; [reflexivity | now rewrite IH, andb_assoc]. Qed.

Lemma all_chars_take p n (s : string) :
  all_chars p s = true -> all_chars p (str_take n s) = true.
Proof.
  revert s; induction n as [|n IH]; intros [|c s]; simpl; try reflexivity.
  intros [Hc Hs]%andb_true_iff. rewrite Hc. now apply IH.
Qed.

Module Sha256Facts.
Import Sha256.

Lemma hex_word_length (x : Z) : String.length (hex_word x) = 8%nat.
Proof. unfold hex_word. rewrite length_string_of_list_ascii, length_map. reflexivity. Qed.

Lemma hex_digit_is_hex (y : Z) : is_hex_char (hex_digit (Z.land y 15)) = true.
Proof.
  assert (Hr : 0 <= Z.land y 15 < 16).
  { change 15 with (Z.ones 4). rewrite Z.land_ones by lia. apply Z.mod_pos_bound. lia. }
  unfold hex_digit.
  assert (Hn : (Z.to_nat (Z.land y 15) < 16)%nat) by lia.
  revert Hn. generalize (Z.to_nat (Z.land y 15)) as n. intros n Hn.
  do 16 (destruct n as [|n]; [reflexivity|]). lia.
Qed.

Lemma hex_word_is_hex (x : Z) : all_chars is_hex_char (hex_word x) = true.
Proof.
  unfold hex_word. generalize (rev (seq 0 8)) as l.
  induction l as [|i l IH]; simpl; [reflexivity|].
  now rewrite hex_digit_is_hex, IH.
Qed.

Lemma hexdigest_length (s : string) : String.length (hexdigest s) = 64%nat.
Proof. unfold hexdigest. now rewrite !str_length_app, !hex_word_length. Qed.

Lemma hexdigest_is_hex (s : string) : all_chars is_hex_char (hexdigest s) = true.
Proof. unfold hexdigest. now rewrite !all_chars_app, !hex_word_is_hex. Qed.
End Sha256Facts.

(** ** Identity scheme *)

(** C3. For all strings [s] and [k], [gen_id s k] is the 16-character prefix of
    the 64-digit lower-case hexadecimal SHA-256 digest of [s ++ ":" ++ k];
    equal arguments give equal identifiers; and the identifiers of the key
    ["x"] under the sources ["claude"] and ["chatgpt"] differ. *)
Theorem gen_id_spec :
  (forall s k : string,
      String.prefix (gen_id s k) (Sha256.hexdigest (s +:+ ":" +:+ k)) = true
      /\ String.length (Sha256.hexdigest (s +:+ ":" +:+ k)) = 64%nat
      /\ String.length (gen_id s k) = 16%nat
      /\ all_chars is_hex_char (gen_id s k) = true)
  /\ (forall s1 k1 s2 k2 : string, s1 = s2 -> k1 = k2 -> gen_id s1 k1 = gen_id s2 k2)
  /\ gen_id "claude" "x" = "db5c72b9eacb5a8c"
  /\ gen_id "chatgpt" "x" = "ab855a864005ec9f"
  /\ gen_id "claude" "x" <> gen_id "chatgpt" "x".
Proof.
  split; [|split; [|split; [|split]]].
  - intros s k. unfold gen_id. split; [|split; [|split]].
    + apply str_take_prefix.
    + apply Sha256Facts.hexdigest_length.
    + rewrite str_take_length, Sha256Facts.hexdigest_length. reflexivity.
    + apply all_chars_take, Sha256Facts.hexdigest_is_hex.
  - intros s1 k1 s2 k2 -> ->. reflexivity.
  - vm_compute. reflexivity.
  - vm_compute. reflexivity.
  - vm_compute. discriminate.
Qed.

(** ** Content-union extractor *)

(** C5. On the block list [[{"type":"thinking","thinking":"T"},
    {"type":"text","text":"X"}]] [extract_content] returns thinking ["T"] and
    text ["X"]; on the string ["plain"] it returns text ["plain"] and no
    thinking. *)
Theorem extract_content_examples :
  extract_content
    (JList [JDict [("type", JStr "thinking"); ("thinking", JStr "T")];
            JDict [("type", JStr "text"); ("text", JStr "X")]])
  = Ok (Content "X" (Some "T") [] [])
  /\ extract_content (JStr "plain") = Ok (Content "plain" None [] []).
Proof. split; vm_compute; reflexivity. Qed.

(** C1 (the code departs from the claim). A block typed ["tool_use"] without a
    ["name"] makes [extract_content] raise [KeyError]: the block's name is read
    with [b["name"]] where every other field is read with [b.get]. *)
Theorem extract_content_tool_use_without_name :
  extract_content (JList [JDict [("type", JStr "tool_use")]]) = Raise (KeyError "name").
Proof. vm_compute. reflexivity. Qed.

(** A text field that is not a string makes the newline join raise. *)
Example extract_content_text_not_a_string :
  extract_content (JList [JDict [("text", JNum 3)]]) = Raise TypeError.
Proof. vm_compute. reflexivity. Qed.

(** ** Merger *)

Section MergeFacts.
Context `{Library}.

Section Table.
Context {R : Type} (key : R -> string).

Lemma insert_or_replace_snoc (rows : list R) (r : R) (t : gmap string R) :
  insert_or_replace key (rows ++ [r]) t = <[key r := r]> (insert_or_replace key rows t).
Proof. unfold insert_or_replace. now rewrite fold_left_app. Qed.

Lemma latest_snoc (k : string) (rows : list R) (r : R) :
  latest key k (rows ++ [r]) = if decide (key r = k) then Some r else latest key k rows.
Proof. unfold latest. now rewrite fold_left_app. Qed.

Lemma lookup_insert_or_replace (rows : list R) (t : gmap string R) (k : string) :
  insert_or_replace key rows t !! k
  = match latest key k rows with Some r => Some r | None => t !! k end.
Proof.
  induction rows as [|r rows IH] using rev_ind; [reflexivity|].
  rewrite insert_or_replace_snoc, latest_snoc, lookup_insert.
  destruct (decide (key r = k)); [reflexivity | exact IH].
Qed.

Lemma latest_key (k : string) (rows : list R) (r : R) :
  latest key k rows = Some r -> key r = k /\ r ∈ rows.
Proof.
  induction rows as [|r' rows IH] using rev_ind; [discriminate|].
  rewrite latest_snoc. destruct (decide (key r' = k)) as [Hk|Hk].
  - intros [= <-]. split; [exact Hk | set_solver].
  - intros Hl. destruct (IH Hl) as [? ?]. split; [assumption | set_solver].
Qed.

Lemma latest_None (k : string) (rows : list R) :
  latest key k rows = None <-> k ∉ List.map key rows.
Proof.
  induction rows as [|r' rows IH] using rev_ind.
  - split; [intros _; apply not_elem_of_nil | reflexivity].
  - rewrite latest_snoc, map_app. simpl.
    destruct (decide (key r' = k)) as [Hk|Hk].
    + split; [discriminate | intros Hn; exfalso; apply Hn; set_solver].
    + rewrite IH. set_solver.
Qed.

(** Replaying a batch on its own result changes nothing. *)
Lemma insert_or_replace_idem (rows : list R) (t : gmap string R) :
  insert_or_replace key rows (insert_or_replace key rows t)
  = insert_or_replace key rows t.
Proof.
  apply map_eq; intros k. rewrite !lookup_insert_or_replace.
  destruct (latest key k rows); reflexivity.
Qed.

Lemma insert_or_replace_is_Some (rows : list R) (t : gmap string R) (k : string) :
  is_Some (insert_or_replace key rows t !! k) <-> k ∈ List.map key rows \/ is_Some (t !! k).
Proof.
  rewrite lookup_insert_or_replace.
  destruct (latest key k rows) as [r|] eqn:E.
  - apply latest_key in E as [<- Hin]. split; [intros _; left | intros _; eauto].
    apply list_elem_of_fmap. eauto.
  - apply latest_None in E. tauto.
Qed.
End Table.

Lemma select_ids_spec {R} (ids : list string) (t : gmap string R) (k : string) :
  k ∈ select_ids ids t <-> k ∈ ids /\ is_Some (t !! k).
Proof.
  unfold select_ids. rewrite elem_of_list_to_set, list_elem_of_In, filter_In.
  rewrite bool_decide_eq_true, <- list_elem_of_In. reflexivity.
Qed.

(** C2. For every store and every [ParseResult], merging the result a second
    time leaves every table as the first merge left it, so the six row counts
    after the second merge are those after the first. *)
Theorem upsert_idempotent (s : store) (r : ParseResult) :
  let s1 := (upsert s r).1 in
  let s2 := (upsert s1 r).1 in
  s2 = s1 /\ row_counts s2 = row_counts s1.
Proof.
  intros s1 s2.
  assert (E : s2 = s1).
  { subst s1 s2. unfold upsert; simpl. f_equal; apply insert_or_replace_idem. }
  split; [exact E | now rewrite E].
Qed.

(** X4. The second merge of a batch reports no new and no updated
    conversation: merged again, on the store its first merge left, a batch
    counts as nothing new. *)
Lemma upsert_again_reports_nothing_new (s : store) (r : ParseResult) :
  let c := (upsert (upsert s r).1 r).2 in
  n_new_convs c = 0%nat /\ n_updated c = 0%nat.
Proof.
  unfold upsert; simpl.
  assert (Hm : list_to_set (List.map m_id (msgs r))
               ∖ select_ids (List.map m_id (msgs r))
                   (insert_or_replace m_id (msgs r) (messages s)) = (∅ : gset string)).
  { apply set_eq; intros k. rewrite elem_of_difference, select_ids_spec, elem_of_list_to_set.
    rewrite insert_or_replace_is_Some. set_solver. }
  assert (Hc : list_to_set (List.map c_id (convs r))
               ∖ select_ids (List.map c_id (convs r))
                   (insert_or_replace c_id (convs r) (conversations s)) = (∅ : gset string)).
  { apply set_eq; intros k. rewrite elem_of_difference, select_ids_spec, elem_of_list_to_set.
    rewrite insert_or_replace_is_Some. set_solver. }
  rewrite Hm, Hc. split; [apply size_empty|].
  replace (List.filter (fun m => bool_decide (m_id m ∈ (∅ : gset string))) (msgs r))
    with (@nil message).
  - apply size_empty_iff. set_solver.
  - clear Hm Hc. induction (msgs r) as [|m l IH]; [reflexivity|]. simpl.
    rewrite bool_decide_eq_false_2 by set_solver. exact IH.
Qed.

Lemma count_one_row {R} (t : gmap string R) (k : string) (r : R) :
  t !! k = Some r -> size (filter (fun kv : string * R => kv.1 = k) t) = 1%nat.
Proof.
  intros Hk.
  assert (E : filter (fun kv : string * R => kv.1 = k) t = {[k := r]}).
  { apply map_eq; intros j. apply option_eq; intros x.
    rewrite map_lookup_filter_Some, lookup_singleton_Some. simpl.
    split; [intros [Hj ->]; split; congruence | intros [<- <-]; auto]. }
  rewrite E. apply map_size_singleton.
Qed.

(** C4. A conversation merged with three messages and merged again, under the
    same conversation id, with those three messages followed by three more
    (six pairwise distinct message ids, all owned by the conversation) is
    stored as exactly one conversation row and exactly six message rows,
    whose ids are the six ids of the second batch. *)
Theorem continuation_no_duplicates (s : store) (r1 r2 : ParseResult)
    (c1 c2 : conversation) (first more : list message) :
  convs r1 = [c1] -> msgs r1 = first ->
  convs r2 = [c2] -> msgs r2 = (first ++ more) ->
  c_id c1 = c_id c2 ->
  length first = 3%nat -> length more = 3%nat ->
  NoDup (List.map m_id (first ++ more)) ->
  Forall (fun m => m_conversation_id m = c_id c1) (first ++ more) ->
  count_messages_of (c_id c1) s = 0%nat ->
  let s' := (upsert (upsert s r1).1 r2).1 in
  count_conversations_with (c_id c1) s' = 1%nat
  /\ count_messages_of (c_id c1) s' = 6%nat
  /\ dom (filter (fun kv => m_conversation_id kv.2 = c_id c1) (messages s'))
     = list_to_set (List.map m_id (first ++ more)).
Proof.
  intros Hc1 Hm1 Hc2 Hm2 Hid Hl1 Hl2 Hnd Hown Hnone s'.
  set (cid := c_id c1) in *.
  assert (Hdom : dom (filter (fun kv => m_conversation_id kv.2 = cid) (messages s'))
                 = list_to_set (List.map m_id (first ++ more))).
  { apply map_size_empty_inv in Hnone.
    apply set_eq; intros k. rewrite elem_of_dom, elem_of_list_to_set.
    subst s'. unfold upsert; simpl. rewrite Hm1, Hm2.
    split.
    - intros [m [Hk Hp]%map_lookup_filter_Some]. simpl in Hp.
      rewrite lookup_insert_or_replace in Hk.
      destruct (latest m_id k (first ++ more)) as [m'|] eqn:E.
      + apply latest_key in E as [<- Hin]. apply list_elem_of_fmap. eauto.
      + rewrite lookup_insert_or_replace in Hk.
        destruct (latest m_id k first) as [m'|] eqn:E'.
        * apply latest_key in E' as [<- Hin]. apply list_elem_of_fmap.
          exists m'. split; [reflexivity | set_solver].
        * exfalso. eapply (map_filter_empty_not_lookup _ _ k m Hnone); eauto.
    - intros Hin.
      destruct (latest m_id k (first ++ more)) as [m'|] eqn:E.
      + exists m'. apply map_lookup_filter_Some. split.
        * rewrite lookup_insert_or_replace, E. reflexivity.
        * simpl. apply latest_key in E as [_ Hin'].
          rewrite Forall_forall in Hown. apply Hown. exact Hin'.
      + apply latest_None in E. contradiction. }
  split; [|split; [|exact Hdom]].
  - unfold count_conversations_with. apply (count_one_row _ _ c2).
    subst s'. unfold upsert; simpl. rewrite Hc1, Hc2. simpl.
    fold cid. rewrite <- Hid. fold cid. apply lookup_insert_eq.
  - unfold count_messages_of. rewrite <- size_dom, Hdom.
    rewrite size_list_to_set by exact Hnd.
    rewrite length_map, length_app. lia.
Qed.

End MergeFacts.

(** ** Computations that may raise *)

Lemma bind_Ok {A B} (r : result A) (k : A -> result B) (b : B) :
  (r ≫= k) = Ok b <-> exists a, r = Ok a /\ k a = Ok b.
Proof.
  destruct r as [a|e]; simpl.
  - split; [eauto | intros (a' & [= <-] & Hk); exact Hk].
  - split; [discriminate | intros (a' & Ha & _); discriminate].
Qed.

Lemma mbind_Ok {A B} (a : A) (k : A -> result B) : (Ok a ≫= k) = k a.
Proof. reflexivity. Qed.

Lemma mbind_Raise {A B} (e : exn) (k : A -> result B) : (Raise e ≫= k) = Raise e.
Proof. reflexivity. Qed.

(** Inverts hypotheses of the form [(x ← r; k) = Ok b]. *)
Ltac inv_bind H :=
  let a := fresh "a" in let Ha := fresh "Ha" in
  apply bind_Ok in H as (a & Ha & H).

Tactic Notation "inv_bind_as" hyp(H) ident(a) ident(Ha) :=
  apply bind_Ok in H as (a & Ha & H).

Lemma mapM_Ok {A B} (f : A -> result B) (l : list A) (bs : list B) :
  mapM f l = Ok bs <-> Forall2 (fun a b => f a = Ok b) l bs.
Proof.
  revert bs; induction l as [|a l IH]; intros bs; simpl.
  - split; [intros [= <-]; constructor | intros Hf; inversion Hf; reflexivity].
  - split.
    + intros Hm. inv_bind Hm. inv_bind Hm. injection Hm as <-.
      constructor; [assumption | now apply IH].
    + intros Hf. inversion Hf as [|? b ? bs' Hab Hrest]; subst.
      rewrite Hab; simpl. apply IH in Hrest. rewrite Hrest. reflexivity.
Qed.

Lemma mapM_length {A B} (f : A -> result B) (l : list A) (bs : list B) :
  mapM f l = Ok bs -> length bs = length l.
Proof. intros Hm%mapM_Ok. symmetry. eapply Forall2_length, Hm. Qed.

Lemma mapM_app {A B} (f : A -> result B) (l1 l2 : list A) (b1 b2 : list B) :
  mapM f l1 = Ok b1 -> mapM f l2 = Ok b2 -> mapM f (l1 ++ l2) = Ok (b1 ++ b2).
Proof. rewrite !mapM_Ok. apply Forall2_app. Qed.

Lemma mapM_app_inv {A B} (f : A -> result B) (l1 l2 : list A) (bs : list B) :
  mapM f (l1 ++ l2) = Ok bs ->
  exists b1 b2, bs = (b1 ++ b2)%list /\ mapM f l1 = Ok b1 /\ mapM f l2 = Ok b2.
Proof.
  rewrite mapM_Ok. intros (b1 & b2 & H1 & H2 & ->)%Forall2_app_inv_l.
  exists b1, b2. now rewrite !mapM_Ok.
Qed.

Lemma mapM_total {A B} (f : A -> result B) (l : list A) :
  Forall (fun a => is_ok (f a) = true) l -> exists bs, mapM f l = Ok bs.
Proof.
  induction 1 as [|a l Ha _ [bs IH]]; simpl; [eauto|].
  destruct (f a) as [b|]; [|discriminate]. simpl. rewrite IH. simpl. eauto.
Qed.


Lemma filter_mapM_filter {A} (p : A -> result bool) (q : A -> bool) (l : list A) :
  Forall (fun a => p a = Ok (q a)) l -> filter_mapM p Ok l = Ok (List.filter q l).
Proof.
  induction 1 as [|a l Ha _ IH]; simpl; [reflexivity|].
  rewrite Ha; simpl. destruct (q a); simpl; rewrite IH; reflexivity.
Qed.

Lemma elem_of_enumerate_from {A} (l : list A) (k i : nat) (a : A) :
  (i, a) ∈ combine (seq k (length l)) l <-> (k <= i)%nat /\ l !! (i - k)%nat = Some a.
Proof.
  revert k; induction l as [|x l IH]; intros k; simpl.
  - rewrite elem_of_nil. split; [tauto | intros [_ Hl]; discriminate].
  - rewrite elem_of_cons, IH. split.
    + intros [[= -> ->]|[Hle Hl]].
      * split; [lia|]. now replace (k - k)%nat with 0%nat by lia.
      * split; [lia|]. replace (i - k)%nat with (S (i - S k)) by lia. exact Hl.
    + intros [Hle Hl]. destruct (decide (i = k)) as [->|Hne].
      * left. replace (k - k)%nat with 0%nat in Hl by lia. simpl in Hl. congruence.
      * right. split; [lia|]. replace (i - k)%nat with (S (i - S k)) in Hl by lia.
        exact Hl.
Qed.

Lemma elem_of_enumerate {A} (l : list A) (i : nat) (a : A) :
  (i, a) ∈ Py.enumerate l <-> l !! i = Some a.
Proof.
  unfold Py.enumerate. rewrite elem_of_enumerate_from, Nat.sub_0_r.
  split; [tauto | intros Hl; split; [lia | exact Hl]].
Qed.

(** ** Dictionaries *)

Lemma dot_get_JDict (d : list (string * json)) (k : string) (default : json) :
  Py.dot_get (JDict d) k default = Ok (Py.get d k default).
Proof. reflexivity. Qed.

Lemma subscript_JDict (d : list (string * json)) (k : string) :
  Py.subscript (JDict d) k = Py.item d k.
Proof. reflexivity. Qed.

Lemma item_assoc (d : list (string * json)) (k : string) (v : json) :
  Py.assoc k d = Some v -> Py.item d k = Ok v.
Proof. unfold Py.item. now intros ->. Qed.

Lemma get_assoc (d : list (string * json)) (k : string) (default v : json) :
  Py.assoc k d = Some v -> Py.get d k default = v.
Proof. unfold Py.get. now intros ->. Qed.

Lemma truthy_get_none (d : list (string * json)) (k : string) :
  Py.truthy (Py.get_none d k) = true -> Py.assoc k d = Some (Py.get_none d k).
Proof.
  unfold Py.get_none, Py.get. destruct (Py.assoc k d); [reflexivity | discriminate].
Qed.



(** ** When the content-union extractor returns *)

Lemma mapM_raises {A B} (f : A -> result B) (l : list A) (e : exn) :
  Forall (fun a => is_ok (f a) = true \/ f a = Raise e) l ->
  Exists (fun a => f a = Raise e) l ->
  mapM f l = Raise e.
Proof.
  induction 1 as [|a l Ha _ IH]; intros Hex; [inversion Hex|].
  simpl. destruct (f a) as [b|e'] eqn:Hfa.
  - rewrite mbind_Ok. inversion Hex as [? ? Hr|? ? Hrest]; subst; [congruence|].
    now rewrite (IH Hrest).
  - destruct Ha as [Hok|Hr]; [discriminate|]. injection Hr as ->. reflexivity.
Qed.

Lemma join_values_strings (sep : string) (vs : list json) :
  Forall (fun v => exists s, v = JStr s) vs -> exists s, Py.join_values sep vs = Ok s.
Proof.
  intros Hs. unfold Py.join_values.
  destruct (mapM_total Py.as_str vs) as [parts Hparts].
  - eapply Forall_impl; [exact Hs|]. now intros v [s ->].
  - rewrite Hparts. simpl. eauto.
Qed.

Lemma tool_use_named (b : list (string * json)) :
  Py.has b "name" = true -> is_ok (tool_use b) = true.
Proof.
  unfold Py.has, tool_use, Py.item. destruct (Py.assoc "name" b); [reflexivity | discriminate].
Qed.

Lemma tool_use_unnamed (b : list (string * json)) :
  Py.has b "name" = false -> tool_use b = Raise (KeyError "name").
Proof.
  unfold Py.has, tool_use, Py.item. destruct (Py.assoc "name" b); [discriminate | reflexivity].
Qed.

Lemma thinking_items (blocks : list (list (string * json))) :
  exists vs, mapM (fun b => Py.item b "thinking") (List.filter is_thinking_block blocks) = Ok vs
             /\ vs = List.map (fun b => Py.get_none b "thinking")
                              (List.filter is_thinking_block blocks).
Proof.
  eexists. split; [|reflexivity]. apply mapM_Ok.
  induction blocks as [|b blocks IH]; simpl; [constructor|].
  destruct (is_thinking_block b) eqn:Hb; [|exact IH]. simpl. constructor; [|exact IH].
  unfold is_thinking_block in Hb. apply andb_true_iff in Hb as [_ Ht].
  apply truthy_get_none in Ht. unfold Py.item. now rewrite Ht.
Qed.

(** X22. On a block list whose text and thinking fields, where they are read,
    are strings, [extract_content] returns exactly when every block typed
    ["tool_use"] has a name, and raises [KeyError('name')] when one has
    none. *)
Lemma extract_content_returns_iff_named (items : list json) :
  Forall (fun b => exists s, text_part b = JStr s) (dict_blocks items) ->
  Forall (fun b => exists s, Py.get_none b "thinking" = JStr s)
         (List.filter is_thinking_block (dict_blocks items)) ->
  (forallb (fun b => Py.has b "name")
           (List.filter (fun b => Py.eq_str (Py.get_none b "type") "tool_use")
                        (dict_blocks items)) = true
   -> exists c, extract_content (JList items) = Ok c)
  /\ (forallb (fun b => Py.has b "name")
              (List.filter (fun b => Py.eq_str (Py.get_none b "type") "tool_use")
                           (dict_blocks items)) = false
      -> extract_content (JList items) = Raise (KeyError "name")).
Proof.
  intros Htext Hthink. unfold extract_content.
  destruct (join_values_strings Py.nl (List.map text_part (dict_blocks items))) as [joined ->].
  { apply Forall_forall. intros v (b & -> & Hb)%list_elem_of_fmap.
    rewrite Forall_forall in Htext. now apply Htext. }
  rewrite mbind_Ok.
  destruct (thinking_items (dict_blocks items)) as (vs & -> & ->). rewrite mbind_Ok.
  destruct (join_values_strings Py.nl
              (List.map (fun b => Py.get_none b "thinking")
                        (List.filter is_thinking_block (dict_blocks items)))) as [think ->].
  { apply Forall_forall. intros v (b & -> & Hb)%list_elem_of_fmap.
    rewrite Forall_forall in Hthink. now apply Hthink. }
  rewrite mbind_Ok.
  set (uses := List.filter (fun b => Py.eq_str (Py.get_none b "type") "tool_use")
                           (dict_blocks items)).
  split; intros Hnamed.
  - destruct (mapM_total tool_use uses) as [rows ->]; [|rewrite mbind_Ok; eauto].
    apply Forall_forall. intros b Hb. apply tool_use_named.
    rewrite forallb_forall in Hnamed. apply Hnamed. now apply list_elem_of_In.
  - rewrite (mapM_raises tool_use uses (KeyError "name")); [reflexivity| |].
    + apply Forall_forall. intros b _. destruct (Py.has b "name") eqn:Hb.
      * left. now apply tool_use_named.
      * right. now apply tool_use_unnamed.
    + apply Exists_exists.
      assert (Hex : existsb (fun b => negb (Py.has b "name")) uses = true).
      { clear -Hnamed. induction uses as [|b l IH]; simpl in *; [discriminate|].
        destruct (Py.has b "name"); simpl in *; [now apply IH | reflexivity]. }
      apply existsb_exists in Hex as (b & Hin & Hb). exists b.
      split; [now apply list_elem_of_In|]. apply tool_use_unnamed.
      now destruct (Py.has b "name").
Qed.

Lemma extract_content_returns_unless_list (c : json) :
  (forall items, c <> JList items) -> exists r, extract_content c = Ok r.
Proof. destruct c; simpl; eauto. intros Hc. now elim (Hc l). Qed.

(** ** Session-log normalizers *)




Section SessionFacts.
Context `{Library}.





End SessionFacts.

(** ** Tool invocations projected to file edits *)


Section EditFacts.
Context `{Library}.

(** What [make_edit] builds for a tool entry that passes the filter. *)
Lemma make_edit_ok (cid : string) (idx j : nat) (mid : string) (ts : option datetime)
    (d input : list (string * json)) (name : string) :
  Py.get_none d "name" = JStr name ->
  Py.get d "input" (JDict []) = JDict input ->
  Py.truthy (Py.get_none input "file_path") = true ->
  make_edit cid idx mid ts (j, JDict d)
  = Ok (FileEdit (gen_id "claude-code"
                    ("edit:" +:+ cid +:+ ":" +:+ Py.str_of_nat idx +:+ ":" +:+ Py.str_of_nat j))
                 mid (Py.get_none input "file_path") (Py.lower name)
                 (Py.or_else (Py.get_none input "content")
                             (Py.get input "new_string" (JStr "")))
                 ts).
Proof.
  intros Hname Hinput Hfp.
  assert (Hi : Py.assoc "input" d = Some (JDict input)).
  { unfold Py.get in Hinput. destruct (Py.assoc "input" d) as [v|]; [congruence|].
    injection Hinput as <-. discriminate. }
  assert (Hn : Py.assoc "name" d = Some (JStr name)).
  { unfold Py.get_none, Py.get in Hname. destruct (Py.assoc "name" d); [congruence | discriminate]. }
  apply truthy_get_none in Hfp.
  unfold make_edit. rewrite !subscript_JDict, (item_assoc _ _ _ Hi), !mbind_Ok.
  rewrite !subscript_JDict, (item_assoc _ _ _ Hfp), (item_assoc _ _ _ Hn), !mbind_Ok.
  rewrite !dot_get_JDict, !mbind_Ok. reflexivity.
Qed.

Lemma is_file_edit_true (d input : list (string * json)) (name : string) :
  Py.get_none d "name" = JStr name ->
  name ∈ ["Write"; "Edit"; "MultiEdit"]%string ->
  Py.get d "input" (JDict []) = JDict input ->
  Py.truthy (Py.get_none input "file_path") = true ->
  is_file_edit (JDict d) = Ok true.
Proof.
  intros Hname Hin Hinput Hfp. unfold is_file_edit.
  rewrite !dot_get_JDict, !mbind_Ok. fold (Py.get_none d "name"). rewrite Hname.
  replace (Py.in_strs (JStr name) ["Write"; "Edit"; "MultiEdit"]%string) with true.
  - rewrite Hinput, dot_get_JDict, mbind_Ok. fold (Py.get_none input "file_path").
    now rewrite Hfp.
  - symmetry. apply existsb_exists. exists name. split; [now apply list_elem_of_In|].
    simpl. apply String.eqb_refl.
Qed.


End EditFacts.

Section EditProjection.
Context `{Library}.



End EditProjection.

(** ** Export-file normalizers *)

Lemma foldM_invariant {A S} (P : S -> Prop) (f : S -> A -> result S) (l : list A) (s s' : S) :
  (forall s a s', f s a = Ok s' -> P s -> P s') ->
  foldM f l s = Ok s' -> P s -> P s'.
Proof.
  intros Hf. revert s. induction l as [|a l IH]; intros s; simpl.
  - now intros [= <-].
  - intros Hm Hs. inv_bind Hm. eapply IH; [exact Hm|]. eapply Hf; eauto.
Qed.

Section ExportFacts.
Context `{Library}.

Lemma chatgpt_part_convs cid mid role ts model meta (r r' : ParseResult) ipart :
  chatgpt_part cid mid role ts model meta r ipart = Ok r' -> convs r' = convs r.
Proof.
  destruct ipart as [i part]. unfold chatgpt_part.
  destruct part as [| | |s|l|d]; try (now intros [= <-]).
  - destruct (negb _); now intros [= <-].
  - destruct (Py.in_strs _ _); now intros [= <-].
Qed.

Lemma chatgpt_node_convs cid (r r' : ParseResult) entry :
  chatgpt_node cid r entry = Ok r' -> convs r' = convs r.
Proof.
  destruct entry as [nid node]. unfold chatgpt_node. intros Hn.
  inv_bind Hn. destruct (negb (Py.truthy a)); [now injection Hn as <-|].
  do 6 inv_bind Hn. inv_bind Hn. inv_bind Hn. inv_bind Hn.
  assert (E1 : convs a6 = convs r).
  { destruct (Py.eq_str a1 "tool" || Py.truthy a5); [|now injection Ha6 as <-].
    do 4 inv_bind Ha6. now injection Ha6 as <-. }
  rewrite <- E1.
  eapply (foldM_invariant (fun s => convs s = convs a6)); [|exact Hn|reflexivity].
  intros s ip s' Hp Hs. apply chatgpt_part_convs in Hp. congruence.
Qed.

Lemma chatgpt_conv_convs (r r' : ParseResult) (c : json) :
  chatgpt_conv r c = Ok r' ->
  exists oid row,
    Py.dot_get c "id" (JStr "") = Ok oid
    /\ convs r' = convs r ++ [row]
    /\ c_id row = gen_id "chatgpt" (fmt oid)
    /\ c_source row = "chatgpt"%string.
Proof.
  unfold chatgpt_conv. intros Hc. do 8 inv_bind Hc.
  eexists a, _. split; [exact Ha|].
  split.
  { eapply (foldM_invariant (fun s => convs s = convs r ++ [_])); [|exact Hc|reflexivity].
    intros s e s' He Hs. apply chatgpt_node_convs in He. congruence. }
  split; reflexivity.
Qed.

Lemma foldM_chatgpt_conv (cs : list json) (r r' : ParseResult) :
  foldM chatgpt_conv cs r = Ok r' ->
  exists rows,
    convs r' = convs r ++ rows
    /\ Forall2 (fun c row => exists oid, Py.dot_get c "id" (JStr "") = Ok oid
                                         /\ c_id row = gen_id "chatgpt" (fmt oid)
                                         /\ c_source row = "chatgpt"%string) cs rows.
Proof.
  revert r. induction cs as [|c cs IH]; intros r; simpl.
  - intros [= <-]. exists []. split; [now rewrite app_nil_r | constructor].
  - intros Hm. inv_bind Hm.
    apply chatgpt_conv_convs in Ha as (oid & row & Hoid & Hconvs & Hid & Hsrc).
    destruct (IH _ Hm) as (rows & Hr' & Hall).
    exists (row :: rows). split.
    + rewrite Hr', Hconvs, <- app_assoc. reflexivity.
    + constructor; eauto.
Qed.

(** C10. Whenever an export-file normalizer returns a result, that result
    holds exactly one conversation row for each conversation object of the
    document, in order and under the identifier of that object, whatever
    became of the object's messages; in particular a conversation all of
    whose messages are dropped for empty text is still emitted, with no
    message row. *)
Theorem export_conversation_kept :
  (forall (data : json) (cs : list json) (r : ParseResult),
      Py.iter data = Ok cs ->
      parse_claude data = Ok r ->
      Forall2 (fun c row => exists key, uuid_or_id c = Ok key
                                        /\ c_id row = gen_id "claude" (fmt key)
                                        /\ c_source row = "claude"%string) cs (convs r))
  /\ (forall (data : json) (cs : list json) (r : ParseResult),
      Py.iter data = Ok cs ->
      parse_chatgpt data = Ok r ->
      Forall2 (fun c row => exists oid, Py.dot_get c "id" (JStr "") = Ok oid
                                        /\ c_id row = gen_id "chatgpt" (fmt oid)
                                        /\ c_source row = "chatgpt"%string) cs (convs r))
  /\ (exists r, parse_claude claude_export_blank = Ok r
                /\ List.map c_id (convs r) = [gen_id "claude" "conv-1"] /\ msgs r = [])
  /\ (exists r, parse_chatgpt chatgpt_export_blank = Ok r
                /\ List.map c_id (convs r) = [gen_id "chatgpt" "conv-1"] /\ msgs r = []).
Proof.
  split; [|split; [|split]].
  - intros data cs r Hcs Hp. unfold parse_claude in Hp. rewrite Hcs, mbind_Ok in Hp.
    inv_bind Hp. injection Hp as <-. simpl.
    apply mapM_Ok in Ha. clear Hcs. induction Ha as [|c pc cs pcs Hc _ IH]; simpl.
    + constructor.
    + constructor; [|exact IH].
      unfold parse_conv in Hc. inv_bind_as Hc key Hkey. exists key. split; [assumption|].
      do 11 inv_bind Hc. injection Hc as <-. simpl. auto.
  - intros data cs r Hcs Hp. unfold parse_chatgpt in Hp. rewrite Hcs, mbind_Ok in Hp.
    apply foldM_chatgpt_conv in Hp as (rows & Hr & Hall). simpl in Hr. now rewrite Hr.
  - eexists. vm_compute. repeat split.
  - eexists. vm_compute. repeat split.
Qed.

End ExportFacts.

(** ** Change detector and sync planner *)









(** ** Executor *)

Section ExecutorFacts.
Context `{Library}.

Lemma state_get_insert (st : state_doc) (section section' key' : string) (sec : section_doc) :
  state_get (<[section := sec]> st) section' key'
  = if decide (section = section') then sec !! key' else state_get st section' key'.
Proof.
  unfold state_get. rewrite lookup_insert. destruct (decide (section = section')); reflexivity.
Qed.

Lemma set_state_get (section key : string) (val : watermark) (r : sync_run)
    (section' key' : string) :
  state_get (state (set_state section key val r)) section' key'
  = if decide ((section, key) = (section', key')) then Some val
    else state_get (state r) section' key'.
Proof.
  unfold set_state.
  destruct (decide ((match state r !! section with Some s => s | None => ∅ end) !! key
                    = Some val)) as [E|E]; simpl; rewrite state_get_insert.
  - destruct (decide (section = section')) as [<-|Hs].
    + destruct (decide ((section, key) = (section, key'))) as [[= <-]|Hk]; [exact E|].
      unfold state_get. destruct (state r !! section); [reflexivity | apply lookup_empty].
    + destruct (decide ((section, key) = (section', key'))) as [[= ? ?]|_]; [contradiction|].
      reflexivity.
  - destruct (decide (section = section')) as [<-|Hs].
    + destruct (decide ((section, key) = (section, key'))) as [[= <-]|Hk].
      * apply lookup_insert_eq.
      * rewrite lookup_insert_ne by congruence.
        unfold state_get. destruct (state r !! section); [reflexivity | apply lookup_empty].
    + destruct (decide ((section, key) = (section', key'))) as [[= ? ?]|_]; [contradiction|].
      reflexivity.
Qed.


Lemma set_state_fields (section key : string) (val : watermark) (r : sync_run) :
  db (set_state section key val r) = db r
  /\ total (set_state section key val r) = total r
  /\ newc (set_state section key val r) = newc r
  /\ updc (set_state section key val r) = updc r
  /\ changed (set_state section key val r) = changed r
  /\ out (set_state section key val r) = out r.
Proof. unfold set_state. destruct (decide _); simpl; auto 10. Qed.

(** One step of the loop, field by field. *)
Lemma complete_failed (r : sync_run) (j : job) (e : exn) :
  complete r (j, Raise e)
  = SyncRun (db r) (state r) (dirty r) (total r) (newc r) (updc r) (changed r)
            (out r ++ [Failed (j_name j) e]).
Proof. reflexivity. Qed.

Lemma complete_db (r : sync_run) (j : job) (pr : ParseResult) :
  db (complete r (j, Ok pr)) = (upsert (db r) pr).1.
Proof.
  unfold complete. destruct (upsert (db r) pr) as [db' c].
  destruct (j_state j) as [[[s k] v]|], (j_source j) as [src|];
    try destruct (String.eqb src ""); cbn [db fst];
    rewrite ?(proj1 (set_state_fields _ _ _ _)); reflexivity.
Qed.

Lemma complete_state (r : sync_run) (j : job) (pr : ParseResult) :
  state (complete r (j, Ok pr))
  = match j_state j with
    | Some (s, k, v) => state (set_state s k v r)
    | None => state r
    end
  /\ dirty (complete r (j, Ok pr))
     = match j_state j with
       | Some (s, k, v) => dirty (set_state s k v r)
       | None => dirty r
       end.
Proof.
  unfold complete. destruct (upsert (db r) pr) as [db' c]. simpl.
  destruct (j_state j) as [[[s k] v]|], (j_source j) as [src|];
    try destruct (String.eqb src ""); simpl; split; try reflexivity;
    unfold set_state; simpl; destruct (decide _); reflexivity.
Qed.






Lemma complete_state_get (r : sync_run) (j : job) (o : result ParseResult)
    (section key : string) :
  state_get (state (complete r (j, o))) section key
  = match o, j_state j with
    | Ok _, Some (s, k, v) =>
        if decide ((s, k) = (section, key)) then Some v else state_get (state r) section key
    | _, _ => state_get (state r) section key
    end.
Proof.
  destruct o as [pr|e]; [|reflexivity].
  rewrite (proj1 (complete_state r j pr)).
  destruct (j_state j) as [[[s k] v]|]; [apply set_state_get | reflexivity].
Qed.








End ExecutorFacts.

(** ** The properties at concrete inputs *)


Lemma gen_id_spec_witness :
  gen_id "claude" "x" = gen_id "claude" "x"
  /\ String.length (gen_id "claude" "x") = 16%nat.
Proof.
  destruct gen_id_spec as (Hall & Hdet & _).
  split; [apply Hdet; reflexivity | apply (Hall "claude" "x")].
Defined.

Lemma continuation_no_duplicates_witness :
  let s' := (upsert (upsert empty_store (test_batch 3)).1 (test_batch 6)).1 in
  count_conversations_with test_cid s' = 1%nat /\ count_messages_of test_cid s' = 6%nat.
Proof.
  intros s'.
  destruct (@continuation_no_duplicates example_library empty_store
              (test_batch 3) (test_batch 6) test_conv test_conv
              (List.map test_msg (seq 0 3)) (List.map test_msg (seq 3 3)))
    as (Hc & Hm & _); try reflexivity.
  - apply (bool_decide_unpack _). vm_compute. exact I.
  - repeat constructor.
  - split; [exact Hc | exact Hm].
Defined.





Lemma export_conversation_kept_witness :
  (exists r, @parse_claude example_library claude_export_blank = Ok r
             /\ length (convs r) = 1%nat /\ msgs r = [])
  /\ (exists r, @parse_chatgpt example_library chatgpt_export_blank = Ok r
                /\ length (convs r) = 1%nat /\ msgs r = []).
Proof.
  destruct (@export_conversation_kept example_library) as (Hcl & Hgpt & _).
  assert (E1 : @parse_claude example_library claude_export_blank
               = Ok (mkParseResult
                       [Conversation (gen_id "claude" "conv-1") "claude" (JStr "Blank")
                                     None None JNull JNull JNull JNull "{}"]
                       [] [] [] [] []))
    by (vm_compute; reflexivity).
  assert (E2 : @parse_chatgpt example_library chatgpt_export_blank
               = Ok (mkParseResult
                       [Conversation (gen_id "chatgpt" "conv-1") "chatgpt" (JStr "Blank")
                                     None None JNull JNull JNull JNull "{}"]
                       [] [] [] [] []))
    by (vm_compute; reflexivity).
  split.
  - eexists. split; [exact E1|]. split; [|reflexivity].
    pose proof (Hcl claude_export_blank _ _ eq_refl E1) as F.
    apply Forall2_length in F. symmetry. exact F.
  - eexists. split; [exact E2|]. split; [|reflexivity].
    pose proof (Hgpt chatgpt_export_blank _ _ eq_refl E2) as F.
    apply Forall2_length in F. symmetry. exact F.
Defined.

(** ** Merger: what a batch leaves in the store *)

Section MergeMore.
Context `{Library}.

Section TableMore.
Context {R : Type} (key : R -> string).

Lemma insert_or_replace_app (rows1 rows2 : list R) (t : gmap string R) :
  insert_or_replace key (rows1 ++ rows2) t
  = insert_or_replace key rows2 (insert_or_replace key rows1 t).
Proof. unfold insert_or_replace. apply fold_left_app. Qed.

Lemma dom_insert_or_replace (rows : list R) (t : gmap string R) :
  dom (insert_or_replace key rows t) = dom t ∪ list_to_set (List.map key rows).
Proof.
  apply set_eq; intros k.
  rewrite elem_of_dom, insert_or_replace_is_Some, elem_of_union, elem_of_dom,
    elem_of_list_to_set. tauto.
Qed.

Lemma insert_or_replace_other (rows : list R) (t : gmap string R) (k : string) :
  k ∉ List.map key rows -> insert_or_replace key rows t !! k = t !! k.
Proof.
  intros Hk. rewrite lookup_insert_or_replace.
  apply latest_None in Hk. now rewrite Hk.
Qed.


Lemma insert_or_replace_comm (rows1 rows2 : list R) (t : gmap string R) :
  no_common_key (List.map key rows1) (List.map key rows2) ->
  insert_or_replace key rows2 (insert_or_replace key rows1 t)
  = insert_or_replace key rows1 (insert_or_replace key rows2 t).
Proof.
  intros Hdis. apply map_eq; intros k. rewrite !lookup_insert_or_replace.
  destruct (latest key k rows1) as [r1|] eqn:E1, (latest key k rows2) as [r2|] eqn:E2;
    try reflexivity.
  exfalso. apply latest_key in E1 as [<- H1]. apply latest_key in E2 as [E H2].
  apply (Hdis (key r1)).
  - apply list_elem_of_fmap. eauto.
  - apply list_elem_of_fmap. exists r2. auto.
Qed.

Lemma insert_or_replace_size (rows : list R) (t : gmap string R) :
  size (insert_or_replace key rows t)
  = (size t + size (list_to_set (List.map key rows) ∖ select_ids (List.map key rows) t))%nat.
Proof.
  rewrite <- !size_dom, dom_insert_or_replace, size_union_alt. f_equal. f_equal.
  apply set_eq; intros k.
  rewrite !elem_of_difference, select_ids_spec, elem_of_list_to_set, elem_of_dom. tauto.
Qed.

End TableMore.

(** X1. A merge never deletes: every key stored in any of the six tables
    before [upsert] is stored after it, and a row whose key no row of the
    batch carries is left exactly as it was. *)
Theorem upsert_never_deletes (s : store) (r : ParseResult) :
  let s' := (upsert s r).1 in
  (dom (conversations s) ⊆ dom (conversations s')
   /\ dom (messages s) ⊆ dom (messages s')
   /\ dom (tool_calls s) ⊆ dom (tool_calls s')
   /\ dom (attachments_ s) ⊆ dom (attachments_ s')
   /\ dom (artifacts_ s) ⊆ dom (artifacts_ s')
   /\ dom (file_edits s) ⊆ dom (file_edits s'))
  /\ (forall k, k ∉ List.map c_id (convs r) -> conversations s' !! k = conversations s !! k)
  /\ (forall k, k ∉ List.map m_id (msgs r) -> messages s' !! k = messages s !! k)
  /\ (forall k, k ∉ List.map t_id (tools_ r) -> tool_calls s' !! k = tool_calls s !! k)
  /\ (forall k, k ∉ List.map a_id (attachs r) -> attachments_ s' !! k = attachments_ s !! k)
  /\ (forall k, k ∉ List.map r_id (artifacts r) -> artifacts_ s' !! k = artifacts_ s !! k)
  /\ (forall k, k ∉ List.map e_id (edits r) -> file_edits s' !! k = file_edits s !! k).
Proof.
  intros s'. subst s'. unfold upsert; cbn [fst conversations messages tool_calls
    attachments_ artifacts_ file_edits].
  split.
  - rewrite !dom_insert_or_replace. repeat split; apply union_subseteq_l.
  - repeat split; intros k Hk; now apply insert_or_replace_other.
Qed.


(** X3. The number of new conversations [upsert] reports is the number of
    rows the conversations table grows by. *)
Theorem upsert_new_count_is_growth (s : store) (r : ParseResult) :
  size (conversations (upsert s r).1)
  = (size (conversations s) + n_new_convs (upsert s r).2)%nat.
Proof.
  unfold upsert; cbn [fst snd conversations n_new_convs].
  apply insert_or_replace_size.
Qed.

(** X5. Two batches that share no primary key can be merged in either
    order: the store is the same. *)
Theorem upsert_commutes_on_disjoint_ids (s : store) (r1 r2 : ParseResult) :
  disjoint_ids r1 r2 ->
  (upsert (upsert s r1).1 r2).1 = (upsert (upsert s r2).1 r1).1.
Proof.
  intros (Hc & Hm & Ht & Ha & Hr & He).
  unfold upsert; cbn [fst conversations messages tool_calls attachments_ artifacts_
    file_edits].
  f_equal; now apply insert_or_replace_comm.
Qed.

End MergeMore.

(** ** Executor: accounting and scheduling *)

Section ExecutorMore.
Context `{Library}.

Lemma complete_counters (r : sync_run) (j : job) (pr : ParseResult) :
  newc (complete r (j, Ok pr)) = (newc r + n_new_convs (upsert (db r) pr).2)%nat
  /\ changed (complete r (j, Ok pr))
     = changed r || existsb (fun n => negb (Nat.eqb n 0)) (counts5 (upsert (db r) pr).2).
Proof.
  unfold complete. destruct (upsert (db r) pr) as [db' c].
  destruct (j_state j) as [[[s k] v]|], (j_source j) as [src|];
    try destruct (String.eqb src ""); cbn [newc changed snd];
    try (unfold set_state; destruct (decide _)); split; reflexivity.
Qed.

(** X6. Over the job loop of a cycle, the count of new conversations that
    [do_sync] accumulates is exactly the number of rows the conversations
    table has grown by, whatever jobs failed and in whatever order the
    others completed. *)
Theorem reported_new_is_growth (completed : list (job * result ParseResult)) (r : sync_run) :
  let r' := run_jobs completed r in
  (size (conversations (db r')) + newc r = size (conversations (db r)) + newc r')%nat.
Proof.
  unfold run_jobs. revert r.
  induction completed as [|[j [pr|e]] l IH]; intros r; cbn [fold_left]; [reflexivity|..].
  - specialize (IH (complete r (j, Ok pr))).
    rewrite complete_db, (proj1 (complete_counters r j pr)) in IH.
    assert (E : size (conversations (upsert (db r) pr).1)
                = (size (conversations (db r)) + n_new_convs (upsert (db r) pr).2)%nat)
      by (unfold upsert; cbn [fst snd conversations n_new_convs];
          apply insert_or_replace_size).
    lia.
  - specialize (IH (complete r (j, Raise e))). rewrite complete_failed in IH.
    exact IH.
Qed.

Lemma no_rows_counted (s : store) (pr : ParseResult) :
  existsb (fun n => negb (Nat.eqb n 0)) (counts5 (upsert s pr).2) = false ->
  convs pr = [] /\ msgs pr = [] /\ tools_ pr = [] /\ attachs pr = [] /\ edits pr = [].
Proof.
  unfold upsert, counts5; cbn [snd n_convs n_msgs n_tools n_attachs n_edits existsb].
  destruct (convs pr), (msgs pr), (tools_ pr), (attachs pr), (edits pr);
    cbn [length Nat.eqb negb orb]; intros Hz; try discriminate Hz; auto 10.
Qed.

(** X7. The full-text index is rebuilt whenever the indexed table may have
    changed: if the job loop ends with [changed] unset, then the messages
    table, and with it the conversations, tool-call, attachment and
    file-edit tables, are what they were before the loop. *)
Theorem unchanged_cycle_keeps_tables (completed : list (job * result ParseResult))
    (r : sync_run) :
  let r' := run_jobs completed r in
  changed r' = false ->
  messages (db r') = messages (db r)
  /\ conversations (db r') = conversations (db r)
  /\ tool_calls (db r') = tool_calls (db r)
  /\ attachments_ (db r') = attachments_ (db r)
  /\ file_edits (db r') = file_edits (db r).
Proof.
  unfold run_jobs. revert r.
  induction completed as [|[j [pr|e]] l IH]; intros r; cbn [fold_left]; [auto 10|..].
  - intros Hch. destruct (IH _ Hch) as (Hm & Hc & Ht & Ha & He).
    assert (Hstep : changed (complete r (j, Ok pr)) = false).
    { clear -Hch. revert Hch. generalize (complete r (j, Ok pr)). intros r1.
      revert r1. induction l as [|[j' [pr'|e']] l IH]; intros r1; cbn [fold_left];
        [trivial|..]; intros Hch; apply IH in Hch.
      - rewrite (proj2 (complete_counters r1 j' pr')) in Hch.
        now apply orb_false_iff in Hch as [? _].
      - exact Hch. }
    rewrite (proj2 (complete_counters r j pr)) in Hstep.
    apply orb_false_iff in Hstep as [_ Hz].
    apply no_rows_counted in Hz as (Ec & Em & Et & Ea & Ee).
    rewrite complete_db in Hm, Hc, Ht, Ha, He.
    unfold upsert in Hm, Hc, Ht, Ha, He;
      cbn [fst messages conversations tool_calls attachments_ file_edits] in Hm, Hc, Ht, Ha, He.
    rewrite Ec in Hc. rewrite Em in Hm. rewrite Et in Ht. rewrite Ea in Ha. rewrite Ee in He.
    auto 10.
  - intros Hch. apply (IH (complete r (j, Raise e))) in Hch.
    rewrite complete_failed in Hch. exact Hch.
Qed.






End ExecutorMore.

(** ** Planner and executor together *)

Lemma changed_files_same (files : list (string * Z)) :
  changed_files (mtime_map files) files = [].
Proof.
  unfold changed_files. induction (List.map fst files) as [|p l IH]; [reflexivity|].
  simpl. now rewrite Z.ltb_irrefl.
Qed.

Lemma namespace_lookup (st : state_doc) (section key : string) :
  namespace st section !! key = state_get st section key.
Proof.
  unfold namespace, state_get. destruct (st !! section); [reflexivity | apply lookup_empty].
Qed.

Lemma plan_local_stored (local local' : section_doc) (name : string) (path : fs_node) :
  local !! name = local' !! name -> plan_local local name path = plan_local local' name path.
Proof.
  intros E. unfold plan_local, stored_files, stored_mtime. now rewrite E.
Qed.

Lemma plan_import_stored (imports imports' : section_doc) (p : string) (path : fs_node) :
  imports !! p = imports' !! p -> plan_import imports p path = plan_import imports' p path.
Proof.
  intros E. unfold plan_import, stored_mtime. now rewrite E.
Qed.

Lemma plan_local_state (local : section_doc) (name : string) (path : fs_node) (j : job) :
  plan_local local name path = Some j ->
  exists val, j_state j = Some ("local", name, val)
              /\ forall local', local' !! name = Some val -> plan_local local' name path = None.
Proof.
  unfold plan_local. destruct (negb (path_exists path)); [discriminate|].
  destruct (is_session_log name).
  - destruct (changed_files _ _) as [|q chg]; [discriminate|]. intros [= <-].
    eexists. split; [reflexivity|]. intros local' E.
    unfold stored_files. rewrite E, changed_files_same. reflexivity.
  - destruct (Z.leb _ _) eqn:Hle; [discriminate|]. intros [= <-].
    eexists. split; [reflexivity|]. intros local' E.
    unfold stored_mtime. rewrite E, Z.leb_refl. reflexivity.
Qed.

Lemma plan_import_state (imports : section_doc) (p : string) (path : fs_node) (j : job) :
  plan_import imports p path = Some j ->
  exists val, j_state j = Some ("imports", p, val)
              /\ forall imports', imports' !! p = Some val -> plan_import imports' p path = None.
Proof.
  unfold plan_import. destruct (negb (path_exists path)); [discriminate|].
  destruct (Z.leb _ _) eqn:Hle; [discriminate|]. intros [= <-].
  eexists. split; [reflexivity|]. intros imports' E.
  unfold stored_mtime. rewrite E, Z.leb_refl. reflexivity.
Qed.

Section CycleFacts.
Context `{Library}.

(** X9. A job that completed is not planned again while the files stay as
    they are, and a job that raised is planned again as it was: after the
    loop body of [do_sync] has run for a job that [plan_local] or
    [plan_import] planned from the state, planning from the new state over
    the same files gives no job if the job returned a result (whatever the
    result held), and the same job if it raised. *)
Theorem completed_job_not_replanned (r : sync_run) (path : fs_node) (j : job) :
  (forall name pr e,
      plan_local (namespace (state r) "local") name path = Some j ->
      plan_local (namespace (state (complete r (j, Ok pr))) "local") name path = None
      /\ plan_local (namespace (state (complete r (j, Raise e))) "local") name path = Some j)
  /\ (forall p pr e,
        plan_import (namespace (state r) "imports") p path = Some j ->
        plan_import (namespace (state (complete r (j, Ok pr))) "imports") p path = None
        /\ plan_import (namespace (state (complete r (j, Raise e))) "imports") p path = Some j).
Proof.
  split.
  - intros name pr e Hplan. split; [|exact Hplan].
    destruct (plan_local_state _ _ _ _ Hplan) as (val & Hst & Hnone).
    apply Hnone. rewrite namespace_lookup, complete_state_get, Hst.
    now rewrite decide_True.
  - intros p pr e Hplan. split; [|exact Hplan].
    destruct (plan_import_state _ _ _ _ Hplan) as (val & Hst & Hnone).
    apply Hnone. rewrite namespace_lookup, complete_state_get, Hst.
    now rewrite decide_True.
Qed.

End CycleFacts.

(** ** Normalizers: invariants of the rows they return *)

Lemma filter_mapM_Forall {A B} (p : A -> result bool) (f : A -> result B) (Q : B -> Prop)
    (l : list A) (bs : list B) :
  filter_mapM p f l = Ok bs ->
  (forall a b, a ∈ l -> p a = Ok true -> f a = Ok b -> Q b) ->
  Forall Q bs.
Proof.
  revert bs. induction l as [|a l IH]; intros bs; simpl.
  - intros [= <-] _. constructor.
  - intros Hm HQ. inv_bind_as Hm keep Hkeep. destruct keep.
    + inv_bind_as Hm b Hb. inv_bind_as Hm bs' Hbs'. injection Hm as <-.
      constructor; [apply (HQ a b); [left | assumption..]|].
      apply IH; [assumption|]. intros a' b' Hin. apply HQ. now right.
    + apply IH; [assumption|]. intros a' b' Hin. apply HQ. now right.
Qed.

Lemma mapM_omap_Forall {A B} (f : A -> result (option B)) (Q : B -> Prop)
    (l : list A) (bs : list (option B)) :
  mapM f l = Ok bs ->
  (forall a b, a ∈ l -> f a = Ok (Some b) -> Q b) ->
  Forall Q (omap id bs).
Proof.
  intros Hm%mapM_Ok HQ. induction Hm as [|a ob l obs Hab _ IH]; simpl; [constructor|].
  destruct ob as [b|]; simpl.
  - constructor; [apply (HQ a b); [left | assumption]|].
    apply IH. intros a' b' Hin. apply HQ. now right.
  - apply IH. intros a' b' Hin. apply HQ. now right.
Qed.

Lemma elem_of_concat {A} (x : A) (ls : list (list A)) :
  x ∈ concat ls <-> exists l, l ∈ ls /\ x ∈ l.
Proof.
  induction ls as [|l ls IH]; simpl.
  - rewrite elem_of_nil. split; [tauto | intros (l & []%elem_of_nil & _)].
  - rewrite elem_of_app, IH. split.
    + intros [Hx|(l' & Hl' & Hx)]; [exists l; split; [left | assumption]|].
      exists l'. split; [now right | assumption].
    + intros (l' & [->|Hl']%elem_of_cons & Hx); [now left | right; eauto].
Qed.

Lemma Forall_concat_map {A B} (Q : B -> Prop) (g : A -> list B) (l : list A) :
  Forall (fun a => Forall Q (g a)) l -> Forall Q (concat (List.map g l)).
Proof.
  induction 1 as [|a l Ha _ IH]; simpl; [constructor | now apply Forall_app].
Qed.

Section ParserFacts.
Context `{Library}.

(** *** Claude Code sessions *)

Lemma make_msg_fields (cid : string) (idx : nat) (e : json) (m : message) :
  make_msg cid idx e = Ok m ->
  m_conversation_id m = cid
  /\ m_id m = gen_id "claude-code" (cid +:+ ":" +:+ Py.str_of_nat idx)
  /\ exists d fallback c,
       Py.subscript e "message" = Ok (JDict d)
       /\ extract_content (Py.get d "content" fallback) = Ok c
       /\ m_content m = text c.
Proof.
  unfold make_msg, message_get. intros Hm.
  inv_bind_as Hm fallback Hfb. inv_bind_as Hm body Hbody. inv_bind_as Hm c Hc.
  do 4 inv_bind Hm. injection Hm as <-. cbn [m_conversation_id m_id m_content].
  split; [reflexivity|]. split; [reflexivity|].
  inv_bind_as Hbody msg Hmsg. destruct msg as [| | | | |d]; try discriminate.
  rewrite dot_get_JDict in Hbody. injection Hbody as <-.
  exists d, fallback, c. auto.
Qed.

Lemma has_text_content (e : json) (d : list (string * json)) :
  has_text e = Ok true ->
  Py.subscript e "message" = Ok (JDict d) ->
  exists v c, Py.assoc "content" d = Some v
              /\ extract_content v = Ok c /\ text c <> ""%string.
Proof.
  unfold has_text, message_get. intros Ht Hd. rewrite Hd, mbind_Ok, dot_get_JDict, mbind_Ok in Ht.
  inv_bind_as Ht c Hc. injection Ht as Ht. apply negb_true_iff, String.eqb_neq in Ht.
  unfold Py.get in Hc. destruct (Py.assoc "content" d) as [v|]; [eauto|].
  simpl in Hc. injection Hc as <-. now elim Ht.
Qed.

Lemma claude_code_session_rows (f : session_file) (s : session) :
  parse_claude_code_session f = Ok (Some s) ->
  c_id (s_conv s) = gen_id "claude-code" (f_path f)
  /\ c_source (s_conv s) = "claude-code"%string
  /\ s_msgs s <> []
  /\ Forall (fun m => m_conversation_id m = gen_id "claude-code" (f_path f)
                      /\ m_content m <> ""%string) (s_msgs s).
Proof.
  unfold parse_claude_code_session. destruct (load_jsonl f) as [|e0 events]; [discriminate|].
  intros Hp. inv_bind_as Hp ts Hts. inv_bind_as Hp sys Hsys. inv_bind_as Hp kept Hkept.
  inv_bind_as Hp ms Hms. destruct ms as [|m0 ms]; [discriminate|].
  inv_bind_as Hp cwd Hcwd. inv_bind_as Hp branch Hbranch.
  inv_bind_as Hp tls Htls. inv_bind_as Hp eds Heds. injection Hp as <-.
  cbn [s_conv s_msgs c_id c_source]. split; [reflexivity|]. split; [reflexivity|].
  split; [discriminate|].
  eapply filter_mapM_Forall; [exact Hms|]. intros [idx e] m _ Htext Hm. simpl in Htext, Hm.
  destruct (make_msg_fields _ _ _ _ Hm) as (Hcid & _ & d & fallback & c & Hd & Hc & Hcontent).
  split; [exact Hcid|].
  destruct (has_text_content e d Htext Hd) as (v & c' & Hv & Hc' & Hne).
  unfold Py.get in Hc. rewrite Hv in Hc. rewrite Hc in Hc'. injection Hc' as <-.
  now rewrite Hcontent.
Qed.

(** *** Codex sessions *)

Lemma codex_msg_fields (cid : string) (ts : list (option datetime)) (ip : nat * json)
    (m : message) :
  codex_msg cid ts ip = Ok (Some m) ->
  m_conversation_id m = cid
  /\ Py.in_strs (m_role m) ["developer"; "system"] = false.
Proof.
  destruct ip as [i p]. unfold codex_msg. intros Hm.
  inv_bind_as Hm ty Hty. destruct (Py.eq_str ty "message"); [|discriminate].
  inv_bind_as Hm role Hrole.
  destruct (negb (Py.in_strs role ["developer"; "system"])) eqn:Hr; [|discriminate].
  inv_bind_as Hm txt Htxt. destruct (negb (String.eqb txt "")); [|discriminate].
  inv_bind_as Hm role' Hrole'. injection Hm as <-. cbn [m_conversation_id m_role].
  split; [reflexivity|].
  destruct p as [| | | | |d]; try discriminate.
  rewrite dot_get_JDict in Hrole. injection Hrole as <-.
  rewrite subscript_JDict in Hrole'. unfold Py.item in Hrole'. unfold Py.get in Hr.
  destruct (Py.assoc "role" d) as [v|]; [|discriminate]. injection Hrole' as <-.
  now apply negb_true_iff in Hr.
Qed.

Lemma codex_session_rows (f : session_file) (s : session) :
  parse_codex_session f = Ok (Some s) ->
  c_id (s_conv s) = gen_id "codex" (f_path f)
  /\ c_source (s_conv s) = "codex"%string
  /\ s_msgs s <> []
  /\ Forall (fun m => m_conversation_id m = gen_id "codex" (f_path f)
                      /\ Py.in_strs (m_role m) ["developer"; "system"] = false) (s_msgs s).
Proof.
  unfold parse_codex_session. destruct (load_jsonl f) as [|e0 events]; [discriminate|].
  intros Hp. inv_bind_as Hp ts Hts. inv_bind_as Hp meta Hmeta. inv_bind_as Hp items Hitems.
  inv_bind_as Hp found Hfound.
  destruct (omap id found) as [|m0 ms] eqn:Hmsgs; [discriminate|].
  do 6 inv_bind Hp. injection Hp as <-.
  cbn [s_conv s_msgs c_id c_source]. split; [reflexivity|]. split; [reflexivity|].
  split; [discriminate|].
  rewrite <- Hmsgs. eapply mapM_omap_Forall; [exact Hfound|].
  intros ip m _ Hm. now apply codex_msg_fields in Hm.
Qed.

(** *** Collecting sessions *)

Lemma collect_sessions (P : session_file -> session -> Prop)
    (parse : session_file -> result (option session))
    (fs : list session_file) (parsed : list (option session)) :
  mapM parse fs = Ok parsed ->
  (forall f s, parse f = Ok (Some s) -> P f s) ->
  exists kept, kept `sublist_of` fs /\ Forall2 P kept (omap id parsed).
Proof.
  intros Hm%mapM_Ok HP. induction Hm as [|f os fs oss Hf _ (kept & Hsub & Hall)]; simpl.
  - exists []. split; [reflexivity | constructor].
  - destruct os as [s|]; simpl.
    + exists (f :: kept). split; [now constructor | constructor; auto].
    + exists kept. split; [now constructor | assumption].
Qed.

Lemma collect_owned (sessions : list session) :
  Forall session_owned sessions -> messages_owned_in (collect sessions).
Proof.
  intros Hall m Hm. unfold collect in *. cbn [msgs convs] in *.
  apply elem_of_concat in Hm as (ms & (s & -> & Hs)%list_elem_of_fmap & Hin).
  rewrite Forall_forall in Hall. specialize (Hall s Hs). unfold session_owned in Hall.
  rewrite Forall_forall in Hall. rewrite (Hall m Hin).
  apply list_elem_of_fmap. exists (s_conv s). split; [reflexivity|].
  apply list_elem_of_fmap. eauto.
Qed.

(** *** Export files *)

Lemma foldM_appends {A S B} (proj : S -> list B) (Q : B -> Prop) (f : S -> A -> result S)
    (l : list A) (s s' : S) :
  (forall s a s', f s a = Ok s' -> exists new, proj s' = proj s ++ new /\ Forall Q new) ->
  foldM f l s = Ok s' ->
  exists new, proj s' = proj s ++ new /\ Forall Q new.
Proof.
  intros Hf. revert s. induction l as [|a l IH]; intros s; simpl.
  - intros [= <-]. exists []. split; [now rewrite app_nil_r | constructor].
  - intros Hm. inv_bind_as Hm s1 Hs1.
    destruct (Hf _ _ _ Hs1) as (new1 & E1 & Q1). destruct (IH _ Hm) as (new2 & E2 & Q2).
    exists (new1 ++ new2). split; [now rewrite E2, E1, app_assoc | now apply Forall_app].
Qed.

Lemma chatgpt_part_rows cid mid role ts model meta (r r' : ParseResult) ipart :
  chatgpt_part cid mid role ts model meta r ipart = Ok r' ->
  exists new, msgs r' = msgs r ++ new
              /\ Forall (fun m => m_conversation_id m = cid /\ m_content m <> ""%string) new.
Proof.
  destruct ipart as [i part]. unfold chatgpt_part.
  assert (Hsame : exists new : list message,
             msgs r = msgs r ++ new
             /\ Forall (fun m => m_conversation_id m = cid /\ m_content m <> ""%string) new)
    by (exists []; split; [now rewrite app_nil_r | constructor]).
  destruct part as [| | |s|l|d]; try (now intros [= <-]).
  - destruct (negb (String.eqb (Py.strip s) "")) eqn:Hs; intros [= <-]; [|exact Hsame].
    eexists [_]. split; [reflexivity|]. constructor; [|constructor].
    split; [reflexivity|]. now apply negb_true_iff, String.eqb_neq in Hs.
  - destruct (Py.in_strs _ _); intros [= <-]; exact Hsame.
Qed.

Lemma chatgpt_node_rows cid (r r' : ParseResult) entry :
  chatgpt_node cid r entry = Ok r' ->
  exists new, msgs r' = msgs r ++ new
              /\ Forall (fun m => m_conversation_id m = cid /\ m_content m <> ""%string) new.
Proof.
  destruct entry as [nid node]. unfold chatgpt_node. intros Hn.
  inv_bind_as Hn msg Hmsg. destruct (negb (Py.truthy msg)).
  { injection Hn as <-. exists []. split; [now rewrite app_nil_r | constructor]. }
  inv_bind_as Hn author Hauthor. inv_bind_as Hn role Hrole. inv_bind_as Hn meta Hmeta.
  inv_bind_as Hn stamp Hstamp. inv_bind_as Hn model Hmodel. inv_bind_as Hn plugin Hplugin.
  inv_bind_as Hn r1 Hr1. inv_bind_as Hn body Hbody. inv_bind_as Hn parts Hparts.
  assert (E1 : msgs r1 = msgs r).
  { destruct (Py.eq_str role "tool" || Py.truthy plugin); [|now injection Hr1 as <-].
    do 4 inv_bind Hr1. now injection Hr1 as <-. }
  rewrite <- E1.
  eapply (foldM_appends msgs); [|exact Hn].
  intros s ip s' Hp. eapply chatgpt_part_rows, Hp.
Qed.

Lemma chatgpt_conv_rows (r r' : ParseResult) (c : json) :
  chatgpt_conv r c = Ok r' ->
  exists row new,
    convs r' = convs r ++ [row] /\ msgs r' = msgs r ++ new
    /\ Forall (fun m => m_conversation_id m = c_id row /\ m_content m <> ""%string) new.
Proof.
  unfold chatgpt_conv. intros Hc. do 8 inv_bind Hc.
  pose proof Hc as Hm.
  apply (foldM_appends msgs
           (fun m => m_conversation_id m = gen_id "chatgpt" (fmt a)
                     /\ m_content m <> ""%string)) in Hm as (new & E & Q);
    [|intros s e s' He; eapply chatgpt_node_rows, He].
  eexists _, new.
  split.
  { eapply (foldM_invariant (fun s => convs s = convs r ++ [_])); [|exact Hc|reflexivity].
    intros s e s' He Hs. apply chatgpt_node_convs in He. congruence. }
  split; [exact E | exact Q].
Qed.

Lemma chatgpt_export_rows (data : json) (r : ParseResult) :
  parse_chatgpt data = Ok r ->
  messages_owned_in r /\ Forall (fun m => m_content m <> ""%string) (msgs r).
Proof.
  unfold parse_chatgpt. intros Hp. inv_bind_as Hp cs Hcs.
  eapply (foldM_invariant
            (fun s => messages_owned_in s /\ Forall (fun m => m_content m <> ""%string) (msgs s)));
    [|exact Hp|].
  - intros s c s' Hc [Hown Hne].
    apply chatgpt_conv_rows in Hc as (row & new & Ec & Em & Q).
    split.
    + intros m. rewrite Em, Ec, map_app, !elem_of_app. intros [Hm|Hm].
      * left. now apply Hown.
      * right. rewrite Forall_forall in Q. destruct (Q m Hm) as [-> _]. simpl. left.
    + rewrite Em. apply Forall_app. split; [exact Hne|].
      eapply Forall_impl; [exact Q|]. now intros m [_ ?].
  - split; [intros m []%elem_of_nil | constructor].
Qed.

Lemma claude_msg_fields (cid : string) (m : json) (row : message) :
  claude_msg cid m = Ok (Some row) ->
  m_conversation_id row = cid /\ m_content row <> ""%string.
Proof.
  unfold claude_msg. intros Hm. inv_bind_as Hm ec Hec.
  destruct (negb (String.eqb (text ec) "")) eqn:Ht; [|discriminate].
  do 4 inv_bind Hm. injection Hm as <-. cbn [m_conversation_id m_content].
  split; [reflexivity|]. now apply negb_true_iff, String.eqb_neq in Ht.
Qed.

Lemma parse_conv_rows (c : json) (pc : parsed_conv) :
  parse_conv c = Ok pc ->
  Forall (fun m => m_conversation_id m = c_id (p_conv pc) /\ m_content m <> ""%string)
         (p_msgs pc).
Proof.
  unfold parse_conv. intros Hc. inv_bind_as Hc key Hkey. do 8 inv_bind Hc.
  inv_bind_as Hc ms Hms. inv_bind_as Hc found Hfound. inv_bind_as Hc atts Hatts.
  injection Hc as <-. cbn [p_conv p_msgs c_id].
  eapply mapM_omap_Forall; [exact Hfound|].
  intros m row _ Hrow. now apply claude_msg_fields in Hrow.
Qed.

Lemma claude_export_rows (data : json) (r : ParseResult) :
  parse_claude data = Ok r ->
  messages_owned_in r /\ Forall (fun m => m_content m <> ""%string) (msgs r).
Proof.
  unfold parse_claude. intros Hp. inv_bind_as Hp cs Hcs. inv_bind_as Hp parsed Hparsed.
  injection Hp as <-. cbn [msgs].
  assert (Hall : Forall (fun pc => Forall (fun m => m_conversation_id m = c_id (p_conv pc)
                                                    /\ m_content m <> ""%string) (p_msgs pc))
                        parsed).
  { apply mapM_Ok in Hparsed. clear Hcs.
    induction Hparsed as [|c pc cs pcs Hc _ IH]; constructor; [|exact IH].
    now apply (parse_conv_rows c). }
  split.
  - intros m Hm. cbn [msgs convs] in *.
    apply elem_of_concat in Hm as (ms & (pc & -> & Hpc)%list_elem_of_fmap & Hin).
    rewrite Forall_forall in Hall. specialize (Hall pc Hpc). rewrite Forall_forall in Hall.
    destruct (Hall m Hin) as [-> _].
    apply list_elem_of_fmap. exists (p_conv pc). split; [reflexivity|].
    apply list_elem_of_fmap. eauto.
  - apply Forall_concat_map. eapply Forall_impl; [exact Hall|].
    intros pc Hpc. eapply Forall_impl; [exact Hpc|]. now intros m [_ ?].
Qed.

Lemma claude_code_sessions_owned (fs : list session_file) (parsed : list (option session)) :
  mapM parse_claude_code_session fs = Ok parsed -> Forall session_owned (omap id parsed).
Proof.
  intros Hm. eapply mapM_omap_Forall; [exact Hm|].
  intros f s _ (Hid & _ & _ & Hall)%claude_code_session_rows.
  unfold session_owned. rewrite Hid.
  eapply Forall_impl; [exact Hall|]. now intros m [? _].
Qed.

Lemma codex_sessions_owned (fs : list session_file) (parsed : list (option session)) :
  mapM parse_codex_session fs = Ok parsed -> Forall session_owned (omap id parsed).
Proof.
  intros Hm. eapply mapM_omap_Forall; [exact Hm|].
  intros f s _ (Hid & _ & _ & Hall)%codex_session_rows.
  unfold session_owned. rewrite Hid.
  eapply Forall_impl; [exact Hall|]. now intros m [? _].
Qed.

(** X10. Every message row a normalizer returns is filed under a
    conversation row of the same result: no normalizer (Claude Code logs,
    Codex logs, ChatGPT export, Claude export) emits a message whose
    conversation it does not emit. *)
Theorem parsed_messages_owned :
  (forall found files r, parse_claude_code found files = Ok r -> messages_owned_in r)
  /\ (forall sessions_exists found files r,
        parse_codex sessions_exists found files = Ok r -> messages_owned_in r)
  /\ (forall data r, parse_chatgpt data = Ok r -> messages_owned_in r)
  /\ (forall data r, parse_claude data = Ok r -> messages_owned_in r).
Proof.
  split; [|split; [|split]].
  - intros found files r Hp. unfold parse_claude_code in Hp.
    inv_bind_as Hp parsed Hparsed. injection Hp as <-.
    now apply collect_owned, (claude_code_sessions_owned (files_or files found)).
  - intros [|] found files r Hp; unfold parse_codex in Hp.
    + inv_bind_as Hp parsed Hparsed. injection Hp as <-.
      now apply collect_owned, (codex_sessions_owned (files_or files found)).
    + injection Hp as <-. intros m []%elem_of_nil.
  - intros data r Hp. now apply chatgpt_export_rows in Hp as [? _].
  - intros data r Hp. now apply claude_export_rows in Hp as [? _].
Qed.

Lemma upsert_messages_owned (s : store) (r : ParseResult) :
  messages_owned s -> messages_owned_in r -> messages_owned (upsert s r).1.
Proof.
  intros Hs Hr k m. unfold upsert; cbn [fst messages conversations].
  rewrite lookup_insert_or_replace, insert_or_replace_is_Some.
  destruct (latest m_id k (msgs r)) as [m'|] eqn:E.
  - intros [= ->]. apply latest_key in E as [_ Hin]. left. now apply Hr.
  - intros Hk. right. eapply Hs, Hk.
Qed.

(** X11. Merging keeps the store joinable: if every stored message names a
    stored conversation before the job loop, and every result the jobs
    return files its messages under its own conversations, then every
    stored message names a stored conversation after the loop, whichever
    jobs failed. *)
Theorem sync_keeps_messages_owned (completed : list (job * result ParseResult))
    (r : sync_run) :
  messages_owned (db r) ->
  (forall j pr, (j, Ok pr) ∈ completed -> messages_owned_in pr) ->
  messages_owned (db (run_jobs completed r)).
Proof.
  unfold run_jobs. revert r.
  induction completed as [|[j [pr|e]] l IH]; intros r Hs Hall; cbn [fold_left];
    [exact Hs|..].
  - apply IH; [|intros j' pr' Hin; apply (Hall j'); now right].
    rewrite complete_db. apply upsert_messages_owned; [exact Hs|].
    apply (Hall j). left.
  - apply IH; [|intros j' pr' Hin; apply (Hall j'); now right].
    rewrite complete_failed. exact Hs.
Qed.

(** X12. No message row of a Claude Code log, a ChatGPT export or a Claude
    export has an empty content: the text the row carries is the text the
    emptiness filter tested. *)
Theorem message_content_not_empty :
  (forall found files r, parse_claude_code found files = Ok r ->
     Forall (fun m => m_content m <> ""%string) (msgs r))
  /\ (forall data r, parse_chatgpt data = Ok r ->
        Forall (fun m => m_content m <> ""%string) (msgs r))
  /\ (forall data r, parse_claude data = Ok r ->
        Forall (fun m => m_content m <> ""%string) (msgs r)).
Proof.
  split; [|split].
  - intros found files r Hp. unfold parse_claude_code in Hp.
    inv_bind_as Hp parsed Hparsed. injection Hp as <-. unfold collect; cbn [msgs].
    apply Forall_concat_map.
    eapply mapM_omap_Forall; [exact Hparsed|].
    intros f s _ (_ & _ & _ & Hall)%claude_code_session_rows.
    eapply Forall_impl; [exact Hall|]. now intros m [_ ?].
  - intros data r Hp. now apply chatgpt_export_rows in Hp as [_ ?].
  - intros data r Hp. now apply claude_export_rows in Hp as [_ ?].
Qed.

(** X13. No message row of a Codex log has the role ["developer"] or
    ["system"]: the role stored is the role the filter tested. *)
Theorem codex_roles_filtered (sessions_exists : bool) (found : list session_file)
    (files : option (list session_file)) (r : ParseResult) :
  parse_codex sessions_exists found files = Ok r ->
  Forall (fun m => m_role m <> JStr "developer" /\ m_role m <> JStr "system") (msgs r).
Proof.
  destruct sessions_exists; unfold parse_codex; intros Hp; [|injection Hp as <-; constructor].
  inv_bind_as Hp parsed Hparsed. injection Hp as <-. unfold collect; cbn [msgs].
  apply Forall_concat_map.
  eapply mapM_omap_Forall; [exact Hparsed|].
  intros f s _ (_ & _ & _ & Hall)%codex_session_rows.
  eapply Forall_impl; [exact Hall|]. intros m [_ Hrole].
  split; intros E; rewrite E in Hrole; discriminate Hrole.
Qed.

(** X14. The conversations of a session-log source are keyed by file: the
    result holds one conversation row for each file that is kept, in the
    order of the files, with the identifier [gen_id(source, str(path))] and
    the source's tag, and no other conversation row; without a sessions
    directory the Codex normalizer returns nothing, whatever files it is
    given. *)
Theorem session_conversations_keyed_by_path :
  (forall found files r,
      parse_claude_code found files = Ok r ->
      exists kept, kept `sublist_of` files_or files found
                   /\ Forall2 (fun f c => c_id c = gen_id "claude-code" (f_path f)
                                          /\ c_source c = "claude-code"%string)
                              kept (convs r))
  /\ (forall found files r,
        parse_codex true found files = Ok r ->
        exists kept, kept `sublist_of` files_or files found
                     /\ Forall2 (fun f c => c_id c = gen_id "codex" (f_path f)
                                            /\ c_source c = "codex"%string)
                                kept (convs r))
  /\ (forall found files, parse_codex false found files = Ok empty_result).
Proof.
  split; [|split; [|reflexivity]].
  - intros found files r Hp. unfold parse_claude_code in Hp.
    inv_bind_as Hp parsed Hparsed. injection Hp as <-. unfold collect; cbn [convs].
    destruct (collect_sessions
                (fun f s => c_id (s_conv s) = gen_id "claude-code" (f_path f)
                            /\ c_source (s_conv s) = "claude-code"%string)
                _ _ _ Hparsed) as (kept & Hsub & Hall).
    { now intros f s (? & ? & _)%claude_code_session_rows. }
    exists kept. split; [exact Hsub|]. now apply Forall2_fmap_r.
  - intros found files r Hp. unfold parse_codex in Hp.
    inv_bind_as Hp parsed Hparsed. injection Hp as <-. unfold collect; cbn [convs].
    destruct (collect_sessions
                (fun f s => c_id (s_conv s) = gen_id "codex" (f_path f)
                            /\ c_source (s_conv s) = "codex"%string)
                _ _ _ Hparsed) as (kept & Hsub & Hall).
    { now intros f s (? & ? & _)%codex_session_rows. }
    exists kept. split; [exact Hsub|]. now apply Forall2_fmap_r.
Qed.

Lemma collect_app (l1 l2 : list session) :
  collect (l1 ++ l2) = append_results (collect l1) (collect l2).
Proof.
  unfold collect, append_results; cbn [convs msgs tools_ attachs artifacts edits].
  now rewrite !map_app, !concat_app.
Qed.

Lemma upsert_append (s : store) (r1 r2 : ParseResult) :
  (upsert s (append_results r1 r2)).1 = (upsert (upsert s r1).1 r2).1.
Proof.
  unfold upsert, append_results;
    cbn [fst convs msgs tools_ attachs artifacts edits conversations messages tool_calls
         attachments_ artifacts_ file_edits].
  f_equal; apply insert_or_replace_app.
Qed.

Lemma collected_app (parse : session_file -> result (option session))
    (fs1 fs2 : list session_file) (r : ParseResult) :
  (parsed ← mapM parse (fs1 ++ fs2); Ok (collect (omap id parsed))) = Ok r ->
  exists r1 r2,
    (parsed ← mapM parse fs1; Ok (collect (omap id parsed))) = Ok r1
    /\ (parsed ← mapM parse fs2; Ok (collect (omap id parsed))) = Ok r2
    /\ r = append_results r1 r2.
Proof.
  intros Hp. inv_bind_as Hp parsed Hparsed. injection Hp as <-.
  apply mapM_app_inv in Hparsed as (p1 & p2 & -> & -> & ->).
  eexists _, _. split; [reflexivity|]. split; [reflexivity|].
  now rewrite omap_app, collect_app.
Qed.

(** X15. A batch of session files is parsed file by file: the rows of a
    list of files are the rows of its first part followed by the rows of
    its second part, so that merging the result of the whole list leaves
    the store that merging the two results one after the other leaves.  An
    empty list of files, however, stands for every file of the source. *)
Theorem batch_parse_is_file_by_file :
  (forall found f1 fs1 f2 fs2 r s,
      parse_claude_code found (Some ((f1 :: fs1) ++ f2 :: fs2)) = Ok r ->
      exists r1 r2,
        parse_claude_code found (Some (f1 :: fs1)) = Ok r1
        /\ parse_claude_code found (Some (f2 :: fs2)) = Ok r2
        /\ r = append_results r1 r2
        /\ (upsert s r).1 = (upsert (upsert s r1).1 r2).1)
  /\ (forall found f1 fs1 f2 fs2 r s,
        parse_codex true found (Some ((f1 :: fs1) ++ f2 :: fs2)) = Ok r ->
        exists r1 r2,
          parse_codex true found (Some (f1 :: fs1)) = Ok r1
          /\ parse_codex true found (Some (f2 :: fs2)) = Ok r2
          /\ r = append_results r1 r2
          /\ (upsert s r).1 = (upsert (upsert s r1).1 r2).1)
  /\ (forall found, parse_claude_code found (Some []) = parse_claude_code found None)
  /\ (forall ex found, parse_codex ex found (Some []) = parse_codex ex found None).
Proof.
  split; [|split; [|split; reflexivity]].
  - intros found f1 fs1 f2 fs2 r s Hp.
    change ((parsed ← mapM parse_claude_code_session ((f1 :: fs1) ++ f2 :: fs2);
             Ok (collect (omap id parsed))) = Ok r) in Hp.
    destruct (collected_app parse_claude_code_session (f1 :: fs1) (f2 :: fs2) r Hp)
      as (r1 & r2 & H1 & H2 & ->).
    exists r1, r2. split; [exact H1|]. split; [exact H2|]. split; [reflexivity|].
    apply upsert_append.
  - intros found f1 fs1 f2 fs2 r s Hp.
    change ((parsed ← mapM parse_codex_session ((f1 :: fs1) ++ f2 :: fs2);
             Ok (collect (omap id parsed))) = Ok r) in Hp.
    destruct (collected_app parse_codex_session (f1 :: fs1) (f2 :: fs2) r Hp)
      as (r1 & r2 & H1 & H2 & ->).
    exists r1, r2. split; [exact H1|]. split; [exact H2|]. split; [reflexivity|].
    apply upsert_append.
Qed.

End ParserFacts.

(** ** Web planner *)

Lemma nonempty_Some (x : option string) (s : string) :
  nonempty x = Some s <-> x = Some s /\ s <> ""%string.
Proof.
  unfold nonempty. destruct x as [t|]; [|split; [discriminate | intros [[=] _]]].
  destruct (String.eqb_spec t ""); split.
  - discriminate.
  - intros [[= ->] Hne]. contradiction.
  - intros [= ->]. auto.
  - intros [[= ->] _]. reflexivity.
Qed.

Lemma browser_order_nonempty (pref : option watermark) (b : string) :
  b ∈ browser_order pref -> b <> ""%string.
Proof.
  unfold browser_order. rewrite elem_of_app. intros [Hb|Hb].
  - destruct (nonempty (pref_browser pref)) as [b0|] eqn:E; [|now apply elem_of_nil in Hb].
    apply list_elem_of_singleton in Hb as ->. now apply nonempty_Some in E as [_ ?].
  - apply list_elem_of_In, filter_In in Hb as [Hb _]. simpl in Hb.
    destruct Hb as [<-|[<-|[]]]; discriminate.
Qed.

Lemma browser_order_stored (name b : string) (head lu : option string) :
  b <> ""%string ->
  exists rest, browser_order (Some (WWeb b head lu)) = b :: rest.
Proof.
  intros Hb. unfold browser_order. simpl pref_browser.
  assert (E : nonempty (Some b) = Some b) by now apply nonempty_Some.
  rewrite E. simpl. eauto.
Qed.

Section WebFacts.
Context `{Library}.

Lemma try_browser_planned (name : string) (pref : option watermark)
    (probe : string -> result (option string)) (b : string) (j : job) :
  try_browser name pref probe b = Planned j ->
  exists head since,
    probe b = Ok head
    /\ (head = None \/ head <> pref_head pref)
    /\ j = Job name (Py.title name) (Some name) (FetchWeb name b since)
             (Some ("web", name, web_state name b head)).
Proof.
  unfold try_browser. destruct (probe b) as [head|e]; [|discriminate].
  destruct (bool_decide (is_Some head) && bool_decide (head = pref_head pref)) eqn:Hsame;
    [discriminate|].
  assert (Hdiff : head = None \/ head <> pref_head pref).
  { apply andb_false_iff in Hsame as [Hn|Hn]; apply bool_decide_eq_false in Hn.
    - left. destruct head; [|reflexivity]. elim Hn. eauto.
    - now right. }
  destruct (nonempty (pref_last_updated pref)) as [l|].
  - destruct (String.eqb name "claude").
    + destruct (ts_from_iso (JStr l)); [|discriminate].
      intros [= <-]. eauto 6.
    + intros [= <-]. eauto 6.
  - intros [= <-]. eauto 6.
Qed.

Lemma plan_web_loop_job (name : string) (pref : option watermark)
    (probe : string -> result (option string)) (order : list string)
    (errors : list (string * exn)) (r : sync_run) (j : job) :
  w_job (plan_web_loop name pref probe order errors r) = Some j ->
  w_run (plan_web_loop name pref probe order errors r) = r
  /\ w_failed (plan_web_loop name pref probe order errors r) = None
  /\ exists before b after,
       order = before ++ b :: after
       /\ try_browser name pref probe b = Planned j
       /\ Forall (fun b' => is_ok (probe b') = false
                            \/ exists e, try_browser name pref probe b' = Errored e) before.
Proof.
  revert errors. induction order as [|b rest IH]; intros errors; simpl; [discriminate|].
  destruct (try_browser name pref probe b) as [st|j'|e] eqn:Hb; simpl.
  - discriminate.
  - intros [= ->]. split; [reflexivity|]. split; [reflexivity|].
    exists [], b, rest. split; [reflexivity|]. split; [exact Hb | constructor].
  - intros Hj. destruct (IH _ Hj) as (Hr & Hf & before & b' & after & -> & Hb' & Hall).
    split; [exact Hr|]. split; [exact Hf|].
    exists (b :: before), b', after. split; [reflexivity|]. split; [exact Hb'|].
    constructor; [right; eauto | exact Hall].
Qed.

Lemma web_plan_browser (name : string) (probe : string -> result (option string))
    (r : sync_run) (j : job) (b : string) (head : option string) :
  w_job (plan_web name probe r) = Some j ->
  j_state j = Some ("web"%string, name, web_state name b head) ->
  b <> ""%string.
Proof.
  unfold plan_web. intros Hj Hst.
  destruct (plan_web_loop_job _ _ _ _ _ _ _ Hj)
    as (_ & _ & before & b0 & after & Ho & Hb & _).
  destruct (try_browser_planned _ _ _ _ _ Hb) as (head0 & since & _ & _ & ->).
  cbn [j_state] in Hst. unfold web_state in Hst. injection Hst as <- _ _.
  apply (browser_order_nonempty (namespace (state r) "web" !! name)).
  rewrite Ho. apply elem_of_app. right. left.
Qed.

(** X16. The web planner plans a fetch only for a head it has not stored: a
    job comes from a browser of the order that answered the probe, after
    every browser before it failed; the head that browser returned is
    [None] or differs from the stored head; the job carries that browser
    and that head as its watermark; and planning it changed nothing in the
    variables of the cycle and printed no failure. *)
Theorem web_job_only_on_new_head (name : string) (probe : string -> result (option string))
    (r : sync_run) (j : job) :
  w_job (plan_web name probe r) = Some j ->
  let pref := namespace (state r) "web" !! name in
  exists before b after head since,
    browser_order pref = before ++ b :: after
    /\ Forall (fun b' => is_ok (probe b') = false
                         \/ exists e, try_browser name pref probe b' = Errored e) before
    /\ probe b = Ok head
    /\ (head = None \/ head <> pref_head pref)
    /\ j = Job name (Py.title name) (Some name) (FetchWeb name b since)
               (Some ("web", name, web_state name b head))
    /\ w_run (plan_web name probe r) = r
    /\ w_failed (plan_web name probe r) = None.
Proof.
  intros Hj. cbv zeta. unfold plan_web in Hj |- *.
  destruct (plan_web_loop_job _ _ _ _ _ _ _ Hj)
    as (Hr & Hf & before & b & after & Ho & Hb & Hall).
  destruct (try_browser_planned _ _ _ _ _ Hb) as (head & since & Hp & Hd & Ej).
  exists before, b, after, head, since. auto 10.
Qed.

(** X17. A web job that completed is not planned again while the service
    reports the same head: once the loop body of [do_sync] has run for a
    job that [plan_web] planned on a head [h] seen through browser [b],
    planning again with a probe that answers [h] for [b] tries [b] first,
    plans nothing, prints no failure and keeps the watermark. *)
Theorem web_job_not_replanned (name : string) (probe probe' : string -> result (option string))
    (r : sync_run) (j : job) (pr : ParseResult) (b h : string) :
  w_job (plan_web name probe r) = Some j ->
  j_state j = Some ("web"%string, name, web_state name b (Some h)) ->
  probe' b = Ok (Some h) ->
  let p := plan_web name probe' (complete r (j, Ok pr)) in
  w_job p = None
  /\ w_failed p = None
  /\ state_get (state (w_run p)) "web" name = Some (web_state name b (Some h)).
Proof.
  intros Hj Hst Hp'.
  pose proof (web_plan_browser name probe r j b (Some h) Hj Hst) as Hb.
  assert (Hstored : namespace (state (complete r (j, Ok pr))) "web" !! name
                    = Some (web_state name b (Some h))).
  { rewrite namespace_lookup, complete_state_get, Hst. now rewrite decide_True. }
  unfold plan_web. cbv zeta. rewrite Hstored. unfold web_state.
  destruct (browser_order_stored name b (Some h)
              (nonempty (last_updated_of name (Some h))) Hb) as [rest ->].
  cbn [plan_web_loop]. unfold try_browser. rewrite Hp'. cbn [pref_head].
  rewrite !bool_decide_eq_true_2 by eauto. cbn [andb w_job w_failed w_run].
  split; [reflexivity|]. split; [reflexivity|].
  rewrite set_state_get. now rewrite decide_True.
Qed.

Lemma browser_order_not_nil (pref : option watermark) : browser_order pref <> [].
Proof.
  unfold browser_order. intros [_ E]%app_eq_nil. revert E. simpl.
  destruct (pref_browser pref) as [b|]; [|discriminate].
  destruct (decide (Some "safari"%string = Some b)) as [[= <-]|Hne].
  - rewrite bool_decide_eq_true_2 by reflexivity. simpl. discriminate.
  - rewrite bool_decide_eq_false_2 by exact Hne. discriminate.
Qed.

Lemma plan_web_loop_all_fail (name : string) (pref : option watermark)
    (probe : string -> result (option string)) (order : list string)
    (errors : list (string * exn)) (r : sync_run) :
  Forall (fun b => is_ok (probe b) = false) order ->
  exists errs,
    Forall2 (fun b be => be.1 = b /\ probe b = Raise be.2) order errs
    /\ plan_web_loop name pref probe order errors r
       = WebPlan None r (match errors ++ errs with [] => None | l => Some l end).
Proof.
  intros Hall. revert errors. induction Hall as [|b rest Hb _ IH]; intros errors.
  - exists []. split; [constructor|]. simpl. rewrite app_nil_r. now destruct errors.
  - simpl. unfold try_browser. destruct (probe b) as [head|e] eqn:Hp; [discriminate|].
    destruct (IH (errors ++ [(b, e)])) as (errs & Hf & ->).
    exists ((b, e) :: errs). split; [constructor; auto|].
    now rewrite <- app_assoc.
Qed.

(** X18. When the probe fails for every browser of the order (the stored
    browser if there is one, then safari and chrome), the web planner plans
    nothing, leaves the variables of the cycle as they were, and prints one
    failure line that lists every browser it tried, in order, each with the
    exception its probe raised. *)
Theorem web_plan_when_probes_fail (name : string) (probe : string -> result (option string))
    (r : sync_run) :
  let order := browser_order (namespace (state r) "web" !! name) in
  Forall (fun b => is_ok (probe b) = false) order ->
  let p := plan_web name probe r in
  w_job p = None /\ w_run p = r
  /\ exists errs, w_failed p = Some errs /\ errs <> []
                  /\ Forall2 (fun b be => be.1 = b /\ probe b = Raise be.2) order errs.
Proof.
  intros order Hall p. subst p. unfold plan_web. fold order.
  destruct (plan_web_loop_all_fail name (namespace (state r) "web" !! name) probe order [] r Hall)
    as (errs & Hf & ->).
  cbn [w_job w_run w_failed app]. split; [reflexivity|]. split; [reflexivity|].
  assert (Hne : errs <> []).
  { intros ->. inversion Hf as [Ho|]. now apply (browser_order_not_nil (namespace (state r) "web" !! name)). }
  exists errs. destruct errs; [contradiction|]. auto.
Qed.

End WebFacts.

(** ** HTTP helper *)

Lemma fetch_loop_failing (attempt : nat -> result json) (retries : Z) (k todo i : nat)
    (sleeps : list Z) :
  (forall n, (i <= n < i + k)%nat -> is_ok (attempt n) = false) ->
  (Z.of_nat (i + k) <= retries) ->
  (k <= todo)%nat ->
  fetch_loop attempt retries todo i sleeps
  = fetch_loop attempt retries (todo - k) (i + k)
               (sleeps ++ List.map (fun n => 1 + Z.of_nat n) (seq i k)).
Proof.
  revert todo i sleeps. induction k as [|k IH]; intros todo i sleeps Hfail Hle Htodo.
  - simpl. now rewrite Nat.sub_0_r, Nat.add_0_r, app_nil_r.
  - destruct todo as [|todo]; [lia|]. cbn [fetch_loop].
    specialize (Hfail i) as Hi. destruct (attempt i) as [v|e]; [discriminate Hi; lia|].
    destruct (Z.eqb_spec (Z.of_nat i) retries) as [E|_]; [lia|].
    rewrite IH; [|intros n Hn; apply Hfail; lia|lia|lia].
    cbn [seq List.map]. rewrite <- app_assoc. simpl.
    now replace (S (i + k))%nat with (i + S k)%nat by lia.
Qed.

(** X19. The retry contract of [fetch_json], for [retries >= 0]: the
    document returned is that of the first pass that does not raise, after
    [k] failed passes it has made [k+1] requests and slept 1, 2, ..., [k]
    seconds; when all [retries+1] passes raise it makes exactly
    [retries+1] requests, sleeps 1, ..., [retries] seconds (not after the
    last pass) and raises the exception of the last pass; the loop never
    ends without a [return] or a [raise].  With a negative [retries] the
    loop body never runs: no request is made and the function returns
    [None]. *)
Theorem fetch_json_retries (attempt : nat -> result json) (retries : Z) :
  (forall k v,
      0 <= retries -> Z.of_nat k <= retries ->
      (forall n, (n < k)%nat -> is_ok (attempt n) = false) ->
      attempt k = Ok v ->
      fetch_json attempt retries
      = Fetched (Ok (Some v)) (S k) (List.map (fun n => 1 + Z.of_nat n) (seq 0 k)))
  /\ (forall e,
        0 <= retries ->
        (forall n, Z.of_nat n <= retries -> is_ok (attempt n) = false) ->
        attempt (Z.to_nat retries) = Raise e ->
        fetch_json attempt retries
        = Fetched (Raise e) (S (Z.to_nat retries))
                  (List.map (fun n => 1 + Z.of_nat n) (seq 0 (Z.to_nat retries))))
  /\ (0 <= retries -> f_result (fetch_json attempt retries) <> Ok None)
  /\ (retries < 0 -> fetch_json attempt retries = Fetched (Ok None) 0 []).
Proof.
  split; [|split; [|split]].
  - intros k v H0 Hk Hfail Hv. unfold fetch_json.
    rewrite (fetch_loop_failing attempt retries k); [|intros n Hn; apply Hfail; lia|lia|lia].
    replace (Z.to_nat (retries + 1) - k)%nat with (S (Z.to_nat retries - k)) by lia.
    cbn [fetch_loop plus app]. now rewrite Hv.
  - intros e H0 Hfail He. unfold fetch_json.
    rewrite (fetch_loop_failing attempt retries (Z.to_nat retries));
      [|intros n Hn; apply Hfail; lia|lia|lia].
    replace (Z.to_nat (retries + 1) - Z.to_nat retries)%nat with 1%nat by lia.
    cbn [fetch_loop plus app]. rewrite He.
    destruct (Z.eqb_spec (Z.of_nat (Z.to_nat retries)) retries) as [_|Hne]; [reflexivity | lia].
  - intros H0. unfold fetch_json.
    assert (G : forall todo i sleeps,
               Z.of_nat i + Z.of_nat todo = retries + 1 -> (0 < todo)%nat ->
               f_result (fetch_loop attempt retries todo i sleeps) <> Ok None).
    { induction todo as [|todo IH]; intros i sleeps Hsum Hpos; [lia|].
      cbn [fetch_loop]. destruct (attempt i) as [v|e]; [discriminate|].
      destruct (Z.eqb_spec (Z.of_nat i) retries) as [E|Hne]; [discriminate|].
      apply IH; lia. }
    apply G; lia.
  - intros Hneg. unfold fetch_json.
    replace (Z.to_nat (retries + 1)) with 0%nat by lia. reflexivity.
Qed.

(** ** Ad-hoc import *)

Lemma outcome_bind_Returns {A B} (r : outcome A) (k : A -> outcome B) (b : B) :
  (r ≫= k) = Returns b <-> exists a, r = Returns a /\ k a = Returns b.
Proof.
  destruct r as [a|e]; simpl.
  - split; [eauto | intros (a' & [= <-] & Hk); exact Hk].
  - split; [discriminate | intros (a' & Ha & _); discriminate].
Qed.

Lemma lift_not_unknown {A} (r : result A) (s : string) : lift r <> Fails (UnknownSource s).
Proof. destruct r; discriminate. Qed.

Lemma first_item_not_unknown (data : json) (s : string) :
  first_item data <> Fails (UnknownSource s).
Proof.
  destruct data as [| | |t|l|d]; try discriminate.
  - simpl. destruct (Py.chars t); discriminate.
  - destruct l; discriminate.
Qed.

Lemma detect_source_outcome (p : source_path) :
  (exists src, detect_source p = Returns src /\ src ∈ ["chatgpt"; "claude"; "claude-code"; "codex"]%string)
  \/ (exists e, detect_source p = Fails e /\ forall s, e <> UnknownSource s).
Proof.
  unfold detect_source. destruct (sp_is_dir p).
  { left. destruct (sp_sessions_exists p); eexists; (split; [reflexivity | set_solver]). }
  destruct (String.eqb (sp_suffix p) ".zip" || Py.is_infix "chatgpt" (Py.lower (sp_name p))).
  { left. eexists. split; [reflexivity | set_solver]. }
  destruct (sp_document p) as [data|e]; simpl;
    [|right; eexists; split; [reflexivity | discriminate]].
  destruct (first_item data) as [x|e] eqn:Hx; simpl.
  2:{ right. eexists. split; [reflexivity|]. intros s ->.
      now apply (first_item_not_unknown data s). }
  destruct (Py.contains x "mapping") as [[|]|e]; simpl.
  - left. eexists. split; [reflexivity | set_solver].
  - destruct (Py.contains x "chat_messages") as [[|]|e]; simpl.
    + left. eexists. split; [reflexivity | set_solver].
    + left. eexists. split; [reflexivity | set_solver].
    + right. eexists. split; [reflexivity | discriminate].
  - right. eexists. split; [reflexivity | discriminate].
Qed.

Section ImportFacts.
Context `{Library}.

(** X20. The dispatch of an import knows every source it detects:
    [detect_source] returns only keys of the parser table, so that
    [parse_source] raises "Unknown source" exactly when it is given an
    explicit, non-empty source that is not one of the four keys; an empty
    source is detected like a missing one. *)
Theorem import_dispatch_total (p : source_path) :
  (forall src, detect_source p = Returns src -> src ∈ known_sources)
  /\ (forall source s,
        parse_source p source = Fails (UnknownSource s)
        <-> nonempty source = Some s /\ s ∉ known_sources)
  /\ parse_source p (Some ""%string) = parse_source p None.
Proof.
  split; [|split; [|reflexivity]].
  - intros src Hd. destruct (detect_source_outcome p) as [(src' & E & Hin)|(e & E & _)];
      rewrite E in Hd; [|discriminate]. now injection Hd as <-.
  - intros source s. unfold parse_source.
    destruct (nonempty source) as [s0|] eqn:Hs; simpl.
    + destruct (decide (s0 ∈ known_sources)) as [Hin|Hout].
      * rewrite bool_decide_eq_true_2 by exact Hin. simpl. split.
        -- intros E. now apply lift_not_unknown in E.
        -- intros [[= ->] Hn]. contradiction.
      * rewrite bool_decide_eq_false_2 by exact Hout. simpl. split.
        -- intros [= ->]. auto.
        -- now intros [[= ->] _].
    + split; [|intros [[=] _]].
      destruct (detect_source_outcome p) as [(src & E & Hin)|(e & E & Hne)]; rewrite E; simpl.
      * rewrite bool_decide_eq_true_2 by exact Hin. simpl.
        intros E'. now apply lift_not_unknown in E'.
      * intros [= ->]. now elim (Hne s).
Qed.

Lemma parse_conv_source (c : json) (pc : parsed_conv) :
  parse_conv c = Ok pc -> c_source (p_conv pc) = "claude"%string.
Proof.
  unfold parse_conv. intros Hc. do 12 inv_bind Hc. now injection Hc as <-.
Qed.

Lemma run_parser_tagged (src : string) (p : source_path) (r : ParseResult) :
  src ∈ known_sources ->
  run_parser src p = Ok r ->
  Forall (fun c => c_source c = src) (convs r).
Proof.
  unfold known_sources. intros Hin Hr.
  assert (Hcases : src = "chatgpt"%string \/ src = "claude"%string
                   \/ src = "claude-code"%string \/ src = "codex"%string) by set_solver.
  clear Hin. unfold run_parser in Hr.
  destruct Hcases as [-> | [-> | [-> | ->]]]; simpl in Hr.
  - inv_bind_as Hr data Hdata. unfold parse_chatgpt in Hr. inv_bind_as Hr cs Hcs.
    apply foldM_chatgpt_conv in Hr as (rows & -> & Hall). simpl.
    clear Hcs. induction Hall as [|c row cs rows (oid & _ & _ & Hsrc) _ IH];
      constructor; assumption.
  - inv_bind_as Hr data Hdata. unfold parse_claude in Hr. inv_bind_as Hr cs Hcs.
    inv_bind_as Hr parsed Hparsed. injection Hr as <-. cbn [convs].
    apply mapM_Ok in Hparsed. clear Hcs.
    induction Hparsed as [|c pc cs pcs Hc _ IH]; simpl; constructor; [|exact IH].
    now apply (parse_conv_source c).
  - unfold parse_claude_code in Hr. inv_bind_as Hr parsed Hparsed. injection Hr as <-.
    unfold collect; cbn [convs]. apply Forall_fmap.
    eapply mapM_omap_Forall; [exact Hparsed|].
    now intros f s _ (_ & ? & _)%claude_code_session_rows.
  - unfold parse_codex in Hr. destruct (sp_sessions_exists p);
      [|injection Hr as <-; constructor].
    inv_bind_as Hr parsed Hparsed. injection Hr as <-.
    unfold collect; cbn [convs]. apply Forall_fmap.
    eapply mapM_omap_Forall; [exact Hparsed|].
    now intros f s _ (_ & ? & _)%codex_session_rows.
Qed.

(** X21. The rows of an import are tagged with the source it was
    dispatched to: when [parse_source] returns, every conversation row of
    the result carries the source that was given, or, if none was given,
    the source [detect_source] found, and that source is one of the four
    keys of the parser table. *)
Theorem import_rows_tagged (p : source_path) (source : option string) (r : ParseResult) :
  parse_source p source = Returns r ->
  exists src,
    src ∈ known_sources
    /\ (nonempty source = Some src
        \/ (nonempty source = None /\ detect_source p = Returns src))
    /\ Forall (fun c => c_source c = src) (convs r).
Proof.
  unfold parse_source. intros Hp.
  apply outcome_bind_Returns in Hp as (src & Hsrc & Hp).
  destruct (decide (src ∈ known_sources)) as [Hin|Hout].
  - rewrite bool_decide_eq_true_2 in Hp by exact Hin. simpl in Hp.
    destruct (run_parser src p) as [r'|e] eqn:Hr; [|discriminate]. injection Hp as ->.
    exists src. split; [exact Hin|]. split.
    + destruct (nonempty source) as [s|]; [left; congruence | right; auto].
    + now apply (run_parser_tagged src p).
  - rewrite bool_decide_eq_false_2 in Hp by exact Hout. discriminate.
Qed.

End ImportFacts.

(** ** Claude Code sessions: the rows of one event *)

Lemma mapM_elem {A B} (f : A -> result B) (l : list A) (bs : list B) (a : A) :
  mapM f l = Ok bs -> a ∈ l -> exists b, f a = Ok b /\ b ∈ bs.
Proof.
  intros Hm%mapM_Ok. induction Hm as [|x b l bs Hx _ IH]; [intros []%elem_of_nil|].
  intros [->|Hin]%elem_of_cons.
  - exists b. split; [assumption | left].
  - destruct (IH Hin) as (b' & ? & ?). exists b'. split; [assumption | now right].
Qed.

Lemma filter_mapM_elem {A B} (p : A -> result bool) (f : A -> result B) (l : list A)
    (bs : list B) (a : A) :
  filter_mapM p f l = Ok bs -> a ∈ l -> p a = Ok true -> exists b, f a = Ok b /\ b ∈ bs.
Proof.
  revert bs. induction l as [|x l IH]; intros bs; simpl; [intros _ []%elem_of_nil|].
  intros Hm Hin Hp. inv_bind_as Hm keep Hkeep. destruct keep.
  - inv_bind_as Hm b Hb. inv_bind_as Hm bs' Hbs'. injection Hm as <-.
    apply elem_of_cons in Hin as [->|Hin].
    + exists b. split; [assumption | left].
    + destruct (IH _ Hbs' Hin Hp) as (b' & ? & ?). exists b'. split; [assumption | now right].
  - apply elem_of_cons in Hin as [->|Hin]; [congruence|]. now apply IH.
Qed.

Lemma concatM_elem {A B} (f : A -> result (list B)) (l : list A) (bs : list B) (a : A) :
  concatM f l = Ok bs -> a ∈ l -> exists rows, f a = Ok rows /\ forall x, x ∈ rows -> x ∈ bs.
Proof.
  unfold concatM. intros Hc Hin. inv_bind_as Hc bss Hbss. injection Hc as <-.
  destruct (mapM_elem _ _ _ _ Hbss Hin) as (rows & Hrows & Hmem).
  exists rows. split; [exact Hrows|]. intros x Hx. apply elem_of_concat. eauto.
Qed.

Section SessionRows.
Context `{Library}.

Lemma make_tool_fields (cid : string) (idx : nat) (mid : string) (ts : option datetime)
    (j : nat) (t : json) (row : tool_call) :
  make_tool cid idx mid ts (j, t) = Ok row ->
  t_id row = gen_id "claude-code"
               ("tool:" +:+ cid +:+ ":" +:+ Py.str_of_nat idx +:+ ":" +:+ Py.str_of_nat j)
  /\ t_message_id row = mid.
Proof.
  unfold make_tool. intros Hm. do 6 inv_bind Hm. injection Hm as <-. auto.
Qed.

(** X23. In a Claude Code session that is kept, the rows of one message
    event hang together: every tool entry of the event's content yields a
    tool-call row of the session, every [Write], [Edit] or [MultiEdit] entry
    with a file path yields a file-edit row of the session, all of them
    under the message identifier of that event, and if the event has text
    the session holds the message row with that identifier. *)
Theorem session_rows_of_event (f : session_file) (s : session) (evs : list json)
    (idx : nat) (e body : json) (c : content) :
  parse_claude_code_session f = Ok (Some s) ->
  filter_mapM (fun e => Py.contains e "message") Ok (load_jsonl f) = Ok evs ->
  evs !! idx = Some e ->
  message_get e "content" (JList []) = Ok body ->
  extract_content body = Ok c ->
  let cid := gen_id "claude-code" (f_path f) in
  let mid := gen_id "claude-code" (cid +:+ ":" +:+ Py.str_of_nat idx) in
  (forall j t, tools c !! j = Some t ->
     exists row, row ∈ s_tools s
       /\ t_id row = gen_id "claude-code"
                       ("tool:" +:+ cid +:+ ":" +:+ Py.str_of_nat idx +:+ ":" +:+ Py.str_of_nat j)
       /\ t_message_id row = mid)
  /\ (forall j d input name,
        tools c !! j = Some (JDict d) ->
        Py.get_none d "name" = JStr name ->
        name ∈ ["Write"; "Edit"; "MultiEdit"]%string ->
        Py.get d "input" (JDict []) = JDict input ->
        Py.truthy (Py.get_none input "file_path") = true ->
        exists row, row ∈ s_edits s
          /\ e_id row = gen_id "claude-code"
                          ("edit:" +:+ cid +:+ ":" +:+ Py.str_of_nat idx +:+ ":" +:+ Py.str_of_nat j)
          /\ e_message_id row = mid
          /\ e_file_path row = Py.get_none input "file_path"
          /\ e_edit_type row = Py.lower name)
  /\ (has_text e = Ok true -> exists m, m ∈ s_msgs s /\ m_id m = mid).
Proof.
  intros Hp Hevs Hidx Hbody Hc cid mid.
  unfold parse_claude_code_session in Hp.
  destruct (load_jsonl f) as [|e0 events]; [discriminate|].
  inv_bind_as Hp ts Hts. inv_bind_as Hp sys Hsys. rewrite Hevs, mbind_Ok in Hp.
  inv_bind_as Hp ms Hms. destruct ms as [|m0 ms]; [discriminate|].
  inv_bind_as Hp cwd Hcwd. inv_bind_as Hp branch Hbranch.
  inv_bind_as Hp tls Htls. inv_bind_as Hp eds Heds. injection Hp as <-.
  cbn [s_tools s_edits s_msgs]. fold cid in Hms, Htls, Heds.
  assert (Hin : (idx, e) ∈ Py.enumerate evs) by now apply elem_of_enumerate.
  split; [|split].
  - intros j t Hj.
    destruct (concatM_elem _ _ _ _ Htls Hin) as (rows & Hrows & Hsub). simpl in Hrows.
    unfold make_tools in Hrows. rewrite Hbody, mbind_Ok, Hc, mbind_Ok in Hrows.
    inv_bind_as Hrows stamp Hstamp. inv_bind_as Hrows t0 Ht0.
    destruct (mapM_elem _ _ _ (j, t) Hrows) as (row & Hrow & Hmem);
      [now apply elem_of_enumerate|].
    apply make_tool_fields in Hrow as [Hid Hmid].
    exists row. split; [now apply Hsub|]. split; [exact Hid | exact Hmid].
  - intros j d input name Hj Hname Hn Hinput Hfp.
    destruct (concatM_elem _ _ _ _ Heds Hin) as (rows & Hrows & Hsub). simpl in Hrows.
    unfold make_edits in Hrows. rewrite Hbody, mbind_Ok, Hc, mbind_Ok in Hrows.
    inv_bind_as Hrows stamp Hstamp. inv_bind_as Hrows t0 Ht0.
    destruct (filter_mapM_elem _ _ _ _ (j, JDict d) Hrows) as (row & Hrow & Hmem).
    + now apply elem_of_enumerate.
    + simpl. now apply (is_file_edit_true d input name).
    + rewrite (make_edit_ok _ _ _ _ _ d input name) in Hrow by assumption.
      injection Hrow as <-. eexists. split; [apply Hsub, Hmem|]. simpl. auto.
  - intros Htext.
    destruct (filter_mapM_elem _ _ _ _ (idx, e) Hms Hin Htext) as (m & Hm & Hmem).
    simpl in Hm. apply make_msg_fields in Hm as (_ & Hid & _).
    exists m. split; [exact Hmem | exact Hid].
Qed.

End SessionRows.

(** ** The web fetcher and the export normalizer of ChatGPT agree *)

Section WebItemFacts.
Context `{Library}.

Lemma item_part_sim cid mid role ts model meta (a : item_rows) (r r' : ParseResult) ipart :
  same_rows a r ->
  chatgpt_part cid mid role ts model meta r ipart = Ok r' ->
  exists a', item_part cid mid role ts model meta a ipart = Ok a' /\ same_rows a' r'.
Proof.
  intros (Em & Et & Ea). destruct ipart as [i part]. unfold chatgpt_part, item_part.
  destruct part as [| | |s|l|d]; try (intros [= <-]; eexists; split; [reflexivity|];
    repeat split; assumption).
  - destruct (negb (String.eqb (Py.strip s) "")); intros [= <-]; eexists;
      (split; [reflexivity|]); repeat split; simpl; congruence.
  - destruct (Py.in_strs _ _); intros [= <-]; eexists;
      (split; [reflexivity|]); repeat split; simpl; congruence.
Qed.

Lemma foldM_sim {A S T} (R : T -> S -> Prop) (f : S -> A -> result S) (g : T -> A -> result T)
    (l : list A) (s s' : S) (t : T) :
  (forall t s s' x, R t s -> f s x = Ok s' -> exists t', g t x = Ok t' /\ R t' s') ->
  R t s -> foldM f l s = Ok s' -> exists t', foldM g l t = Ok t' /\ R t' s'.
Proof.
  intros Hstep. revert s t. induction l as [|x l IH]; intros s t HR; simpl.
  - intros [= <-]. eauto.
  - intros Hf. inv_bind_as Hf s1 Hs1.
    destruct (Hstep _ _ _ _ HR Hs1) as (t1 & -> & HR1). rewrite mbind_Ok.
    now apply (IH s1).
Qed.

Lemma item_node_sim cid (a : item_rows) (r r' : ParseResult) entry :
  same_rows a r ->
  chatgpt_node cid r entry = Ok r' ->
  exists a', item_node cid a entry = Ok a' /\ same_rows a' r'.
Proof.
  intros Hsame. destruct entry as [nid node]. unfold chatgpt_node, item_node. intros Hn.
  inv_bind_as Hn msg Hmsg. rewrite Hmsg, mbind_Ok.
  destruct (negb (Py.truthy msg)); [injection Hn as <-; eauto|].
  inv_bind_as Hn author Hauthor. rewrite Hauthor, mbind_Ok.
  inv_bind_as Hn role Hrole. rewrite Hrole, mbind_Ok.
  inv_bind_as Hn meta Hmeta. rewrite Hmeta, mbind_Ok.
  inv_bind_as Hn stamp Hstamp. rewrite Hstamp, mbind_Ok.
  inv_bind_as Hn model Hmodel. rewrite Hmodel, mbind_Ok.
  inv_bind_as Hn plugin Hplugin. rewrite Hplugin, mbind_Ok.
  inv_bind_as Hn r1 Hr1.
  assert (Ha1 : exists a1,
             (if Py.eq_str role "tool" || Py.truthy plugin then
                plugin' ← Py.dot_get meta "invoked_plugin" (JDict []);
                name ← Py.dot_get plugin' "namespace" role;
                args ← Py.dot_get meta "args" (JDict []);
                out ← Py.dot_get msg "content" (JDict []);
                Ok (ItemRows (i_msgs a)
                      (i_tools a ++
                       [ToolCall (gen_id "chatgpt" ("tool:" +:+ gen_id "chatgpt" (cid +:+ ":" +:+ nid)))
                                 (gen_id "chatgpt" (cid +:+ ":" +:+ nid)) name
                                 (dumps args) (dumps out) "complete" JNull (ts_from_epoch stamp)])
                      (i_attachs a))
              else Ok a) = Ok a1 /\ same_rows a1 r1).
  { destruct Hsame as (Em & Et & Ea).
    destruct (Py.eq_str role "tool" || Py.truthy plugin).
    - inv_bind_as Hr1 plugin' Hp'. rewrite Hp', mbind_Ok.
      inv_bind_as Hr1 name Hname. rewrite Hname, mbind_Ok.
      inv_bind_as Hr1 args Hargs. rewrite Hargs, mbind_Ok.
      inv_bind_as Hr1 out Hout. rewrite Hout, mbind_Ok.
      injection Hr1 as <-. eexists. split; [reflexivity|].
      repeat split; simpl; congruence.
    - injection Hr1 as <-. eexists. split; [reflexivity|]. repeat split; assumption. }
  destruct Ha1 as (a1 & -> & Hsame1). rewrite mbind_Ok.
  inv_bind_as Hn body Hbody. rewrite Hbody, mbind_Ok.
  inv_bind_as Hn parts Hparts. rewrite Hparts, mbind_Ok.
  eapply (foldM_sim same_rows); [|exact Hsame1|exact Hn].
  intros t s s' x HR Hs. eapply item_part_sim; eassumption.
Qed.

Lemma upsert_known_ids (s : store) (r : ParseResult) :
  (forall k, k ∈ List.map c_id (convs r) -> is_Some (conversations s !! k)) ->
  (forall k, k ∈ List.map m_id (msgs r) -> is_Some (messages s !! k)) ->
  n_new_convs (upsert s r).2 = 0%nat /\ n_updated (upsert s r).2 = 0%nat.
Proof.
  intros Hc Hm. unfold upsert; cbn [snd n_new_convs n_updated].
  assert (Ec : list_to_set (List.map c_id (convs r))
               ∖ select_ids (List.map c_id (convs r)) (conversations s) = (∅ : gset string)).
  { apply set_eq; intros k. rewrite elem_of_difference, select_ids_spec, elem_of_list_to_set.
    split; [intros [Hk Hn]; elim Hn; auto | intros []%elem_of_empty]. }
  assert (Em : list_to_set (List.map m_id (msgs r))
               ∖ select_ids (List.map m_id (msgs r)) (messages s) = (∅ : gset string)).
  { apply set_eq; intros k. rewrite elem_of_difference, select_ids_spec, elem_of_list_to_set.
    split; [intros [Hk Hn]; elim Hn; auto | intros []%elem_of_empty]. }
  rewrite Ec, Em. split; [apply size_empty|].
  replace (List.filter (fun m => bool_decide (m_id m ∈ (∅ : gset string))) (msgs r))
    with (@nil message).
  - apply size_empty_iff. set_solver.
  - clear. induction (msgs r) as [|m l IH]; [reflexivity|]. simpl.
    rewrite bool_decide_eq_false_2 by set_solver. exact IH.
Qed.

(** X24. The web fetcher and the export normalizer of ChatGPT give one
    conversation the same rows: when the export normalizer returns for a
    conversation object, and the listing entry of the web service carries
    the same identifier and the conversation document it serves the same
    mapping, [parse_item] returns too, with the same conversation
    identifier and exactly the message, tool-call and attachment rows of
    the export; merged after the export, the fetched rows are reported as
    no new and no updated conversation. *)
Theorem web_item_agrees_with_export (base : string) (fetch : string -> result json)
    (item c conv oid mapping : json) (r : ParseResult) (s : store) :
  Py.subscript item "id" = Ok oid ->
  Py.dot_get c "id" (JStr "") = Ok oid ->
  fetch (conversation_url base oid) = Ok conv ->
  Py.dot_get conv "mapping" (JDict []) = Ok mapping ->
  Py.dot_get c "mapping" (JDict []) = Ok mapping ->
  chatgpt_conv empty_result c = Ok r ->
  exists p,
    parse_item base fetch item = Ok p
    /\ List.map c_id (convs r) = [c_id (pi_conv p)]
    /\ msgs r = i_msgs (pi_rows p)
    /\ tools_ r = i_tools (pi_rows p)
    /\ attachs r = i_attachs (pi_rows p)
    /\ (let fetched := mkParseResult [pi_conv p] (i_msgs (pi_rows p)) (i_tools (pi_rows p))
                                     (i_attachs (pi_rows p)) [] [] in
        let counts := (upsert (upsert s r).1 fetched).2 in
        n_new_convs counts = 0%nat /\ n_updated counts = 0%nat).
Proof.
  intros Hitem Hid Hfetch Hmap Hcmap Hr.
  assert (Hconvs : exists row, convs r = [row] /\ c_id row = gen_id "chatgpt" (fmt oid)).
  { destruct (chatgpt_conv_convs _ _ _ Hr) as (oid' & row & Hoid' & Hrow & Hrid & _).
    rewrite Hid in Hoid'. injection Hoid' as <-. exists row. split; [exact Hrow | exact Hrid]. }
  unfold chatgpt_conv in Hr. rewrite Hid, mbind_Ok in Hr.
  inv_bind_as Hr gizmo Hgizmo. inv_bind_as Hr title Htitle. inv_bind_as Hr created Hcreated.
  inv_bind_as Hr updated Hupdated. inv_bind_as Hr model Hmodel.
  rewrite Hcmap, mbind_Ok in Hr. inv_bind_as Hr nodes Hnodes.
  destruct Hconvs as (row & Hrow & Hrid).
  eapply (foldM_sim same_rows _ (item_node (gen_id "chatgpt" (fmt oid))) _ _ _
            (ItemRows [] [] [])) in Hr as (rows & Hrows & Em & Et & Ea);
    [|intros t s0 s' x HR Hs; eapply item_node_sim; eassumption
     |repeat split].
  destruct item as [| | | | |d]; try discriminate Hitem.
  eexists. split.
  { unfold parse_item.
    repeat first [rewrite mbind_Ok | rewrite Hitem | rewrite dot_get_JDict | rewrite Hfetch
                 | rewrite Hmap | rewrite Hnodes | rewrite Hrows].
    reflexivity. }
  cbn [pi_conv pi_rows c_id].
  split; [now rewrite Hrow, <- Hrid|].
  split; [now rewrite Em|]. split; [now rewrite Et|]. split; [now rewrite Ea|].
  cbv zeta. apply upsert_known_ids; cbn [convs msgs List.map].
  - intros k Hk. apply list_elem_of_singleton in Hk as ->.
    unfold upsert; cbn [fst conversations]. apply insert_or_replace_is_Some. left.
    rewrite Hrow. simpl. rewrite Hrid. left.
  - intros k Hk. unfold upsert; cbn [fst messages]. apply insert_or_replace_is_Some. left.
    now rewrite <- Em.
Qed.

End WebItemFacts.

(** ** Claude Code sessions: tool blocks and tool-call rows *)

Lemma combine_app_eq {A B} (l1 l2 : list A) (k1 k2 : list B) :
  length l1 = length k1 -> combine (l1 ++ l2) (k1 ++ k2) = combine l1 k1 ++ combine l2 k2.
Proof.
  revert k1. induction l1 as [|a l1 IH]; intros [|b k1]; simpl; try discriminate.
  - reflexivity.
  - intros [= E]. now rewrite IH.
Qed.

Lemma enumerate_app {A} (l1 l2 : list A) :
  Py.enumerate (l1 ++ l2)
  = Py.enumerate l1 ++ combine (seq (length l1) (length l2)) l2.
Proof.
  unfold Py.enumerate. rewrite length_app, seq_app. simpl.
  rewrite combine_app_eq; [reflexivity|]. now rewrite length_seq.
Qed.

Section ToolRows.
Context `{Library}.

Lemma make_tool_use (cid : string) (idx : nat) (mid : string) (ts : option datetime)
    (j : nat) (b : list (string * json)) (t : json) :
  tool_use b = Ok t ->
  exists row,
    make_tool cid idx mid ts (j, t) = Ok row
    /\ Py.item b "name" = Ok (t_tool_name row)
    /\ t_input row = dumps (Py.get b "input" (JDict []))
    /\ t_output row = "{}"%string /\ t_status row = "pending"%string
    /\ t_message_id row = mid.
Proof.
  unfold tool_use. intros Ht. inv_bind_as Ht name Hname. injection Ht as <-.
  eexists. split; [reflexivity|]. simpl. auto.
Qed.

Lemma make_tool_result (cid : string) (idx : nat) (mid : string) (ts : option datetime)
    (j : nat) (b : list (string * json)) :
  exists row,
    make_tool cid idx mid ts (j, tool_result b) = Ok row
    /\ t_tool_name row = Py.get_none b "tool_use_id"
    /\ t_input row = dumps (JDict [])
    /\ t_output row = dumps (Py.get b "content" (JStr ""))
    /\ t_status row = "complete"%string
    /\ t_message_id row = mid.
Proof. eexists. split; [reflexivity|]. simpl. auto. Qed.

Lemma pending_rows (cid : string) (idx : nat) (mid : string) (ts : option datetime)
    (uses : list (list (string * json))) (entries : list json) (k : nat) :
  Forall2 (fun b t => tool_use b = Ok t) uses entries ->
  exists rows,
    mapM (make_tool cid idx mid ts) (combine (seq k (length entries)) entries) = Ok rows
    /\ Forall2 (fun b row => Py.item b "name" = Ok (t_tool_name row)
                             /\ t_input row = dumps (Py.get b "input" (JDict []))
                             /\ t_output row = "{}"%string
                             /\ t_status row = "pending"%string
                             /\ t_message_id row = mid) uses rows.
Proof.
  intros Hall. revert k. induction Hall as [|b t uses entries Hb _ IH]; intros k.
  - exists []. split; [reflexivity | constructor].
  - destruct (make_tool_use cid idx mid ts k b t Hb) as (row & Hrow & Hfields).
    destruct (IH (S k)) as (rows & Hrows & Hall').
    exists (row :: rows). split; [|constructor; assumption].
    cbn [length seq combine mapM]. now rewrite Hrow, mbind_Ok, Hrows.
Qed.

Lemma complete_rows (cid : string) (idx : nat) (mid : string) (ts : option datetime)
    (results : list (list (string * json))) (k : nat) :
  exists rows,
    mapM (make_tool cid idx mid ts)
         (combine (seq k (length (List.map tool_result results))) (List.map tool_result results))
    = Ok rows
    /\ Forall2 (fun b row => t_tool_name row = Py.get_none b "tool_use_id"
                             /\ t_input row = dumps (JDict [])
                             /\ t_output row = dumps (Py.get b "content" (JStr ""))
                             /\ t_status row = "complete"%string
                             /\ t_message_id row = mid) results rows.
Proof.
  revert k. induction results as [|b results IH]; intros k.
  - exists []. split; [reflexivity | constructor].
  - destruct (make_tool_result cid idx mid ts k b) as (row & Hrow & Hfields).
    destruct (IH (S k)) as (rows & Hrows & Hall').
    exists (row :: rows). split; [|constructor; assumption].
    cbn [List.map length seq combine mapM]. now rewrite Hrow, mbind_Ok, Hrows.
Qed.

(** X25. In a Claude Code log, a tool invocation and its result are stored
    as two tool-call rows: for a message event whose content is a block
    list that [extract_content] accepts, [make_tools] returns, in block
    order, one row of status ["pending"] for each block typed ["tool_use"],
    named by the tool and carrying its input, followed by one row of status
    ["complete"] for each block typed ["tool_result"], named by the
    [tool_use_id] it answers and carrying its content; all of them under the
    message identifier of the event. *)
Theorem tool_blocks_become_rows (cid : string) (idx : nat) (e stamp : json)
    (items : list json) (c : content) (ts : option datetime) :
  message_get e "content" (JList []) = Ok (JList items) ->
  extract_content (JList items) = Ok c ->
  Py.dot_get e "timestamp" JNull = Ok stamp ->
  ts_from_iso stamp = Ok ts ->
  let mid := gen_id "claude-code" (cid +:+ ":" +:+ Py.str_of_nat idx) in
  let uses := List.filter (fun b => Py.eq_str (Py.get_none b "type") "tool_use")
                          (dict_blocks items) in
  let results := List.filter (fun b => Py.eq_str (Py.get_none b "type") "tool_result")
                             (dict_blocks items) in
  exists pending complete,
    make_tools cid idx e = Ok (pending ++ complete)
    /\ Forall2 (fun b row => Py.item b "name" = Ok (t_tool_name row)
                             /\ t_input row = dumps (Py.get b "input" (JDict []))
                             /\ t_output row = "{}"%string
                             /\ t_status row = "pending"%string
                             /\ t_message_id row = mid) uses pending
    /\ Forall2 (fun b row => t_tool_name row = Py.get_none b "tool_use_id"
                             /\ t_input row = dumps (JDict [])
                             /\ t_output row = dumps (Py.get b "content" (JStr ""))
                             /\ t_status row = "complete"%string
                             /\ t_message_id row = mid) results complete.
Proof.
  intros Hbody Hc Hstamp Hts mid uses results.
  unfold extract_content in Hc.
  inv_bind_as Hc joined Hjoined. inv_bind_as Hc thoughts Hthoughts.
  inv_bind_as Hc think Hthink. inv_bind_as Hc entries Hentries.
  apply mapM_Ok in Hentries. fold uses in Hentries.
  destruct (pending_rows cid idx mid ts uses entries 0 Hentries) as (pending & Hp & Hpending).
  destruct (complete_rows cid idx mid ts results (length entries)) as (complete_ & Hq & Hcomplete).
  exists pending, complete_. split; [|split; assumption].
  unfold make_tools. rewrite Hbody, mbind_Ok.
  assert (Etools : exists c', extract_content (JList items) = Ok c'
                              /\ tools c' = entries ++ List.map tool_result results).
  { unfold extract_content. rewrite Hjoined, mbind_Ok, Hthoughts, mbind_Ok, Hthink, mbind_Ok.
    fold uses. apply mapM_Ok in Hentries. rewrite Hentries, mbind_Ok.
    eexists. split; reflexivity. }
  destruct Etools as (c' & -> & Htools). rewrite mbind_Ok, Hstamp, mbind_Ok, Hts, mbind_Ok.
  rewrite Htools, enumerate_app. fold mid.
  now apply mapM_app.
Qed.

End ToolRows.

(** ** Session logs that grow *)

Lemma filter_mapM_app_inv {A B} (p : A -> result bool) (f : A -> result B)
    (l1 l2 : list A) (bs : list B) :
  filter_mapM p f (l1 ++ l2) = Ok bs ->
  exists b1 b2, bs = (b1 ++ b2)%list
                /\ filter_mapM p f l1 = Ok b1 /\ filter_mapM p f l2 = Ok b2.
Proof.
  revert bs. induction l1 as [|a l1 IH]; intros bs; simpl.
  - intros Hm. exists [], bs. auto.
  - intros Hm. inv_bind_as Hm keep Hkeep. rewrite Hkeep, mbind_Ok. destruct keep.
    + inv_bind_as Hm b Hb. inv_bind_as Hm bs' Hbs'. injection Hm as <-.
      destruct (IH _ Hbs') as (b1 & b2 & -> & H1 & H2).
      exists (b :: b1), b2. rewrite Hb, mbind_Ok, H1, mbind_Ok. auto.
    + destruct (IH _ Hm) as (b1 & b2 & -> & H1 & H2). exists b1, b2. auto.
Qed.

Lemma concatM_app_inv {A B} (f : A -> result (list B)) (l1 l2 : list A) (bs : list B) :
  concatM f (l1 ++ l2) = Ok bs ->
  exists b1 b2, bs = (b1 ++ b2)%list /\ concatM f l1 = Ok b1 /\ concatM f l2 = Ok b2.
Proof.
  unfold concatM. intros Hc. inv_bind_as Hc bss Hbss. injection Hc as <-.
  apply mapM_app_inv in Hbss as (c1 & c2 & -> & -> & ->).
  exists (concat c1), (concat c2). rewrite concat_app. auto.
Qed.

Lemma load_jsonl_app (f f' : session_file) (more : list (option json)) :
  f_lines f' = (f_lines f ++ more)%list ->
  exists later, load_jsonl f' = (load_jsonl f ++ later)%list.
Proof.
  intros E. unfold load_jsonl. rewrite E, omap_app. eauto.
Qed.

Section Continuation.
Context `{Library}.

(** X26. A Claude Code log that grows keeps its rows: when a session file
    is parsed, lines are appended to it and it is parsed again, the second
    result has the same conversation identifier, and its message,
    tool-call and file-edit rows are those of the first result, unchanged
    and in the same order, followed by the rows of the new lines. *)
Theorem claude_code_continuation_keeps_rows (f f' : session_file)
    (more : list (option json)) (s s' : session) :
  f_path f' = f_path f ->
  f_lines f' = (f_lines f ++ more)%list ->
  parse_claude_code_session f = Ok (Some s) ->
  parse_claude_code_session f' = Ok (Some s') ->
  c_id (s_conv s') = c_id (s_conv s)
  /\ (exists new, s_msgs s' = s_msgs s ++ new)
  /\ (exists new, s_tools s' = s_tools s ++ new)
  /\ (exists new, s_edits s' = s_edits s ++ new).
Proof.
  intros Hpath Hlines Hp Hp'.
  destruct (load_jsonl_app f f' more Hlines) as [later Hload].
  unfold parse_claude_code_session in Hp, Hp'. cbv zeta in Hp, Hp'.
  rewrite Hload, Hpath in Hp'.
  destruct (load_jsonl f) as [|e0 events] eqn:Hev; [discriminate|].
  set (E := e0 :: events) in *. cbn [app] in Hp'.
  change (e0 :: (events ++ later)%list) with (E ++ later)%list in Hp'.
  assert (Hne : forall (T : Type) (a b : T),
             match (E ++ later)%list with [] => a | _ :: _ => b end = b) by reflexivity.
  rewrite Hne in Hp'.
  clear Hne.
  set (cid := gen_id "claude-code" (f_path f)) in *.
  inv_bind_as Hp ts Hts. inv_bind_as Hp sys Hsys. inv_bind_as Hp kept Hkept.
  inv_bind_as Hp ms Hms. destruct ms as [|m0 ms]; [discriminate|].
  inv_bind_as Hp cwd Hcwd. inv_bind_as Hp branch Hbranch.
  inv_bind_as Hp tls Htls. inv_bind_as Hp eds Heds. injection Hp as <-.
  inv_bind_as Hp' ts' Hts'. inv_bind_as Hp' sys' Hsys'. inv_bind_as Hp' kept' Hkept'.
  apply filter_mapM_app_inv in Hkept' as (k1 & k2 & -> & Hk1 & Hk2).
  rewrite Hkept in Hk1. injection Hk1 as <-.
  rewrite enumerate_app in Hp'.
  inv_bind_as Hp' ms' Hms'.
  apply filter_mapM_app_inv in Hms' as (m1 & m2 & -> & Hm1 & Hm2).
  rewrite Hms in Hm1. injection Hm1 as <-.
  cbn [app] in Hp'.
  inv_bind_as Hp' cwd' Hcwd'. inv_bind_as Hp' branch' Hbranch'.
  inv_bind_as Hp' tls' Htls'. inv_bind_as Hp' eds' Heds'. injection Hp' as <-.
  apply concatM_app_inv in Htls' as (t1 & t2 & -> & Ht1 & Ht2).
  rewrite Htls in Ht1. injection Ht1 as <-.
  apply concatM_app_inv in Heds' as (e1 & e2 & -> & He1 & He2).
  rewrite Heds in He1. injection He1 as <-.
  cbn [s_conv s_msgs s_tools s_edits c_id].
  split; [reflexivity|]. split; [exists m2; reflexivity|]. split; eauto.
Qed.

Lemma ts_at_app (ts later : list (option datetime)) (i : nat) :
  ts_at ts i = None \/ ts_at (ts ++ later) i = ts_at ts i.
Proof.
  unfold ts_at. destruct (ts !! i) as [t|] eqn:E; [right | now left].
  now rewrite (lookup_app_l_Some _ _ _ _ E).
Qed.

Lemma codex_msg_same_but_time (cid : string) (ts later : list (option datetime))
    (ip : nat * json) (o o' : option message) :
  codex_msg cid ts ip = Ok o -> codex_msg cid (ts ++ later) ip = Ok o' ->
  option_Forall2 same_but_time o o'.
Proof.
  destruct ip as [i p]. unfold codex_msg. intros Ho Ho'.
  inv_bind_as Ho ty Hty. rewrite Hty, mbind_Ok in Ho'.
  destruct (Py.eq_str ty "message"); [|injection Ho as <-; injection Ho' as <-; constructor].
  inv_bind_as Ho role Hrole. rewrite Hrole, mbind_Ok in Ho'.
  destruct (negb (Py.in_strs role ["developer"; "system"]));
    [|injection Ho as <-; injection Ho' as <-; constructor].
  inv_bind_as Ho txt Htxt. rewrite Htxt, mbind_Ok in Ho'.
  destruct (negb (String.eqb txt ""));
    [|injection Ho as <-; injection Ho' as <-; constructor].
  inv_bind_as Ho role' Hrole'. rewrite Hrole', mbind_Ok in Ho'.
  injection Ho as <-; injection Ho' as <-. constructor.
  unfold same_but_time; cbn. repeat split. apply ts_at_app.
Qed.

Lemma codex_msgs_same_but_time (cid : string) (ts later : list (option datetime))
    (items : list (nat * json)) (found found' : list (option message)) :
  mapM (codex_msg cid ts) items = Ok found ->
  mapM (codex_msg cid (ts ++ later)) items = Ok found' ->
  Forall2 same_but_time (omap id found) (omap id found').
Proof.
  revert found found'. induction items as [|ip items IH]; intros found found'; simpl.
  - intros [= <-] [= <-]. constructor.
  - intros Hf Hf'. inv_bind_as Hf o Ho. inv_bind_as Hf rest Hrest. injection Hf as <-.
    inv_bind_as Hf' o' Ho'. inv_bind_as Hf' rest' Hrest'. injection Hf' as <-.
    specialize (IH _ _ Hrest Hrest').
    destruct (codex_msg_same_but_time _ _ _ _ _ _ Ho Ho'); simpl; [constructor|]; assumption.
Qed.

(** X27. A Codex log that grows keeps its messages: when a session file
    is parsed, lines are appended to it and it is parsed again, the second
    result has the same conversation identifier, and its message rows
    start with the message rows of the first result, in the same order and
    with the same identifier, role and content; only a creation time that
    was missing may now be filled in. The rows of the new lines follow. *)
Theorem codex_continuation_keeps_messages (f f' : session_file)
    (more : list (option json)) (s s' : session) :
  f_path f' = f_path f ->
  f_lines f' = (f_lines f ++ more)%list ->
  parse_codex_session f = Ok (Some s) ->
  parse_codex_session f' = Ok (Some s') ->
  c_id (s_conv s') = c_id (s_conv s)
  /\ exists old new, s_msgs s' = (old ++ new)%list
                     /\ Forall2 same_but_time (s_msgs s) old.
Proof.
  intros Hpath Hlines Hp Hp'.
  destruct (load_jsonl_app f f' more Hlines) as [later Hload].
  unfold parse_codex_session in Hp, Hp'. cbv zeta in Hp, Hp'.
  rewrite Hload, Hpath in Hp'.
  destruct (load_jsonl f) as [|e0 events] eqn:Hev; [discriminate|].
  set (E := e0 :: events) in *. cbn [app] in Hp'.
  change (e0 :: (events ++ later)%list) with (E ++ later)%list in Hp'.
  assert (Hne : forall (T : Type) (a b : T),
             match (E ++ later)%list with [] => a | _ :: _ => b end = b) by reflexivity.
  rewrite Hne in Hp'. clear Hne.
  inv_bind_as Hp ts Hts. inv_bind_as Hp meta Hmeta. inv_bind_as Hp items Hitems.
  inv_bind_as Hp found Hfound.
  destruct (omap id found) as [|m0 ms] eqn:Hms; [discriminate|].
  inv_bind_as Hp calls Hcalls. inv_bind_as Hp outputs Houtputs.
  inv_bind_as Hp eds Heds. inv_bind_as Hp cwd Hcwd. inv_bind_as Hp provider Hprov.
  inv_bind_as Hp version Hver. injection Hp as <-.
  inv_bind_as Hp' ts' Hts'. unfold timestamps_of in Hts, Hts'.
  apply filter_mapM_app_inv in Hts' as (ts1 & ts2 & -> & Hts1 & Hts2).
  rewrite Hts in Hts1. injection Hts1 as <-.
  inv_bind_as Hp' meta' Hmeta'. inv_bind_as Hp' items' Hitems'.
  unfold response_items in Hitems, Hitems'. rewrite enumerate_app in Hitems'.
  apply filter_mapM_app_inv in Hitems' as (i1 & i2 & -> & Hi1 & Hi2).
  rewrite Hitems in Hi1. injection Hi1 as <-.
  inv_bind_as Hp' found' Hfound'.
  apply mapM_app_inv in Hfound' as (f1 & f2 & -> & Hf1 & Hf2).
  rewrite omap_app in Hp'.
  pose proof (codex_msgs_same_but_time _ _ _ _ _ _ Hfound Hf1) as Hsame.
  rewrite Hms in Hsame.
  destruct (omap id f1) as [|m0' ms'] eqn:Hms'; [inversion Hsame|].
  cbn [app] in Hp'.
  inv_bind_as Hp' calls' Hcalls'. inv_bind_as Hp' outputs' Houtputs'.
  inv_bind_as Hp' eds' Heds'. inv_bind_as Hp' cwd' Hcwd'. inv_bind_as Hp' provider' Hprov'.
  inv_bind_as Hp' version' Hver'. injection Hp' as <-.
  cbn [s_conv s_msgs c_id]. split; [reflexivity|].
  exists (m0' :: ms'), (omap id f2). split; [reflexivity | exact Hsame].
Qed.

End Continuation.

(** ** The further properties at concrete inputs *)


Lemma upsert_commutes_on_disjoint_ids_witness :
  (upsert (upsert empty_store batch_a).1 batch_b).1
  = (upsert (upsert empty_store batch_b).1 batch_a).1.
Proof.
  apply (@upsert_commutes_on_disjoint_ids example_library).
  repeat split; intros k Hk Hk'; simpl in Hk, Hk';
    repeat (apply elem_of_cons in Hk as [->|Hk]);
    repeat (apply elem_of_cons in Hk' as [Hk'|Hk']);
    try discriminate; try (now apply elem_of_nil in Hk); now apply elem_of_nil in Hk'.
Defined.

Lemma unchanged_cycle_keeps_tables_witness :
  messages (db (run_jobs two_jobs fresh_run)) = messages (db fresh_run).
Proof.
  apply (@unchanged_cycle_keeps_tables example_library two_jobs fresh_run).
  reflexivity.
Defined.


Lemma completed_job_not_replanned_witness :
  exists j,
    plan_local (namespace (state watched_run) "local") "claude-code" watched_dir = Some j
    /\ plan_local (namespace (state (complete watched_run (j, Ok empty_result))) "local")
                  "claude-code" watched_dir = None.
Proof.
  destruct (plan_local (namespace (state watched_run) "local") "claude-code" watched_dir)
    as [j|] eqn:E; [|vm_compute in E; discriminate E].
  exists j. split; [reflexivity|].
  destruct (@completed_job_not_replanned example_library watched_run watched_dir j)
    as (Hlocal & _).
  apply (Hlocal "claude-code"%string empty_result ValueError E).
Defined.

Lemma claude_code_example_parses :
  exists r, @parse_claude_code example_library [write_session] None = Ok r.
Proof. vm_compute. eexists. reflexivity. Qed.

Lemma codex_example_parses :
  exists r, @parse_codex example_library true [chat_codex_session] None = Ok r.
Proof. vm_compute. eexists. reflexivity. Qed.

Lemma chatgpt_example_parses :
  exists r, @parse_chatgpt example_library chatgpt_export_hello = Ok r.
Proof. vm_compute. eexists. reflexivity. Qed.

Lemma claude_example_parses :
  exists r, @parse_claude example_library claude_export_hello = Ok r.
Proof. vm_compute. eexists. reflexivity. Qed.

Lemma parsed_messages_owned_witness :
  (exists r, @parse_claude_code example_library [write_session] None = Ok r
             /\ msgs r <> [] /\ messages_owned_in r)
  /\ (exists r, @parse_codex example_library true [chat_codex_session] None = Ok r
                /\ msgs r <> [] /\ messages_owned_in r)
  /\ (exists r, @parse_chatgpt example_library chatgpt_export_hello = Ok r
                /\ msgs r <> [] /\ messages_owned_in r)
  /\ (exists r, @parse_claude example_library claude_export_hello = Ok r
                /\ msgs r <> [] /\ messages_owned_in r).
Proof.
  destruct (@parsed_messages_owned example_library) as (Hcc & Hcx & Hgpt & Hcl).
  split; [|split; [|split]].
  - destruct claude_code_example_parses as [r E]. exists r. split; [exact E|].
    split; [|exact (Hcc _ _ _ E)].
    vm_compute in E. injection E as <-. discriminate.
  - destruct codex_example_parses as [r E]. exists r. split; [exact E|].
    split; [|exact (Hcx _ _ _ _ E)].
    vm_compute in E. injection E as <-. discriminate.
  - destruct chatgpt_example_parses as [r E]. exists r. split; [exact E|].
    split; [|exact (Hgpt _ _ E)].
    vm_compute in E. injection E as <-. discriminate.
  - destruct claude_example_parses as [r E]. exists r. split; [exact E|].
    split; [|exact (Hcl _ _ E)].
    vm_compute in E. injection E as <-. discriminate.
Defined.

Lemma sync_keeps_messages_owned_witness :
  messages_owned (db (run_jobs [(quiet_job, Ok (test_batch 3))] fresh_run)).
Proof.
  apply (@sync_keeps_messages_owned example_library).
  - intros k m Hk. simpl in Hk. rewrite lookup_empty in Hk. discriminate Hk.
  - intros j pr Hin. apply list_elem_of_singleton in Hin. injection Hin as _ ->.
    intros m Hm. simpl in Hm.
    repeat (apply elem_of_cons in Hm as [->|Hm]); try (simpl; left);
      now apply elem_of_nil in Hm.
Defined.

Lemma message_content_not_empty_witness :
  (exists r, @parse_claude_code example_library [write_session] None = Ok r
             /\ Forall (fun m => m_content m <> ""%string) (msgs r))
  /\ (exists r, @parse_chatgpt example_library chatgpt_export_hello = Ok r
                /\ Forall (fun m => m_content m <> ""%string) (msgs r))
  /\ (exists r, @parse_claude example_library claude_export_hello = Ok r
                /\ Forall (fun m => m_content m <> ""%string) (msgs r)).
Proof.
  destruct (@message_content_not_empty example_library) as (Hcc & Hgpt & Hcl).
  split; [|split].
  - destruct claude_code_example_parses as [r E]. exists r. split; [exact E|].
    exact (Hcc _ _ _ E).
  - destruct chatgpt_example_parses as [r E]. exists r. split; [exact E|].
    exact (Hgpt _ _ E).
  - destruct claude_example_parses as [r E]. exists r. split; [exact E|].
    exact (Hcl _ _ E).
Defined.

Lemma codex_roles_filtered_witness :
  exists r, @parse_codex example_library true [chat_codex_session] None = Ok r
            /\ Forall (fun m => m_role m <> JStr "developer" /\ m_role m <> JStr "system")
                      (msgs r).
Proof.
  destruct codex_example_parses as [r E]. exists r. split; [exact E|].
  exact (@codex_roles_filtered example_library true [chat_codex_session] None r E).
Defined.

Lemma session_conversations_keyed_by_path_witness :
  (exists r kept, @parse_claude_code example_library [write_session] None = Ok r
      /\ kept `sublist_of` [write_session]
      /\ Forall2 (fun f c => c_id c = gen_id "claude-code" (f_path f)
                             /\ c_source c = "claude-code"%string) kept (convs r))
  /\ (exists r kept, @parse_codex example_library true [chat_codex_session] None = Ok r
        /\ kept `sublist_of` [chat_codex_session]
        /\ Forall2 (fun f c => c_id c = gen_id "codex" (f_path f)
                               /\ c_source c = "codex"%string) kept (convs r)).
Proof.
  destruct (@session_conversations_keyed_by_path example_library) as (Hcc & Hcx & _).
  split.
  - destruct claude_code_example_parses as [r E].
    destruct (Hcc _ _ _ E) as (kept & Hsub & Hall). exists r, kept. auto.
  - destruct codex_example_parses as [r E].
    destruct (Hcx _ _ _ E) as (kept & Hsub & Hall). exists r, kept. auto.
Defined.

Lemma two_files_parse :
  exists r, @parse_claude_code example_library []
              (Some ([write_session] ++ [silent_claude_code_session])) = Ok r.
Proof. vm_compute. eexists. reflexivity. Qed.

Lemma batch_parse_is_file_by_file_witness :
  exists r r1 r2,
    @parse_claude_code example_library []
       (Some ([write_session] ++ [silent_claude_code_session])) = Ok r
    /\ @parse_claude_code example_library [] (Some [write_session]) = Ok r1
    /\ @parse_claude_code example_library [] (Some [silent_claude_code_session]) = Ok r2
    /\ r = append_results r1 r2
    /\ (upsert empty_store r).1 = (upsert (upsert empty_store r1).1 r2).1.
Proof.
  destruct (@batch_parse_is_file_by_file example_library) as (Hcc & _).
  destruct two_files_parse as [r E].
  destruct (Hcc [] write_session [] silent_claude_code_session [] r empty_store E)
    as (r1 & r2 & H1 & H2 & Happ & Hup).
  exists r, r1, r2. auto.
Defined.

Lemma web_plan_example :
  exists j, w_job (@plan_web example_library "chatgpt" chrome_probe fresh_run) = Some j
            /\ j_state j = Some ("web"%string, "chatgpt"%string,
                                 web_state "chatgpt" "chrome" (Some "id-1:2024-01-01"%string)).
Proof. vm_compute. eexists. split; reflexivity. Qed.

Lemma web_job_only_on_new_head_witness :
  exists j b head,
    w_job (@plan_web example_library "chatgpt" chrome_probe fresh_run) = Some j
    /\ chrome_probe b = Ok head
    /\ j_state j = Some ("web"%string, "chatgpt"%string, web_state "chatgpt" b head)
    /\ w_run (@plan_web example_library "chatgpt" chrome_probe fresh_run) = fresh_run.
Proof.
  destruct web_plan_example as (j & Hj & _).
  destruct (@web_job_only_on_new_head example_library "chatgpt" chrome_probe fresh_run j Hj)
    as (before & b & after & head & since & _ & _ & Hp & _ & Ej & Hr & _).
  exists j, b, head. split; [exact Hj|]. split; [exact Hp|]. split; [|exact Hr].
  rewrite Ej. reflexivity.
Defined.

Lemma web_job_not_replanned_witness :
  exists j,
    w_job (@plan_web example_library "chatgpt" chrome_probe fresh_run) = Some j
    /\ w_job (@plan_web example_library "chatgpt" chrome_probe
                (complete fresh_run (j, Ok empty_result))) = None.
Proof.
  destruct web_plan_example as (j & Hj & Hst).
  exists j. split; [exact Hj|].
  apply (@web_job_not_replanned example_library "chatgpt" chrome_probe chrome_probe fresh_run
           j empty_result "chrome" "id-1:2024-01-01" Hj Hst eq_refl).
Defined.

Lemma web_plan_when_probes_fail_witness :
  w_job (@plan_web example_library "claude" failing_probe fresh_run) = None
  /\ w_run (@plan_web example_library "claude" failing_probe fresh_run) = fresh_run.
Proof.
  destruct (@web_plan_when_probes_fail example_library "claude" failing_probe fresh_run)
    as (Hj & Hr & _).
  - apply Forall_forall. intros b _. reflexivity.
  - split; [exact Hj | exact Hr].
Defined.

Lemma fetch_json_retries_witness :
  fetch_json third_time 2 = Fetched (Ok (Some (JDict [("items", JList [])]))) 3 [1; 2]
  /\ fetch_json never 2 = Fetched (Raise (JobError "timed out")) 3 [1; 2].
Proof.
  destruct (fetch_json_retries third_time 2) as (Hfirst & _).
  destruct (fetch_json_retries never 2) as (_ & Hall & _).
  split.
  - apply (Hfirst 2%nat); [lia | lia | | reflexivity].
    intros n Hn. destruct n as [|[|n]]; [reflexivity | reflexivity | lia].
  - apply (Hall (JobError "timed out")); [lia | reflexivity | reflexivity].
Defined.

Lemma import_dispatch_total_witness :
  detect_source claude_export_path = Returns "claude"%string
  /\ "claude"%string ∈ known_sources
  /\ @parse_source example_library claude_export_path (Some "gemini"%string)
     = Fails (UnknownSource "gemini").
Proof.
  destruct (@import_dispatch_total example_library claude_export_path) as (Hknown & Hunk & _).
  split; [reflexivity|]. split.
  - apply Hknown. reflexivity.
  - apply Hunk. split; [reflexivity|]. unfold known_sources. intros Hin.
    repeat (apply elem_of_cons in Hin as [Hin|Hin]; [discriminate Hin|]).
    now apply elem_of_nil in Hin.
Defined.

Lemma import_example_parses :
  exists r, @parse_source example_library claude_export_path None = Returns r.
Proof. vm_compute. eexists. reflexivity. Qed.

Lemma import_rows_tagged_witness :
  exists r, @parse_source example_library claude_export_path None = Returns r
            /\ Forall (fun c => c_source c = "claude"%string) (convs r).
Proof.
  destruct import_example_parses as [r E]. exists r. split; [exact E|].
  destruct (@import_rows_tagged example_library claude_export_path None r E)
    as (src & _ & [Hs|[_ Hd]] & Hall); [discriminate Hs|].
  assert (Hsrc : src = "claude"%string).
  { assert (D : detect_source claude_export_path = Returns "claude"%string) by reflexivity.
    rewrite D in Hd. now injection Hd as <-. }
  now rewrite Hsrc in Hall.
Defined.

Lemma session_rows_of_event_witness :
  exists s row,
    @parse_claude_code_session example_library write_session = Ok (Some s)
    /\ row ∈ s_edits s
    /\ e_file_path row = JStr "/a.py"
    /\ e_edit_type row = "write"%string
    /\ (exists m, m ∈ s_msgs s /\ m_id m = e_message_id row).
Proof.
  assert (E : exists s, @parse_claude_code_session example_library write_session = Ok (Some s))
    by (vm_compute; eexists; reflexivity).
  destruct E as [s E].
  destruct (@session_rows_of_event example_library write_session s
              [JDict [("type", JStr "user"); ("message", JDict [("content", JStr "Create a.py")])];
               write_event]
              1 write_event
              (JList [JDict [("type", JStr "tool_use"); ("name", JStr "Write");
                             ("input", JDict [("file_path", JStr "/a.py");
                                              ("content", JStr "print(1)")])];
                      JDict [("type", JStr "text"); ("text", JStr "Created file.")]])
              (Content "Created file." None
                 [JDict [("name", JStr "Write");
                         ("input", JDict [("file_path", JStr "/a.py");
                                          ("content", JStr "print(1)")]);
                         ("id", JNull)]] [])
              E eq_refl eq_refl eq_refl eq_refl) as (_ & Hedits & Hmsg).
  destruct (Hedits 0%nat
              [("name", JStr "Write");
               ("input", JDict [("file_path", JStr "/a.py"); ("content", JStr "print(1)")]);
               ("id", JNull)]
              [("file_path", JStr "/a.py"); ("content", JStr "print(1)")]
              "Write"%string eq_refl eq_refl) as (row & Hin & _ & Hmid & Hfp & Hty);
    [left | reflexivity | reflexivity|].
  destruct (Hmsg eq_refl) as (m & Hm & Hid).
  exists s, row. split; [exact E|]. split; [exact Hin|]. split; [exact Hfp|].
  split; [exact Hty|]. exists m. split; [exact Hm|]. now rewrite Hid, Hmid.
Defined.

Lemma extract_content_returns_iff_named_witness :
  (exists c, extract_content
               (JList [JDict [("type", JStr "tool_use"); ("name", JStr "Write")];
                       JDict [("type", JStr "text"); ("text", JStr "Done.")]]) = Ok c)
  /\ extract_content (JList [JDict [("type", JStr "tool_use")];
                             JDict [("type", JStr "text"); ("text", JStr "Done.")]])
     = Raise (KeyError "name").
Proof.
  split.
  - apply (extract_content_returns_iff_named
             [JDict [("type", JStr "tool_use"); ("name", JStr "Write")];
              JDict [("type", JStr "text"); ("text", JStr "Done.")]]).
    + repeat constructor; simpl; eauto.
    + constructor.
    + reflexivity.
  - apply (extract_content_returns_iff_named
             [JDict [("type", JStr "tool_use")];
              JDict [("type", JStr "text"); ("text", JStr "Done.")]]).
    + repeat constructor; simpl; eauto.
    + constructor.
    + reflexivity.
Defined.

Lemma hello_export_parses :
  exists r, @chatgpt_conv example_library empty_result hello_export_conv = Ok r.
Proof. vm_compute. eexists. reflexivity. Qed.

Lemma web_item_agrees_with_export_witness :
  exists r p,
    @chatgpt_conv example_library empty_result hello_export_conv = Ok r
    /\ @parse_item example_library "https://chatgpt.com" hello_service hello_item = Ok p
    /\ List.map c_id (convs r) = [c_id (pi_conv p)]
    /\ msgs r = i_msgs (pi_rows p)
    /\ msgs r <> [].
Proof.
  destruct hello_export_parses as [r E].
  destruct (@web_item_agrees_with_export example_library "https://chatgpt.com" hello_service
              hello_item hello_export_conv
              (JDict [("mapping",
                       JDict [("n1", JDict [("message",
                                             JDict [("author", JDict [("role", JStr "user")]);
                                                    ("content",
                                                     JDict [("parts", JList [JStr "Hello"])])])])])])
              (JStr "conv-1")
              (JDict [("n1", JDict [("message",
                                     JDict [("author", JDict [("role", JStr "user")]);
                                            ("content", JDict [("parts", JList [JStr "Hello"])])])])])
              r empty_store eq_refl eq_refl eq_refl eq_refl eq_refl E)
    as (p & Hp & Hid & Hm & _).
  exists r, p. split; [exact E|]. split; [exact Hp|]. split; [exact Hid|].
  split; [exact Hm|].
  vm_compute in E. injection E as <-. discriminate.
Defined.

Lemma tool_blocks_become_rows_witness :
  exists pending complete_,
    @make_tools example_library test_cid 1 write_event = Ok (pending ++ complete_)
    /\ List.map t_status pending = ["pending"%string]
    /\ complete_ = [].
Proof.
  destruct (@tool_blocks_become_rows example_library test_cid 1 write_event JNull
              [JDict [("type", JStr "tool_use"); ("name", JStr "Write");
                      ("input", JDict [("file_path", JStr "/a.py");
                                       ("content", JStr "print(1)")])];
               JDict [("type", JStr "text"); ("text", JStr "Created file.")]]
              (Content "Created file." None
                 [JDict [("name", JStr "Write");
                         ("input", JDict [("file_path", JStr "/a.py");
                                          ("content", JStr "print(1)")]);
                         ("id", JNull)]] [])
              None eq_refl eq_refl eq_refl eq_refl)
    as (pending & complete_ & Hrows & Hpending & Hcomplete).
  exists pending, complete_. split; [exact Hrows|].
  simpl in Hpending, Hcomplete.
  inversion Hcomplete; subst. split; [|reflexivity].
  inversion Hpending as [|b row l rows (_ & _ & _ & Hst & _) Hrest]; subst.
  inversion Hrest; subst. simpl. now rewrite Hst.
Defined.

Lemma longer_sessions_parse :
  (exists s s', @parse_claude_code_session example_library write_session = Ok (Some s)
                /\ @parse_claude_code_session example_library longer_write_session
                   = Ok (Some s'))
  /\ (exists s s', @parse_codex_session example_library chat_codex_session = Ok (Some s)
                   /\ @parse_codex_session example_library longer_codex_session
                      = Ok (Some s')).
Proof. split; vm_compute; eexists _, _; split; reflexivity. Qed.

Lemma claude_code_continuation_keeps_rows_witness :
  exists s s',
    @parse_claude_code_session example_library write_session = Ok (Some s)
    /\ parse_claude_code_session longer_write_session = Ok (Some s')
    /\ c_id (s_conv s') = c_id (s_conv s)
    /\ (exists new, s_msgs s' = s_msgs s ++ new)
    /\ (exists new, s_tools s' = s_tools s ++ new)
    /\ (exists new, s_edits s' = s_edits s ++ new).
Proof.
  destruct (proj1 longer_sessions_parse) as (s & s' & E & E').
  exists s, s'. split; [exact E|]. split; [exact E'|].
  exact (@claude_code_continuation_keeps_rows example_library write_session
           longer_write_session thanks_lines s s' eq_refl eq_refl E E').
Defined.

Lemma codex_continuation_keeps_messages_witness :
  exists s s',
    @parse_codex_session example_library chat_codex_session = Ok (Some s)
    /\ parse_codex_session longer_codex_session = Ok (Some s')
    /\ c_id (s_conv s') = c_id (s_conv s)
    /\ exists old new, s_msgs s' = (old ++ new)%list
                       /\ Forall2 same_but_time (s_msgs s) old.
Proof.
  destruct (proj2 longer_sessions_parse) as (s & s' & E & E').
  exists s, s'. split; [exact E|]. split; [exact E'|].
  exact (@codex_continuation_keeps_messages example_library chat_codex_session
           longer_codex_session again_lines s s' eq_refl eq_refl E E').
Defined.
